(** * The Lasair query manager of aas2rto, embedded in Rocq

    Source: [aas2rto/query_managers/lasair.py].

    Python dictionaries with string keys are stdpp [gmap string _];
    exceptions are an explicit [result] type; Python floats are the
    rationals [Q] they denote, with NaN written out where it can occur.
    Collaborators that live outside the module (astropy, pandas, numpy,
    the Lasair client, [aas2rto.target], [aas2rto.utils]) are either
    parameters of a [Section] or small models whose doc comment says so. *)

From Stdlib Require Import QArith.
From stdpp Require Import gmap strings list sorting pretty.

Close Scope Q_scope.
Open Scope string_scope.

(** ** Python values, exceptions *)

(** The scalar values a JSON alert, a candidate row or a table cell holds.
    [VNone] is Python's [None]; in a table column it is pandas' NaN / NA. *)
Inductive value : Type :=
  | VNone
  | VBool (b : bool)
  | VInt (z : Z)
  | VFloat (q : Q)
  | VStr (s : string).

(** The exception classes that the module raises or lets through. *)
Inductive exn : Type :=
  | KeyError (key : string)
  | ValueError (msg : string)
  | TypeError
  | AssertionError
  | MissingObjectIdError
  | MissingCoordinatesError
  | EmptyDataError
  | ParserError
  | UnicodeDecodeError
  | LasairError (msg : string)
  | ErfaError.

(** A call either returns or raises. *)
Inductive result (A : Type) : Type :=
  | Ok (a : A)
  | Raise (e : exn).
Arguments Ok {A} a.
Arguments Raise {A} e.

(** Sequencing: a raised exception skips the rest.  With these instances
    stdpp's [x ← r; k] reads as the statements of the source in order. *)
#[export] Instance result_bind : MBind result := fun A B k r =>
  match r with
  | Ok a => k a
  | Raise e => Raise e
  end.

#[export] Instance result_ret : MRet result := fun A a => Ok a.

(** [try: body except Exception: handler] *)
Definition try_except {A} (body : result A) (handler : exn -> A) : A :=
  match body with
  | Ok a => a
  | Raise e => handler e
  end.

Definition is_Ok {A} (r : result A) : bool :=
  match r with Ok _ => true | Raise _ => false end.

(** [v is not None] *)
Definition is_not_None (v : value) : bool :=
  match v with VNone => false | _ => true end.

(** Python truthiness of a scalar, as used by [if row.get("candid")]. *)
Definition truthy (v : value) : bool :=
  match v with
  | VNone => false
  | VBool b => b
  | VInt z => negb (z =? 0)%Z
  | VFloat q => negb (Qnum q =? 0)%Z
  | VStr s => negb (String.eqb s "")
  end.

(** [d.get(key, None)]: an absent key and a key bound to [None] both
    give [None]. *)
Definition dict_get (d : gmap string value) (key : string) : value :=
  default VNone (d !! key).

(** [d[key]] *)
Definition dict_getitem (d : gmap string value) (key : string) : result value :=
  match d !! key with
  | Some v => Ok v
  | None => Raise (KeyError key)
  end.

(** ** Tables *)

(** A pandas DataFrame: its column labels and its rows.  A row maps a
    column label to the cell; a label missing from a row is a NaN cell. *)
Record DataFrame : Type := {
  df_columns : list string;
  df_rows : list (gmap string value)
}.

(** [len(df)] *)
Definition df_len (df : DataFrame) : nat := length (df_rows df).

(** [df[col]]: the cells of a column, [KeyError] when there is no such
    column. *)
Definition df_getitem (df : DataFrame) (col : string) : result (list value) :=
  if bool_decide (col ∈ df_columns df)
  then Ok (map (fun r => dict_get r col) (df_rows df))
  else Raise (KeyError col).

(** [df.empty]: no rows, or no columns. *)
Definition df_empty (df : DataFrame) : bool :=
  match df_rows df, df_columns df with
  | [], _ | _, [] => true
  | _, _ => false
  end.

(** [series.dropna()] *)
Definition dropna (s : list value) : list value := filter (fun v => is_not_None v = true) s.

(** A Python float: [None] stands for NaN. *)
Definition float : Type := option Q.

Definition as_number (v : value) : option Q :=
  match v with
  | VInt z => Some (inject_Z z)
  | VFloat q => Some q
  | VBool b => Some (if b then 1%Q else 0%Q)
  | _ => None
  end.

Fixpoint numbers (s : list value) : option (list Q) :=
  match s with
  | [] => Some []
  | v :: s' =>
      match as_number v, numbers s' with
      | Some q, Some qs => Some (q :: qs)
      | _, _ => None
      end
  end.

Definition Qsum (qs : list Q) : Q := fold_right Qplus 0%Q qs.

(** [np.average(series)] on a series without NaN: the mean of a numeric
    series, NaN (with a warning, no exception) for an empty one, and a
    [TypeError] when a cell is not a number. *)
Definition np_average (s : list value) : result float :=
  match numbers s with
  | None => Raise TypeError
  | Some [] => Ok None
  | Some qs => Ok (Some (Qred (Qsum qs / inject_Z (Z.of_nat (length qs)))))
  end.

(** ** Tracked objects *)

Record SkyCoord : Type := { sc_ra : Q; sc_dec : Q }.

(** [TargetData]: the per-broker record of a target. *)
Record TargetData : Type := {
  lightcurve : option DataFrame
}.

Definition empty_target_data : TargetData := {| lightcurve := None |}.

(** Modelled from the spec: [TargetData.add_lightcurve] of
    [aas2rto.target], whose source is not at hand.  The spec lists it as
    [addLightcurve(rows)] next to the [lightcurve] field it fills and
    has no word on a table that it refuses, so the model has it accept
    every table. *)
Definition add_lightcurve (lc : DataFrame) (td : TargetData) : TargetData :=
  {| lightcurve := Some lc |}.

Record Target : Type := {
  objectId : value;
  ra : value;
  dec : value;
  coord : option SkyCoord;
  target_data : gmap string TargetData;
  updated : bool;
  send_updates : bool;
  update_messages : list string
}.

(** [target.get_target_data(name)]: the record of that broker, a fresh
    empty one when the target has none yet. *)
Definition get_target_data (name : string) (t : Target) : TargetData :=
  default empty_target_data (target_data t !! name).

Definition set_target_data (name : string) (td : TargetData) (t : Target) : Target :=
  {| objectId := objectId t; ra := ra t; dec := dec t; coord := coord t;
     target_data := <[name := td]> (target_data t);
     updated := updated t; send_updates := send_updates t;
     update_messages := update_messages t |}.

Definition set_updated (b : bool) (t : Target) : Target :=
  {| objectId := objectId t; ra := ra t; dec := dec t; coord := coord t;
     target_data := target_data t;
     updated := b; send_updates := send_updates t;
     update_messages := update_messages t |}.

Definition set_coordinates (r d : value) (c : option SkyCoord) (t : Target) : Target :=
  {| objectId := objectId t; ra := r; dec := d; coord := c;
     target_data := target_data t;
     updated := updated t; send_updates := send_updates t;
     update_messages := update_messages t |}.

Definition float_value (f : float) : value :=
  match f with Some q => VFloat q | None => VNone end.

Section Lasair.

(** astropy's [SkyCoord(ra=.., dec=.., unit="deg")] on two floats: the
    coordinate object, or the exception astropy raises. *)
Variable sky_coord : float -> float -> result SkyCoord.

(** Modelled from the spec: the [Target] constructor of [aas2rto.target],
    whose source is not at hand.  It keeps the identifier and the coordinates
    it is given; the sky position is derived when both are numbers and
    astropy accepts them.  A new target has no broker data, is not marked
    updated and has no messages.  The spec creates the object also when
    no coordinates qualify and has no word on a constructor that fails,
    so the model has it return, without a sky position where astropy
    refuses the numbers. *)
Definition Target_init (oid r d : value) : Target :=
  {| objectId := oid; ra := r; dec := d;
     coord := match as_number r, as_number d with
              | Some x, Some y =>
                  try_except (c ← sky_coord (Some x) (Some y); Ok (Some c))
                             (fun _ => None)
              | _, _ => None
              end;
     target_data := ∅; updated := false; send_updates := false;
     update_messages := [] |}.

(** Modelled from the spec: [Target.update_coordinates] of
    [aas2rto.target], whose source is not at hand: the coordinates are
    installed on the object, unless building the sky position raises. *)
Definition update_coordinates (t : Target) (r d : float) : result Target :=
  c ← sky_coord r d;
  Ok (set_coordinates (float_value r) (float_value d) (Some c) t).

(** ** [target_from_lasair_alert] *)

Definition default_coordinate_guesses : list (string * string) :=
  [("ramean", "decmean"); ("ra", "dec"); ("RA", "Dec")].

(** The [for racol, deccol in ...: ... break] loop.  [ra] and [dec] are
    the loop's variables: they keep the values of the last pair that was
    looked up, whether or not the loop left through [break]. *)
Fixpoint guess_coordinates (alert : gmap string value)
    (guesses : list (string * string)) (ra0 dec0 : value) : value * value :=
  match guesses with
  | [] => (ra0, dec0)
  | (racol, deccol) :: rest =>
      let ra1 := dict_get alert racol in
      let dec1 := dict_get alert deccol in
      if is_not_None ra1 && is_not_None dec1
      then (ra1, dec1)
      else guess_coordinates alert rest ra1 dec1
  end.

Record alert_outcome : Type := {
  new_target : Target;
  warnings : list string
}.

Definition target_from_lasair_alert (alert : gmap string value)
    : result alert_outcome :=
  let oid := dict_get alert "objectId" in
  if negb (is_not_None oid) then Raise MissingObjectIdError
  else
    let '(r, d) := guess_coordinates alert default_coordinate_guesses VNone VNone in
    let w := if negb (is_not_None r) || negb (is_not_None d)
             then ["missing coords"] else [] in
    Ok {| new_target := Target_init oid r d; warnings := w |}.

(** ** [process_lasair_lightcurve] *)

(** One element of the list the Lasair client returns: a dictionary in
    which the keys ["objectId"] and ["candidates"] may be missing. *)
Record lc_data : Type := {
  lc_objectId : option string;
  lc_candidates : option (list (gmap string value))
}.

(** Python's built-in [str] on a scalar. *)
Variable py_str : value -> string.

(** The body of [for r in det]. *)
Definition mark_detection (r : gmap string value) : result (gmap string value) :=
  candid ← dict_getitem r "candid";
  Ok (<["tag" := VStr "valid"]> (<["candid_str" := VStr (py_str candid)]> r)).

(** The body of [for r in non_det]. *)
Definition mark_non_detection (r : gmap string value) : result (gmap string value) :=
  if truthy (dict_get r "candid") then Raise AssertionError
  else Ok (<["tag" := VStr "upperlim"]>
            (<["candid_str" := VStr "-1"]> (<["candid" := VInt (-1)]> r))).

(** [pd.DataFrame(rows)]: one column per key that occurs in some row.
    The cells are kept as the dictionaries have them.  pandas stores a
    column in one fixed-width type: that is exact for strings and for
    integers of the [int64] range, the range of the candidate identifiers
    of the broker; integers beyond it are not kept apart (see
    [df_concat]), so what is proved of the cells of [candid] is proved
    for identifiers of that range ([int64_candid]). *)
Definition frame_of_rows (rows : list (gmap string value)) : DataFrame :=
  {| df_columns := elements (⋃ (map dom rows) : gset string);
     df_rows := rows |}.

(** [pd.concat([a, b])]: the columns of [a], then the new ones of [b];
    the rows of [a], then those of [b].  The cells are kept as they are,
    which is what pandas does when the two columns of a name have one
    type, as the [candid] column has for identifiers of the [int64]
    range and the -1 of the non-detections.  A column of [uint64]
    identifiers (2^63 and above) put together with the [int64] -1 is
    turned into [float64], where distinct identifiers can fall
    together: such inputs are outside what the model describes. *)
Definition df_concat (a b : DataFrame) : DataFrame :=
  {| df_columns := df_columns a ++
       filter (fun c => c ∉ df_columns a) (df_columns b);
     df_rows := df_rows a ++ df_rows b |}.

Definition add_column (col : string) (cols : list string) : list string :=
  if bool_decide (col ∈ cols) then cols else cols ++ [col].

(** [df[col] = v] for a scalar [v] *)
Definition df_set_scalar (col : string) (v : value) (df : DataFrame) : DataFrame :=
  {| df_columns := add_column col (df_columns df);
     df_rows := map (fun r => <[col := v]> r) (df_rows df) |}.

(** [df[col] = f(df[src])] computed row by row *)
Definition df_set_from (col src : string) (f : value -> value) (df : DataFrame)
    : DataFrame :=
  {| df_columns := add_column col (df_columns df);
     df_rows := map (fun r => <[col := f (dict_get r src)]> r) (df_rows df) |}.

(** The offset between Julian and Modified Julian dates, 2400000.5. *)
Definition mjd_offset : Q := (4800001 # 2)%Q.

(** [Time(jd, format="jd").mjd] on one cell.  The function is applied
    to the cells of a column that [valid_jd] accepted, which are
    numbers; its last branch is not taken there. *)
Definition jd_to_mjd (v : value) : value :=
  match as_number v with
  | Some q => VFloat (Qred (q - mjd_offset))
  | None => VNone
  end.

(** [Time(..., format="jd")] raises [ValueError] on a date column that
    holds something else than numbers; a cell that is missing or null,
    as in the row of a candidate without [jd], is refused as well. *)
Definition valid_jd (v : value) : bool :=
  match v with
  | VInt _ | VFloat _ => true
  | _ => false
  end.

(** The order [sort_values("jd")] sorts by: ascending, NaN last (the
    tables that reach the sort have a number in every cell of [jd]). *)
Definition jd_leb (r1 r2 : gmap string value) : bool :=
  match as_number (dict_get r1 "jd"), as_number (dict_get r2 "jd") with
  | Some a, Some b => Qle_bool a b
  | Some _, None => true
  | None, Some _ => false
  | None, None => true
  end.

Definition jd_le (r1 r2 : gmap string value) : Prop := jd_leb r1 r2 = true.

#[export] Instance jd_le_dec : RelDecision jd_le.
Proof. intros r1 r2. unfold jd_le. apply _. Defined.

(** [df.sort_values("jd")].  pandas does not promise an order among rows
    of equal date; the model fixes one. *)
Definition sort_values_jd (df : DataFrame) : DataFrame :=
  {| df_columns := df_columns df;
     df_rows := merge_sort jd_le (df_rows df) |}.

Definition process_lasair_lightcurve (lc : lc_data) : result DataFrame :=
  oid ← from_option Ok (Raise (KeyError "objectId")) (lc_objectId lc);
  candidates ← from_option Ok (Raise (KeyError "candidates")) (lc_candidates lc);
  let det := filter (fun row => truthy (dict_get row "candid") = true) candidates in
  let non_det := filter (fun r => truthy (dict_get r "candid") = false) candidates in
  if negb (length det + length non_det =? length candidates)%nat then Raise AssertionError
  else
    det' ← mapM mark_detection det;
    non_det' ← mapM mark_non_detection non_det;
    let detections := frame_of_rows det' in
    let non_detections := frame_of_rows non_det' in
    let lightcurve := df_concat detections non_detections in
    let lightcurve := df_set_scalar "objectId" (VStr oid) lightcurve in
    lightcurve ←
      (if df_empty lightcurve
       then Ok (df_set_scalar "mjd" (VInt 0) (df_set_scalar "jd" (VInt 0) lightcurve))
       else
         jd ← df_getitem lightcurve "jd";
         if forallb valid_jd jd
         then Ok (df_set_from "mjd" "jd" jd_to_mjd lightcurve)
         else Raise (ValueError "jd"));
    Ok (sort_values_jd lightcurve).

(** ** [_get_alert_timestamp] and [process_alerts] *)

(** astropy's [Time(v)] / [Time(v, format=fmt)] followed by [.isot], in
    the two steps in which the function takes them.  The constructor
    raises on a value it cannot read; that is inside the [try].  On a
    date out of range the constructor returns and [.isot], which stands
    after the [try], raises erfa's [ErfaError].  Otherwise there is the
    ISO string. *)
Inductive time_outcome : Type :=
  | TimeRaises (e : exn)
  | IsotRaises (e : exn)
  | Isot (s : string).

Variable time_isot : option string -> value -> time_outcome.

(** [Time.now().isot] at each reading of the clock: the readings are
    numbered in the order in which they are made. *)
Variable now_isot : nat -> string.

Definition has_key (d : gmap string value) (key : string) : bool :=
  bool_decide (is_Some (d !! key)).

(** The [if]/[elif] chain: the date of the first of the four keys that
    the alert has, [None] when it has none of them. *)
Definition alert_time (alert : gmap string value) : option time_outcome :=
  if has_key alert "timestamp" then Some (time_isot None (dict_get alert "timestamp"))
  else if has_key alert "UTC" then Some (time_isot None (dict_get alert "UTC"))
  else if has_key alert "mjdmax" then Some (time_isot (Some "mjd") (dict_get alert "mjdmax"))
  else if has_key alert "jdmax" then Some (time_isot (Some "jd") (dict_get alert "jdmax"))
  else None.

(** [t_ref] stands for the [.isot] of the reference time.  The module
    never passes one, so that it is [Time.now()] as read at the start of
    the call; the conversion of the current time is taken to succeed.
    What [.isot] raises on the date of the alert leaves the function. *)
Definition _get_alert_timestamp (t_ref : string) (alert : gmap string value)
    : result string :=
  _ ← dict_getitem alert "objectId";
  match alert_time alert with
  | Some (Isot s) => Ok s
  | Some (IsotRaises e) => Raise e
  | Some (TimeRaises _) | None => Ok t_ref
  end.

(** The alert files, each named by a pair of object and candidate
    identifier: the sequence of writes, the latest first, each write
    replacing the whole file of its name. *)
Definition alert_store : Type := list ((value * value) * gmap string value).

(** Modelled from the spec: [get_alert_file] of the base query manager,
    whose source is not at hand, names one file per pair of object and
    candidate identifier. *)
Definition get_alert_file (oid candid : value) : value * value := (oid, candid).

(** The body of [for alert in alerts]: the enriched alert, and the store
    after it, or the exception that leaves the loop.  The call of
    [_get_alert_timestamp] passes no reference time, so that the clock
    is read in it; [k] is the number of that reading. *)
Definition process_alert (k : nat) (save_alerts : bool) (alert : gmap string value)
    (store : alert_store) : result (gmap string value * alert_store) :=
  let oid := dict_get alert "objectId" in
  timestamp ← _get_alert_timestamp (now_isot k) alert;
  let alert := <["alert_timestamp" := VStr timestamp]> alert in
  if save_alerts then
    candid ← dict_getitem alert "candid";
    Ok (alert, (get_alert_file oid candid, alert) :: store)
  else Ok (alert, store).

(** The [for alert in alerts] loop: the store as it leaves it, whether
    it comes to its end or raises.  Every turn reads the clock once; [k]
    is the number of the reading of the first turn.  Opening and writing
    a file are taken to succeed. *)
Fixpoint process_alerts_loop (k : nat) (alerts : list (gmap string value))
    (save_alerts : bool) (store : alert_store)
    : alert_store * result (list (gmap string value)) :=
  match alerts with
  | [] => (store, Ok [])
  | alert :: rest =>
      match process_alert k save_alerts alert store with
      | Raise e => (store, Raise e)
      | Ok (alert', store') =>
          let '(store'', r) := process_alerts_loop (S k) rest save_alerts store' in
          (store'', alerts' ← r; Ok (alert' :: alerts'))
      end
  end.

(** [process_alerts], called without a reference time as the module
    calls it.  [clock] is the number of readings of the clock made
    before the call: the call reads it once for its own [t_ref], which
    it does not use, and then once in every turn of the loop. *)
Definition process_alerts (clock : nat) (alerts : list (gmap string value))
    (save_alerts : bool) (store : alert_store)
    : alert_store * result (list (gmap string value)) :=
  process_alerts_loop (S clock) alerts save_alerts store.

(** ** The lightcurve files *)

(** What is on disk under the lightcurve path of an object, described by
    what [pd.read_csv] makes of it: the table it parses to, or the
    exception it raises (an empty file raises [EmptyDataError], a file
    with ragged rows [ParserError], undecodable bytes
    [UnicodeDecodeError], ...).  [get_lightcurve_file] of the base query
    manager is not at hand; the spec has one cache file per object, so
    the files are a map from the object identifier, and a missing file is
    a missing key. *)
Inductive file_contents : Type :=
  | Csv (df : DataFrame)
  | Unreadable (e : exn).

(** The exceptions of the cast of a column to [Int64]: [ValueError] on
    text that is no number, [TypeError] on a number that is no
    integer. *)
Inductive cast_error : Type :=
  | CastValueError (msg : string)
  | CastTypeError.

Definition exn_of_cast (c : cast_error) : exn :=
  match c with
  | CastValueError msg => ValueError msg
  | CastTypeError => TypeError
  end.

(** [pd.read_csv(path, dtype=...)] on an existing file. *)
Definition read_csv (f : file_contents) : result DataFrame :=
  match f with
  | Csv df => Ok df
  | Unreadable e => Raise e
  end.

Definition load_single_lightcurve (files : gmap string file_contents)
    (oid : string) : result (option DataFrame) :=
  match files !! oid with
  | None => Ok None
  | Some f =>
      match read_csv f with
      | Ok lightcurve => Ok (Some lightcurve)
      | Raise EmptyDataError => Ok None
      | Raise e => Raise e
      end
  end.

(** ** [perform_lightcurve_queries] *)

(** Modelled from the spec: [utils.chunk_list], whose source is not at hand,
    cuts the list into ordered chunks of [chunk_size] elements, the last
    one possibly shorter.  The size is positive wherever the module calls
    it (the default is 25). *)
Fixpoint chunk_list_aux {A} (fuel : nat) (l : list A) (chunk_size : nat)
    : list (list A) :=
  match fuel, l with
  | _, [] => []
  | O, _ => []
  | S fuel', _ => take chunk_size l :: chunk_list_aux fuel' (drop chunk_size l) chunk_size
  end.

Definition chunk_list {A} (l : list A) (chunk_size : nat) : list (list A) :=
  chunk_list_aux (length l) l chunk_size.

(** What the call logs. *)
Inductive log_entry : Type :=
  | TooManyFailed (n_failed : nat)
  | RemoteFailed (e : exn)
  | LengthMismatch (returned requested : nat)
  | BadLightcurveFile (oid : string)
  | NotInTargetLookup (oid : string)
  | FailedToAddCoords (oid : string).

Record query_state : Type := {
  success : list string;
  failed : list string;
  files : gmap string file_contents;
  requests : list (list string);
  query_log : list log_entry
}.

(** The broker during one call: [client.lightcurves] is asked for the
    chunk with index [ii] and either returns a list of lightcurve
    dictionaries or raises. *)
Variable lightcurves : nat -> list string -> result (list lc_data).

(** What [pd.read_csv(path, dtype={"candid": "Int64"})] makes of the file
    that [to_csv(path, index=False)] wrote from a table.  The text of the
    file does not keep the types of the cells (the strings of
    [candid_str] come back as integers), so the table read back is not
    the table written; and the cast of the [candid] column to [Int64]
    raises on a cell that is no integer.  The file has a header line at
    least, so that the exception is never [EmptyDataError]. *)
Variable read_back : DataFrame -> DataFrame + cast_error.

(** [lightcurve.to_csv(lightcurve_filepath, index=False)]: the file it
    leaves, described as every file is by what [pd.read_csv] makes of
    it. *)
Definition to_csv (lightcurve : DataFrame) : file_contents :=
  match read_back lightcurve with
  | inl df => Csv df
  | inr c => Unreadable (exn_of_cast c)
  end.

(** The body of [for lc_data in lc_data_chunk]. *)
Definition store_lightcurve (lc : lc_data) (st : query_state) : result query_state :=
  oid ← from_option Ok (Raise (KeyError "objectId")) (lc_objectId lc);
  lightcurve ← process_lasair_lightcurve lc;
  Ok {| success := success st ++ [oid];
        failed := failed st;
        files := <[oid := to_csv lightcurve]> (files st);
        requests := requests st;
        query_log := query_log st |}.

Fixpoint store_lightcurves (lcs : list lc_data) (st : query_state)
    : result query_state :=
  match lcs with
  | [] => Ok st
  | lc :: rest => st' ← store_lightcurve lc st; store_lightcurves rest st'
  end.

Definition log_query (e : log_entry) (st : query_state) : query_state :=
  {| success := success st; failed := failed st; files := files st;
     requests := requests st; query_log := query_log st ++ [e] |}.

Definition note_request (chunk : list string) (st : query_state) : query_state :=
  {| success := success st; failed := failed st; files := files st;
     requests := requests st ++ [chunk]; query_log := query_log st |}.

Definition extend_failed (chunk : list string) (st : query_state) : query_state :=
  {| success := success st; failed := failed st ++ chunk; files := files st;
     requests := requests st; query_log := query_log st |}.

(** The [for ii, objectId_chunk in enumerate(...)] loop.  Only the bulk
    request stands inside the [try]; what processing a returned item
    raises leaves the call.  Building the client object and writing the
    csv file are taken to succeed. *)
Fixpoint query_chunks (max_failed_queries : Z) (ii : nat)
    (chunks : list (list string)) (st : query_state) : result query_state :=
  match chunks with
  | [] => Ok st
  | objectId_chunk :: rest =>
      if (max_failed_queries <? Z.of_nat (length (failed st)))%Z
      then Ok (log_query (TooManyFailed (length (failed st))) st)
      else
        let st := note_request objectId_chunk st in
        match lightcurves ii objectId_chunk with
        | Raise e =>
            query_chunks max_failed_queries (S ii) rest
              (extend_failed objectId_chunk (log_query (RemoteFailed e) st))
        | Ok lc_data_chunk =>
            let st :=
              if negb (length lc_data_chunk =? length objectId_chunk)%nat
              then log_query
                     (LengthMismatch (length lc_data_chunk) (length objectId_chunk)) st
              else st in
            st' ← store_lightcurves lc_data_chunk st;
            query_chunks max_failed_queries (S ii) rest st'
        end
  end.

Definition initial_query_state (files0 : gmap string file_contents) : query_state :=
  {| success := []; failed := []; files := files0; requests := [];
     query_log := [] |}.

Definition perform_lightcurve_queries (client_token : option string)
    (max_failed_queries : Z) (files0 : gmap string file_contents)
    (objectId_list : list string) (chunk_size : nat) : result query_state :=
  match client_token with
  | None => Raise (ValueError "Must provied `client_token` for lightcurves")
  | Some _ =>
      query_chunks max_failed_queries 0 (chunk_list objectId_list chunk_size)
        (initial_query_state files0)
  end.

(** ** [load_target_lightcurves] *)

Record load_state : Type := {
  loaded : list string;
  skipped : list string;
  missing : list string;
  target_lookup : gmap string Target;
  load_log : list log_entry
}.

Definition add_loaded (oid : string) (t : Target) (st : load_state) : load_state :=
  {| loaded := loaded st ++ [oid]; skipped := skipped st; missing := missing st;
     target_lookup := <[oid := t]> (target_lookup st); load_log := load_log st |}.

Definition add_skipped (oid : string) (st : load_state) : load_state :=
  {| loaded := loaded st; skipped := skipped st ++ [oid]; missing := missing st;
     target_lookup := target_lookup st; load_log := load_log st |}.

Definition add_missing (oid : string) (st : load_state) : load_state :=
  {| loaded := loaded st; skipped := skipped st; missing := missing st ++ [oid];
     target_lookup := target_lookup st; load_log := load_log st |}.

Definition log_load (e : log_entry) (st : load_state) : load_state :=
  {| loaded := loaded st; skipped := skipped st; missing := missing st;
     target_lookup := target_lookup st; load_log := load_log st ++ [e] |}.

(** Lines 389-396: [None] is the [continue] of a skipped object, otherwise
    the target as it goes on, marked updated only when there was a
    lightcurve before. *)
Definition merge_gate (target : Target) (lc : DataFrame) : option Target :=
  match lightcurve (get_target_data "lasair" target) with
  | Some existing_lightcurve =>
      if (df_len lc <=? df_len existing_lightcurve)%nat
      then None
      else Some (set_updated true target)
  | None => Some target
  end.

(** Lines 398-404: the two column lookups stand before the [try]; what
    is inside the [try] is caught and logged. *)
Definition backfill_coordinates (oid : string) (target : Target)
    (lightcurve : DataFrame) : result (Target * list log_entry) :=
  match coord target with
  | Some _ => Ok (target, [])
  | None =>
      ra_col ← df_getitem lightcurve "ra";
      let ra_vals := dropna ra_col in
      dec_col ← df_getitem lightcurve "dec";
      let dec_vals := dropna dec_col in
      Ok (try_except
            (ra_avg ← np_average ra_vals;
             dec_avg ← np_average dec_vals;
             target' ← update_coordinates target ra_avg dec_avg;
             Ok (target', []))
            (fun _ => (target, [FailedToAddCoords oid])))
  end.

(** The body of [for objectId in objectId_list]. *)
Definition load_target_lightcurve (files0 : gmap string file_contents)
    (oid : string) (st : load_state) : result load_state :=
  lc ← load_single_lightcurve files0 oid;
  match lc with
  | None => Ok (add_missing oid st)
  | Some lightcurve =>
      match target_lookup st !! oid with
      | None => Ok (add_missing oid (log_load (NotInTargetLookup oid) st))
      | Some target =>
          match merge_gate target lightcurve with
          | None => Ok (add_skipped oid st)
          | Some target =>
              '(target, entries) ← backfill_coordinates oid target lightcurve;
              let lasair_data := get_target_data "lasair" target in
              let target :=
                set_target_data "lasair" (add_lightcurve lightcurve lasair_data) target in
              Ok (add_loaded oid target
                    {| loaded := loaded st; skipped := skipped st;
                       missing := missing st; target_lookup := target_lookup st;
                       load_log := load_log st ++ entries |})
          end
      end
  end.

Fixpoint load_loop (files0 : gmap string file_contents) (oids : list string)
    (st : load_state) : result load_state :=
  match oids with
  | [] => Ok st
  | oid :: rest =>
      st' ← load_target_lightcurve files0 oid st;
      load_loop files0 rest st'
  end.

Definition initial_load_state (targets : gmap string Target) : load_state :=
  {| loaded := []; skipped := []; missing := []; target_lookup := targets;
     load_log := [] |}.

(** [objectId_list=None] loads every key of the lookup.  A [gmap] does
    not remember insertion order, so in that case the order of the
    returned lists is the map's, not the dictionary's. *)
Definition load_target_lightcurves (files0 : gmap string file_contents)
    (targets : gmap string Target) (objectId_list : option (list string))
    : result load_state :=
  let objectId_list :=
    match objectId_list with
    | None => (map_to_list targets).*1
    | Some l => l
    end in
  load_loop files0 objectId_list (initial_load_state targets).

End Lasair.
(** ** Instances of the parameters, to run the model on examples *)

(** A reading back that is right on the tables of the examples: the
    digits of [candid_str] come back as the integer they spell, which is
    the [candid] of the row, and a [candid] that is no integer stops the
    cast to [Int64]. *)
Definition reread_row (r : gmap string value) : gmap string value :=
  match r !! "candid_str", r !! "candid" with
  | Some (VStr _), Some (VInt z) => <["candid_str" := VInt z]> r
  | _, _ => r
  end.

Definition integer_or_missing (v : value) : bool :=
  match v with
  | VInt _ | VNone => true
  | _ => false
  end.

Definition read_back_text (df : DataFrame) : DataFrame + cast_error :=
  if forallb (fun r => integer_or_missing (dict_get r "candid")) (df_rows df)
  then inl {| df_columns := df_columns df; df_rows := map reread_row (df_rows df) |}
  else inr CastTypeError.

(** A [SkyCoord] that accepts every pair of numbers and refuses NaN. *)
Definition sky_coord_numbers (r d : float) : result SkyCoord :=
  match r, d with
  | Some x, Some y => Ok {| sc_ra := x; sc_dec := y |}
  | _, _ => Raise (ValueError "nan")
  end.

(** A [str] that is right on the integers and strings the examples use. *)
Definition str_of_value (v : value) : string :=
  match v with
  | VInt z => pretty z
  | VStr s => s
  | VBool true => "True"
  | VBool false => "False"
  | VNone => "None"
  | VFloat _ => "float"
  end.

(** * Coordinates of a new target (C7) *)

(** A pair of field names qualifies when both fields are present and not
    [None]. *)
Definition qualifies (alert : gmap string value) (p : string * string) : bool :=
  is_not_None (dict_get alert p.1) && is_not_None (dict_get alert p.2).

(** The spec's reading: the first qualifying pair, and two nulls when
    there is none. *)
Definition coordinates_as_specified (alert : gmap string value) (r d : value) : Prop :=
  match List.find (qualifies alert) default_coordinate_guesses with
  | Some (racol, deccol) => r = dict_get alert racol ∧ d = dict_get alert deccol
  | None => r = VNone ∧ d = VNone
  end.

Definition alert_RA_only : gmap string value :=
  {[ "objectId" := VStr "ZTF18abcdefg"; "RA" := VFloat (10 # 1) ]}.

(** * Candidate identifiers of a processed lightcurve (C9) *)

(** The [candid] cells of a list of rows. *)
Definition candid_column (rows : list (gmap string value)) : list value :=
  map (fun r => dict_get r "candid") rows.

Definition has_tag (tag : string) (r : gmap string value) : Prop :=
  dict_get r "tag" = VStr tag.

#[export] Instance Q_eq_dec : EqDecision Q.
Proof. solve_decision. Defined.

#[export] Instance value_eq_dec : EqDecision value.
Proof. solve_decision. Defined.

#[export] Instance has_tag_dec tag r : Decision (has_tag tag r).
Proof. unfold has_tag. apply _. Defined.

(** The rows the lightcurve marks as detections. *)
Definition detections (df : DataFrame) : list (gmap string value) :=
  filter (has_tag "valid") (df_rows df).

(** The candidates that carry a candidate identifier. *)
Definition with_candid (candidates : list (gmap string value))
    : list (gmap string value) :=
  filter (fun row => truthy (dict_get row "candid") = true) candidates.

(** The candidate identifier of the row is an integer of the [int64]
    range, which pandas keeps as it is. *)
Definition int64_candid (r : gmap string value) : Prop :=
  ∃ z, dict_get r "candid" = VInt z
       ∧ (- 9223372036854775808 ≤ z < 9223372036854775808)%Z.

(** A broker answer with two non-detections. *)
Definition lc_two_non_detections : lc_data :=
  {| lc_objectId := Some "ZTF21abcdefg";
     lc_candidates := Some
       [ {[ "jd" := VFloat (4918001 # 2); "fid" := VInt 1 ]};
         {[ "jd" := VFloat (4918003 # 2); "fid" := VInt 2 ]} ] |}.

(** What [mark_detection] and [mark_non_detection] make of a row on which
    they do not raise. *)
Definition detection_row (py_str : value → string) (r : gmap string value)
    : gmap string value :=
  <["tag" := VStr "valid"]>
    (<["candid_str" := VStr (py_str (dict_get r "candid"))]> r).

Definition non_detection_row (r : gmap string value) : gmap string value :=
  <["tag" := VStr "upperlim"]>
    (<["candid_str" := VStr "-1"]> (<["candid" := VInt (-1)]> r)).

(** The columns that the later steps of the function leave alone. *)
Definition keeps_candid_and_tag (g : gmap string value → gmap string value) : Prop :=
  ∀ r, dict_get (g r) "candid" = dict_get r "candid"
       ∧ dict_get (g r) "tag" = dict_get r "tag".

(** A broker answer with two detections and a non-detection between
    them. *)
Definition lc_two_detections : lc_data :=
  {| lc_objectId := Some "ZTF21abcdefg";
     lc_candidates := Some
       [ {[ "jd" := VFloat (4918001 # 2); "candid" := VInt 101 ]};
         {[ "jd" := VFloat (4918003 # 2) ]};
         {[ "jd" := VFloat (4918005 # 2); "candid" := VInt 102 ]} ] |}.

(** ** Loading cached lightcurves: statements and examples *)

(** The spec's reading of [load]: a missing file and every file that
    [pd.read_csv] cannot read give the absent value. *)
Definition load_never_raises (files : gmap string file_contents) (oid : string) : Prop :=
  match files !! oid with
  | None | Some (Unreadable _) => load_single_lightcurve files oid = Ok None
  | Some (Csv df) => load_single_lightcurve files oid = Ok (Some df)
  end.

(** A cache directory whose one file has a row with more fields than the
    header, on which [pd.read_csv] raises [ParserError]. *)
Definition files_ragged : gmap string file_contents :=
  {[ "ZTF21abcdefg" := Unreadable ParserError ]}.

(** One row of photometry. *)
Definition photometry_row (jd : Q) (mag : Q) : gmap string value :=
  {[ "jd" := VFloat jd; "magpsf" := VFloat mag; "ra" := VFloat (10 # 1);
     "dec" := VFloat (20 # 1) ]}.

Definition photometry_columns : list string := ["jd"; "magpsf"; "ra"; "dec"].

(** An existing lightcurve of one row, and an incoming one of one row
    with another magnitude. *)
Definition lightcurve_existing : DataFrame :=
  {| df_columns := photometry_columns;
     df_rows := [photometry_row (4918001 # 2) (185 # 10)] |}.

Definition lightcurve_incoming : DataFrame :=
  {| df_columns := photometry_columns;
     df_rows := [photometry_row (4918001 # 2) (190 # 10)] |}.

(** An incoming lightcurve without rows. *)
Definition lightcurve_no_rows : DataFrame :=
  {| df_columns := photometry_columns; df_rows := [] |}.

(** A target that has coordinates and a lightcurve from Lasair. *)
Definition target_with_lightcurve : Target :=
  {| objectId := VStr "ZTF21abcdefg";
     ra := VFloat (10 # 1); dec := VFloat (20 # 1);
     coord := Some {| sc_ra := 10 # 1; sc_dec := 20 # 1 |};
     target_data := {[ "lasair" := {| lightcurve := Some lightcurve_existing |} ]};
     updated := false; send_updates := false; update_messages := [] |}.

(** A target that has coordinates and no data from Lasair yet. *)
Definition target_without_lightcurve : Target :=
  {| objectId := VStr "ZTF21abcdefg";
     ra := VFloat (10 # 1); dec := VFloat (20 # 1);
     coord := Some {| sc_ra := 10 # 1; sc_dec := 20 # 1 |};
     target_data := ∅;
     updated := false; send_updates := false; update_messages := [] |}.

(** A target created from an alert without coordinates. *)
Definition target_without_coordinates : Target :=
  {| objectId := VStr "ZTF21abcdefg";
     ra := VNone; dec := VNone; coord := None;
     target_data := ∅;
     updated := false; send_updates := false; update_messages := [] |}.

(** The broker's answer for an object without candidates, and the table
    [process_lasair_lightcurve] writes for it: the columns [objectId],
    [jd] and [mjd], and no row. *)
Definition lc_no_candidates : lc_data :=
  {| lc_objectId := Some "ZTF21abcdefg"; lc_candidates := Some [] |}.

Definition lightcurve_no_candidates : DataFrame :=
  {| df_columns := ["objectId"; "jd"; "mjd"]; df_rows := [] |}.

(** The backfill step does not raise on this pair of target and
    lightcurve: the target has coordinates, or the table has both
    coordinate columns. *)
Definition backfill_defined (target : Target) (lc : DataFrame) : Prop :=
  is_Some (coord target) ∨ ("ra" ∈ df_columns lc ∧ "dec" ∈ df_columns lc).

(** The lightcurve a target holds from Lasair. *)
Definition lasair_lightcurve (t : Target) : option DataFrame :=
  lightcurve (get_target_data "lasair" t).

(** The spec's reading of an accepted load: after loading the one
    object, its target holds the incoming lightcurve and is marked
    updated. *)
Definition accepted_and_updated (sky_coord : float → float → result SkyCoord)
    (files : gmap string file_contents) (targets : gmap string Target)
    (oid : string) (incoming : DataFrame) : Prop :=
  ∃ st t, load_target_lightcurves sky_coord files targets (Some [oid]) = Ok st
          ∧ target_lookup st !! oid = Some t
          ∧ lasair_lightcurve t = Some incoming
          ∧ updated t = true.

(** An incoming lightcurve with one row more than the existing one. *)
Definition lightcurve_longer : DataFrame :=
  {| df_columns := photometry_columns;
     df_rows := [photometry_row (4918001 # 2) (185 # 10);
                 photometry_row (4918003 # 2) (190 # 10)] |}.

(** ** Bulk queries: statements and examples *)


(** The broker answers a chunk with lightcurves of that chunk's objects
    only. *)
Definition answers_within (lightcurves : nat → list string → result (list lc_data))
    : Prop :=
  ∀ ii chunk lcs lc oid,
    lightcurves ii chunk = Ok lcs → lc ∈ lcs → lc_objectId lc = Some oid →
    oid ∈ chunk.

(** Every item the broker returns goes through [process_lasair_lightcurve]
    without an exception. *)
Definition answers_processable (py_str : value → string)
    (lightcurves : nat → list string → result (list lc_data)) : Prop :=
  ∀ ii chunk lcs lc,
    lightcurves ii chunk = Ok lcs → lc ∈ lcs →
    is_Ok (process_lasair_lightcurve py_str lc) = true.

(** The spec's reading of the circuit breaker, for a call whose chunks
    are [attempted ++ unattempted]: only chunks of [attempted] are
    requested, and no id of an unattempted chunk is in a result list. *)
Definition unattempted_as_specified (attempted unattempted : list (list string))
    (st : query_state) : Prop :=
  requests st `prefix_of` attempted
  ∧ (∀ x, x ∈ concat unattempted → ¬ (x ∈ success st) ∧ ¬ (x ∈ failed st)).

(** A broker that answers every object of the chunk with an empty
    lightcurve. *)
Definition answer_chunk (chunk : list string) : list lc_data :=
  map (fun oid => {| lc_objectId := Some oid; lc_candidates := Some [] |}) chunk.

(** A broker whose request number [n] fails and whose other requests are
    answered. *)
Definition lightcurves_fail_at (n : nat) (ii : nat) (chunk : list string)
    : result (list lc_data) :=
  if (ii =? n)%nat then Raise (LasairError "timeout") else Ok (answer_chunk chunk).

(** A broker that is down. *)
Definition lightcurves_down (ii : nat) (chunk : list string)
    : result (list lc_data) :=
  Raise (LasairError "timeout").

Definition five_ids : list string :=
  ["ZTF21aaaaaaa"; "ZTF21aaaaaab"; "ZTF21aaaaaac"; "ZTF21aaaaaad"; "ZTF21aaaaaae"].

Definition seven_ids : list string :=
  ["ZTF21aaaaaaa"; "ZTF21aaaaaab"; "ZTF21aaaaaac"; "ZTF21aaaaaad"; "ZTF21aaaaaae";
   "ZTF21aaaaaaf"; "ZTF21aaaaaag"].

(** The same object named by two alerts of one cycle. *)
Definition repeated_ids : list string := ["ZTF21aaaaaaa"; "ZTF21aaaaaaa"].

(** ** Alerts: examples *)

(** An alert with a candidate identifier, and one that carries an
    [objectId] only. *)
Definition alert_with_candid : gmap string value :=
  {[ "objectId" := VStr "ZTF21aaaaaaa"; "candid" := VInt 101;
     "mjdmax" := VFloat (118001 # 2) ]}.

Definition alert_objectId_only : gmap string value :=
  {[ "objectId" := VStr "ZTF21aaaaaab" ]}.

(** A [Time] that reads numbers only, and whose [.isot] refuses a date
    too far off (here, a number above 10^9). *)
Definition time_isot_numbers (format : option string) (v : value) : time_outcome :=
  match as_number v with
  | Some q =>
      if Qle_bool q (1000000000 # 1)
      then Isot "2021-01-01T00:00:00.000"
      else IsotRaises ErfaError
  | None => TimeRaises (ValueError "Input values did not match any format")
  end.

(** A clock that passes midnight after its third reading. *)
Definition clock_at_midnight (k : nat) : string :=
  if (k <? 3)%nat then "2021-01-02T00:00:00.000" else "2021-01-03T00:00:00.000".

(** The date of the alert converts: [.isot] does not raise on it. *)
Definition in_range (time_isot : option string → value → time_outcome)
    (alert : gmap string value) : Prop :=
  ∀ e, alert_time time_isot alert ≠ Some (IsotRaises e).

(** The alert has both keys that [process_alerts] reads. *)
Definition has_ids (alert : gmap string value) : Prop :=
  is_Some (alert !! "objectId") ∧ is_Some (alert !! "candid").

(** * The other functions of the module *)

(** ** [target_from_lasair_lightcurve] *)

(** [objectId_options[0]] on an empty array raises [IndexError], an
    exception that the functions above never meet. *)
Inductive raised : Type :=
  | Exn (e : exn)
  | IndexError.

Inductive outcome (A : Type) : Type :=
  | Returned (a : A)
  | Raised (r : raised).
Arguments Returned {A} a.
Arguments Raised {A} r.

#[export] Instance outcome_bind : MBind outcome := fun A B k o =>
  match o with
  | Returned a => k a
  | Raised r => Raised r
  end.

#[export] Instance outcome_ret : MRet outcome := fun A a => Returned a.

Definition of_result {A} (r : result A) : outcome A :=
  match r with
  | Ok a => Returned a
  | Raise e => Raised (Exn e)
  end.

(** [series.unique()]: the distinct cells in the order of their first
    appearance. *)
Fixpoint unique (s : list value) : list value :=
  match s with
  | [] => []
  | v :: s' => v :: filter (fun w => w ≠ v) (unique s')
  end.

(** The argument is a table already, or the dictionary of the broker. *)
Inductive lightcurve_input : Type :=
  | Frame (df : DataFrame)
  | Dict (lc : lc_data).

(** The average of the non-null cells of a column when the table has the
    column, Python's [None] when it has not. *)
Definition average_if_present (df : DataFrame) (col : string)
    : result (option float) :=
  if bool_decide (col ∈ df_columns df)
  then
    cells ← df_getitem df col;
    avg ← np_average (dropna cells);
    Ok (Some avg)
  else Ok None.

Record lightcurve_target : Type := {
  lt_target : Target;
  lt_several_options : option (list value)
}.

Definition target_from_lasair_lightcurve
    (sky_coord : float → float → result SkyCoord) (py_str : value → string)
    (input : lightcurve_input) : outcome lightcurve_target :=
  lightcurve ← match input with
               | Frame df => Returned df
               | Dict lc => of_result (process_lasair_lightcurve py_str lc)
               end;
  if negb (bool_decide ("objectId" ∈ df_columns lightcurve))
  then Raised (Exn MissingObjectIdError)
  else
    ids ← of_result (df_getitem lightcurve "objectId");
    let objectId_options := unique (dropna ids) in
    let several :=
      if (1 <? length objectId_options)%nat then Some objectId_options else None in
    match objectId_options with
    | [] => Raised IndexError
    | oid :: _ =>
        ra_avg ← of_result (average_if_present lightcurve "ra");
        dec_avg ← of_result (average_if_present lightcurve "dec");
        match ra_avg, dec_avg with
        | Some r, Some d =>
            let lasair_data := add_lightcurve lightcurve empty_target_data in
            let target := Target_init sky_coord oid (float_value r) (float_value d) in
            Returned {| lt_target := set_target_data "lasair" lasair_data target;
                        lt_several_options := several |}
        | _, _ => Raised (Exn MissingCoordinatesError)
        end
    end.

(** ** [listen_for_alerts] *)

(** What [consumer.poll] hands back when it is not [None]: a message
    whose [error()] is set, or a message with a payload.  The payload is
    described by what [json.loads] and the assignment of the topic make
    of it: the decoded dictionary, or the exception ([ValueError] for
    text that is not JSON, [TypeError] for JSON that is not an object). *)
Inductive message : Type :=
  | MsgError (err : string)
  | MsgValue (data : result (gmap string value)).

(** The kafka parameters as [get_kafka_parameters] leaves them. *)
Record kafka_config : Type := {
  host : string;
  group_id : string;
  topics : list string;
  n_alerts : nat;
  timeout : Q
}.

(** The [for ii in range(n_alerts)] loop on the consumer of one topic;
    [poll k] is the answer to the poll number [k] of that consumer. *)
Fixpoint poll_topic (poll : nat → option message) (topic : string)
    (n k : nat) (new_alerts : list (gmap string value))
    : result (list (gmap string value)) :=
  match n with
  | O => Ok new_alerts
  | S n' =>
      match poll k with
      | None => Ok new_alerts
      | Some (MsgError _) => poll_topic poll topic n' (S k) new_alerts
      | Some (MsgValue (Raise e)) => Raise e
      | Some (MsgValue (Ok data)) =>
          poll_topic poll topic n' (S k)
            (new_alerts ++ [<["topic" := VStr topic]> data])
      end
  end.

(** The [for topic in self.kafka_config["topics"]] loop. *)
Fixpoint poll_topics (poll : string → nat → option message) (n : nat)
    (topic_list : list string) (new_alerts : list (gmap string value))
    : result (list (gmap string value)) :=
  match topic_list with
  | [] => Ok new_alerts
  | topic :: rest =>
      new_alerts' ← poll_topic (poll topic) topic n 0 new_alerts;
      poll_topics poll n rest new_alerts'
  end.

Definition listen_for_alerts (lasair_imported : bool)
    (config : option kafka_config) (poll : string → nat → option message)
    : result (list (gmap string value)) :=
  if negb lasair_imported then Ok []
  else
    match config with
    | None => Ok []
    | Some kc => poll_topics poll (n_alerts kc) (topics kc) []
    end.

(** ** [new_targets_from_alerts] *)

(** [self.target_lookup.get(objectId)]: the lookup is a [Dict[str, Target]],
    so only an identifier that is a string can be one of its keys. *)
Definition lookup_target (targets : gmap string Target) (oid : value)
    : option Target :=
  match oid with
  | VStr s => targets !! s
  | _ => None
  end.

(** Modelled from the spec: [add_target] of the base query manager,
    whose source is not at hand, registers the new target under its
    identifier.  An identifier that is not a string is outside the type
    of the lookup; the model leaves the lookup as it is. *)
Definition add_target (t : Target) (targets : gmap string Target)
    : gmap string Target :=
  match objectId t with
  | VStr s => <[s := t]> targets
  | _ => targets
  end.

Record new_targets : Type := {
  added : list value;
  existing : list value
}.

(** The loop of [new_targets_from_alerts]: the lookup as the call leaves
    it, and the two lists or the exception.  The log lines are left out. *)
Fixpoint new_targets_loop (sky_coord : float → float → result SkyCoord)
    (alerts : list (gmap string value)) (acc : new_targets)
    (targets : gmap string Target)
    : gmap string Target * result new_targets :=
  match alerts with
  | [] => (targets, Ok acc)
  | alert :: rest =>
      let oid := dict_get alert "objectId" in
      match lookup_target targets oid with
      | None =>
          match target_from_lasair_alert sky_coord alert with
          | Raise e => (targets, Raise e)
          | Ok out =>
              new_targets_loop sky_coord rest
                {| added := added acc ++ [oid]; existing := existing acc |}
                (add_target (new_target out) targets)
          end
      | Some _ =>
          new_targets_loop sky_coord rest
            {| added := added acc; existing := existing acc ++ [oid] |}
            targets
      end
  end.

Definition new_targets_from_alerts (sky_coord : float → float → result SkyCoord)
    (alerts : list (gmap string value)) (targets : gmap string Target)
    : gmap string Target * result new_targets :=
  new_targets_loop sky_coord alerts {| added := []; existing := [] |} targets.

(** ** [apply_messenger_updates] *)

Definition set_send_updates (b : bool) (t : Target) : Target :=
  {| objectId := objectId t; ra := ra t; dec := dec t; coord := coord t;
     target_data := target_data t;
     updated := updated t; send_updates := b;
     update_messages := update_messages t |}.

(** [target.update_messages.append(text)] *)
Definition append_message (text : string) (t : Target) : Target :=
  {| objectId := objectId t; ra := ra t; dec := dec t; coord := coord t;
     target_data := target_data t;
     updated := updated t; send_updates := send_updates t;
     update_messages := update_messages t ++ [text] |}.

Definition newline : string := String (Ascii.ascii_of_nat 10) EmptyString.

(** The f-string of the message; a value is formatted as [str] does. *)
Definition alert_text (py_str : value → string) (topic_str timestamp : value)
    : string :=
  "LASAIR alert from " +:+ py_str topic_str +:+ newline +:+
  "     broadcast at jd=" +:+ py_str timestamp +:+ newline.

(** The body of the loop.  The two flags are set before the topic and
    the timestamp are read. *)
Definition messenger_update (py_str : value → string)
    (alert : gmap string value) (targets : gmap string Target)
    : gmap string Target * result unit :=
  match dict_getitem alert "objectId" with
  | Raise e => (targets, Raise e)
  | Ok (VStr s) =>
      match targets !! s with
      | None => (targets, Ok ())
      | Some target =>
          let target := set_send_updates true (set_updated true target) in
          let targets := <[s := target]> targets in
          match dict_getitem alert "topic" with
          | Raise e => (targets, Raise e)
          | Ok topic_str =>
              match dict_getitem alert "alert_timestamp" with
              | Raise e => (targets, Raise e)
              | Ok timestamp =>
                  (<[s := append_message (alert_text py_str topic_str timestamp)
                            target]> targets,
                   Ok ())
              end
          end
      end
  | Ok _ => (targets, Ok ())
  end.

Fixpoint apply_messenger_updates (py_str : value → string)
    (alerts : list (gmap string value)) (targets : gmap string Target)
    : gmap string Target * result unit :=
  match alerts with
  | [] => (targets, Ok ())
  | alert :: rest =>
      match messenger_update py_str alert targets with
      | (targets', Ok _) => apply_messenger_updates py_str rest targets'
      | (targets', Raise e) => (targets', Raise e)
      end
  end.

(** ** [get_detections] of [aas2rto/modeling/sncosmo.py] *)

(** [lc[mask]]: the rows at which the mask holds, the columns kept. *)
Definition df_select (keep : gmap string value → bool) (lc : DataFrame) : DataFrame :=
  {| df_columns := df_columns lc;
     df_rows := filter (fun r => keep r = true) (df_rows lc) |}.

Definition tag_is (tag : string) (r : gmap string value) : bool :=
  match dict_get r "tag" with
  | VStr t => String.eqb t tag
  | _ => false
  end.

(** The branch without [use_badqual] compares with the literal ["valid"],
    whatever [valid_tag] is. *)
Definition get_detections (lc : DataFrame) (use_badqual : bool)
    (valid_tag badqual_tag : string) : DataFrame :=
  if bool_decide ("tag" ∈ df_columns lc)
  then
    if use_badqual
    then df_select (fun r => tag_is valid_tag r || tag_is badqual_tag r) lc
    else df_select (tag_is "valid") lc
  else lc.

(** ** Reading examples and statements *)

(** The file that a name of the alert store holds: the latest write. *)
Fixpoint read_alert_file (store : alert_store) (name : value * value)
    : option (gmap string value) :=
  match store with
  | [] => None
  | (name', alert) :: rest =>
      if decide (name' = name) then Some alert else read_alert_file rest name
  end.

(** The candidates without a candidate identifier. *)
Definition without_candid (candidates : list (gmap string value))
    : list (gmap string value) :=
  filter (fun r => truthy (dict_get r "candid") = false) candidates.

(** What the steps after the concatenation make of a row: the column of
    the object identifier and the Modified Julian Date. *)
Definition finish_row (oid : string) (r : gmap string value) : gmap string value :=
  <["mjd" := jd_to_mjd (dict_get r "jd")]> (<["objectId" := VStr oid]> r).

(** The rows of the processed lightcurve before they are sorted. *)
Definition marked_rows (py_str : value → string) (oid : string)
    (candidates : list (gmap string value)) : list (gmap string value) :=
  map (finish_row oid)
    (map (detection_row py_str) (with_candid candidates)
     ++ map non_detection_row (without_candid candidates)).

(** An alert as [process_alerts] hands it back. *)
Definition enriched (alert alert' : gmap string value) : Prop :=
  ∃ timestamp, alert' = <["alert_timestamp" := VStr timestamp]> alert.

(** The timestamp of the alert is read from the alert, not from the
    clock: one of the four keys is there and its date converts. *)
Definition dated (time_isot : option string → value → time_outcome)
    (alert : gmap string value) : Prop :=
  ∃ s, alert_time time_isot alert = Some (Isot s).

(** Two alerts that differ at most under [alert_timestamp]. *)
Definition same_but_timestamp (a b : gmap string value) : Prop :=
  delete "alert_timestamp" a = delete "alert_timestamp" b.

(** The write of one saved alert. *)
Definition alert_file_entry (alert' : gmap string value)
    : (value * value) * gmap string value :=
  (get_alert_file (dict_get alert' "objectId") (dict_get alert' "candid"), alert').

(** A broker answer whose candidates carry no date. *)
Definition lc_without_jd : lc_data :=
  {| lc_objectId := Some "ZTF21abcdefg";
     lc_candidates := Some [ {[ "candid" := VInt 101; "magpsf" := VFloat (185 # 10) ]} ] |}.

(** A broker answer in which one candidate has a date and the other has
    none. *)
Definition lc_one_without_jd : lc_data :=
  {| lc_objectId := Some "ZTF21abcdefg";
     lc_candidates :=
       Some [ {[ "candid" := VInt 101; "jd" := VFloat (4918001 # 2) ]};
              {[ "candid" := VInt 102; "magpsf" := VFloat (185 # 10) ]} ] |}.

(** The identifier of an alert as [alert.get("objectId")] reads it. *)
Definition alert_objectId (alert : gmap string value) : value :=
  dict_get alert "objectId".

(** The identifier of the alert is a string, as the type of the lookup
    asks. *)
Definition has_string_id (alert : gmap string value) : Prop :=
  ∃ s, alert_objectId alert = VStr s.

(** The alert names an object that the lookup has, so that no target is
    built for it. *)
Definition known (targets : gmap string Target) (alert : gmap string value)
    : Prop :=
  is_Some (lookup_target targets (alert_objectId alert)).

(** Two alerts of one object and an alert of another. *)
Definition alerts_of_two_objects : list (gmap string value) :=
  [ {[ "objectId" := VStr "ZTF21aaaaaaa"; "ramean" := VFloat (10 # 1);
       "decmean" := VFloat (20 # 1); "topic" := VStr "lasair_fast" ]};
    {[ "objectId" := VStr "ZTF21aaaaaab"; "topic" := VStr "lasair_fast" ]};
    {[ "objectId" := VStr "ZTF21aaaaaaa"; "ramean" := VFloat (10 # 1);
       "decmean" := VFloat (20 # 1); "topic" := VStr "lasair_slow" ]} ].

(** ** Messenger updates: statements *)

(** The alert has the three keys that [apply_messenger_updates] reads. *)
Definition has_message_keys (alert : gmap string value) : Prop :=
  is_Some (alert !! "objectId") ∧ is_Some (alert !! "topic")
  ∧ is_Some (alert !! "alert_timestamp").

(** The alert names the object [s]. *)
Definition names (s : string) (alert : gmap string value) : Prop :=
  alert_objectId alert = VStr s.

#[export] Instance names_dec s alert : Decision (names s alert).
Proof. unfold names. apply _. Defined.

(** The text that an alert adds to the messages of its target. *)
Definition message_of (py_str : value → string) (alert : gmap string value)
    : string :=
  alert_text py_str (dict_get alert "topic") (dict_get alert "alert_timestamp").

(** A target after the alerts [named] have been applied to it: as it was
    when there is none, and otherwise flagged, with one message per
    alert after its old messages. *)
Definition notified (py_str : value → string)
    (named : list (gmap string value)) (t : Target) : Target :=
  match named with
  | [] => t
  | _ =>
      {| objectId := objectId t; ra := ra t; dec := dec t; coord := coord t;
         target_data := target_data t;
         updated := true; send_updates := true;
         update_messages := update_messages t ++ map (message_of py_str) named |}
  end.

(** What a run of the updates may do to a target: set the two flags and
    add messages after the old ones. *)
Definition only_notified (t t' : Target) : Prop :=
  objectId t' = objectId t ∧ ra t' = ra t ∧ dec t' = dec t ∧ coord t' = coord t
  ∧ target_data t' = target_data t
  ∧ update_messages t `prefix_of` update_messages t'
  ∧ (updated t = true → updated t' = true)
  ∧ (send_updates t = true → send_updates t' = true).

(** The two targets of one name before and after a call. *)
Definition same_targets_notified (before after : option Target) : Prop :=
  match before, after with
  | Some t, Some t' => only_notified t t'
  | None, None => True
  | _, _ => False
  end.

(** The three alerts as [process_alerts] hands them back. *)
Definition alerts_with_timestamps : list (gmap string value) :=
  map (fun a => <["alert_timestamp" := VStr "2021-01-01T00:00:00.000"]> a)
    alerts_of_two_objects.

(** An alert of a known object that has lost its topic. *)
Definition alert_without_topic : gmap string value :=
  {[ "objectId" := VStr "ZTF21aaaaaaa";
     "alert_timestamp" := VStr "2021-01-01T00:00:00.000" ]}.

(** ** Listening: statements and examples *)

(** Two consumers give the same answers as long as the polls are within
    the budget and no earlier poll came back empty. *)
Definition agree_until_none (n : nat) (poll poll' : nat → option message) : Prop :=
  ∀ j, (j < n)%nat → (∀ i, (i < j)%nat → poll i ≠ None) → poll' j = poll j.

(** The alert carries the topic it was polled from. *)
Definition tagged_with (topic_list : list string) (alert : gmap string value) : Prop :=
  ∃ topic, topic ∈ topic_list ∧ alert !! "topic" = Some (VStr topic).

(** The alerts of one topic of a call: at most [n] of them, each tagged
    with the topic. *)
Definition polled_from (n : nat) (topic : string)
    (block : list (gmap string value)) : Prop :=
  (length block ≤ n)%nat
  ∧ Forall (fun alert => alert !! "topic" = Some (VStr topic)) block.

Definition kafka_two_topics : kafka_config :=
  {| host := "kafka.lsst.ac.uk:9092"; group_id := "aas2rto";
     topics := ["lasair_fast"; "lasair_slow"]; n_alerts := 5; timeout := 20 # 1 |}.

(** A stream with a message in error, an alert, and then nothing on the
    first topic; nothing at all on the other. *)
Definition poll_short (topic : string) (k : nat) : option message :=
  if String.eqb topic "lasair_fast"
  then match k with
       | 0%nat => Some (MsgError "transport")
       | 1%nat => Some (MsgValue (Ok {[ "objectId" := VStr "ZTF21aaaaaaa";
                                         "candid" := VInt 101 ]}))
       | _ => None
       end
  else None.

(** The same stream with a message that arrives after the empty poll. *)
Definition poll_late (topic : string) (k : nat) : option message :=
  match k with
  | 3%nat => Some (MsgValue (Ok {[ "objectId" := VStr "ZTF21aaaaaab" ]}))
  | _ => poll_short topic k
  end.

(** ** Targets from lightcurves: statements and examples *)

(** The non-null identifiers of a table, in the order of the rows. *)
Definition objectId_cells (df : DataFrame) : list value :=
  dropna (map (fun r => dict_get r "objectId") (df_rows df)).

(** The non-null cells of a column of a table. *)
Definition column_cells (df : DataFrame) (col : string) : list value :=
  dropna (map (fun r => dict_get r col) (df_rows df)).

(** A lightcurve table of two rows with identifiers and coordinates. *)
Definition lightcurve_with_ids : DataFrame :=
  {| df_columns := ["objectId"; "jd"; "ra"; "dec"];
     df_rows :=
       [ {[ "objectId" := VStr "ZTF21abcdefg"; "jd" := VFloat (4918001 # 2);
            "ra" := VFloat (10 # 1); "dec" := VFloat (19 # 1) ]};
         {[ "objectId" := VStr "ZTF21abcdefg"; "jd" := VFloat (4918003 # 2);
            "ra" := VFloat (12 # 1); "dec" := VFloat (21 # 1) ]} ] |}.

(** The same table without the declination. *)
Definition lightcurve_without_dec : DataFrame :=
  {| df_columns := ["objectId"; "jd"; "ra"];
     df_rows := df_rows lightcurve_with_ids |}.

(** The table of a broker's answer before the dates are looked at: the
    marked candidates with the column of the identifier. *)
Definition identified_rows (py_str : value → string) (oid : string)
    (candidates : list (gmap string value)) : DataFrame :=
  df_set_scalar "objectId" (VStr oid)
    (df_concat
       (frame_of_rows (map (detection_row py_str) (with_candid candidates)))
       (frame_of_rows (map non_detection_row (without_candid candidates)))).

(** A broker answer with two candidates that carry coordinates. *)
Definition lc_with_coordinates : lc_data :=
  {| lc_objectId := Some "ZTF21abcdefg";
     lc_candidates :=
       Some [ {[ "candid" := VInt 101; "jd" := VFloat (4918003 # 2);
                 "ra" := VFloat (10 # 1); "dec" := VFloat (19 # 1) ]};
              {[ "jd" := VFloat (4918001 # 2);
                 "ra" := VFloat (12 # 1); "dec" := VFloat (21 # 1) ]} ] |}.

(** ** Loading the cached lightcurves: statements and examples *)

(** The identifiers that a call of [load_target_lightcurves] goes
    through. *)
Definition ids_to_load (targets : gmap string Target)
    (objectId_list : option (list string)) : list string :=
  match objectId_list with
  | None => (map_to_list targets).*1
  | Some l => l
  end.

(** What a load makes of the target [t] of an object whose file holds
    the table [df]: the target holds the table; it is marked updated
    when it held a lightcurve before, which then was shorter; the
    identifier, the messenger's fields and the data of the other brokers
    stay; so do coordinates that were there. *)
Definition loaded_from (t : Target) (df : DataFrame) (t' : Target) : Prop :=
  lasair_lightcurve t' = Some df
  ∧ match lasair_lightcurve t with
    | Some existing => (df_len existing < df_len df)%nat ∧ updated t' = true
    | None => updated t' = updated t
    end
  ∧ objectId t' = objectId t
  ∧ send_updates t' = send_updates t
  ∧ update_messages t' = update_messages t
  ∧ (∀ name, name ≠ "lasair" → target_data t' !! name = target_data t !! name)
  ∧ (is_Some (coord t) → coord t' = coord t ∧ ra t' = ra t ∧ dec t' = dec t).

(** An object that was left as it is: its target holds a lightcurve at
    least as long as the table of its file. *)
Definition skipped_for (files0 : gmap string file_contents) (st : load_state)
    (oid : string) : Prop :=
  ∃ t' existing df,
    target_lookup st !! oid = Some t'
    ∧ lasair_lightcurve t' = Some existing
    ∧ load_single_lightcurve files0 oid = Ok (Some df)
    ∧ (df_len df ≤ df_len existing)%nat.

(** An object whose target was given the table of its file. *)
Definition loaded_for (files0 : gmap string file_contents)
    (targets : gmap string Target) (st : load_state) (oid : string) : Prop :=
  ∃ t t' df,
    targets !! oid = Some t
    ∧ target_lookup st !! oid = Some t'
    ∧ load_single_lightcurve files0 oid = Ok (Some df)
    ∧ loaded_from t df t'.

(** An object without a lightcurve to load: no file that reads as a
    table, or no target. *)
Definition missing_for (files0 : gmap string file_contents)
    (targets : gmap string Target) (oid : string) : Prop :=
  load_single_lightcurve files0 oid = Ok None ∨ targets !! oid = None.

(** What holds of the lists and of the lookup after every turn of the
    loop. *)
Definition load_invariant (files0 : gmap string file_contents)
    (targets : gmap string Target) (st : load_state) : Prop :=
  NoDup (loaded st)
  ∧ (∀ oid, oid ∉ loaded st → target_lookup st !! oid = targets !! oid)
  ∧ (∀ oid, oid ∈ loaded st → loaded_for files0 targets st oid)
  ∧ (∀ oid, oid ∈ skipped st → skipped_for files0 st oid)
  ∧ (∀ oid, oid ∈ missing st → missing_for files0 targets oid).

(** A cache with the longer lightcurve of one object and an empty file
    of another. *)
Definition files_of_two_objects : gmap string file_contents :=
  {[ "ZTF21abcdefg" := Csv lightcurve_longer;
     "ZTF21aaaaaaa" := Unreadable EmptyDataError ]}.

(** The lookup with the one target that holds a lightcurve. *)
Definition targets_of_one_object : gmap string Target :=
  {[ "ZTF21abcdefg" := target_with_lightcurve ]}.

(** A list of identifiers that names the first object twice. *)
Definition ids_with_repetition : list string :=
  ["ZTF21abcdefg"; "ZTF21aaaaaaa"; "ZTF21abcdefg"].

(** ** The files of the bulk queries: statements *)

(** An item that the broker returned for some request. *)
Definition answered (lightcurves : nat → list string → result (list lc_data))
    (lc : lc_data) : Prop :=
  ∃ ii chunk lcs, lightcurves ii chunk = Ok lcs ∧ lc ∈ lcs.

(** The file of the object is the one that [to_csv] wrote from the
    processed lightcurve of an item that the broker returned under the
    object's identifier. *)
Definition written_for (py_str : value → string)
    (lightcurves : nat → list string → result (list lc_data))
    (read_back : DataFrame → DataFrame + cast_error)
    (st : query_state) (oid : string) : Prop :=
  ∃ lc df,
    answered lightcurves lc
    ∧ lc_objectId lc = Some oid
    ∧ process_lasair_lightcurve py_str lc = Ok df
    ∧ files st !! oid = Some (to_csv read_back df).

(** The files agree with the list of the successful queries. *)
Definition cache_in_sync (py_str : value → string)
    (lightcurves : nat → list string → result (list lc_data))
    (read_back : DataFrame → DataFrame + cast_error)
    (files0 : gmap string file_contents) (st : query_state) : Prop :=
  (∀ oid, oid ∈ success st → written_for py_str lightcurves read_back st oid)
  ∧ (∀ oid, oid ∉ success st → files st !! oid = files0 !! oid).

(** ** Detections of a processed lightcurve: statements *)

(** A row that stands for a detection: tagged valid, with a candidate
    identifier. *)
Definition detection (r : gmap string value) : Prop :=
  has_tag "valid" r ∧ truthy (dict_get r "candid") = true.

(** * Proofs: coordinates of a new target *)

Lemma guess_coordinates_find alert gs r0 d0 :
  guess_coordinates alert gs r0 d0 =
  match List.find (qualifies alert) gs with
  | Some (racol, deccol) => (dict_get alert racol, dict_get alert deccol)
  | None =>
      match last gs with
      | Some (racol, deccol) => (dict_get alert racol, dict_get alert deccol)
      | None => (r0, d0)
      end
  end.
Proof.
  revert r0 d0. induction gs as [|[racol deccol] gs IH]; intros r0 d0; [done|].
  cbn [guess_coordinates List.find]. unfold qualifies at 1. cbn [fst snd].
  destruct (is_not_None (dict_get alert racol) && is_not_None (dict_get alert deccol));
    [done|].
  rewrite IH. destruct (List.find (qualifies alert) gs) as [[? ?]|]; [done|].
  destruct gs as [|p gs]; [done|].
  change (last ((racol, deccol) :: p :: gs)) with (last (p :: gs)).
  destruct (last (p :: gs)) as [[? ?]|] eqn:Hl; [done|].
  by apply last_None in Hl.
Qed.

(** C7, counterexample: an alert that has [RA] but no [Dec] (and neither
    of the other pairs) gives a target with [ra = 10] and [dec = None],
    one coordinate set and the other null. *)
Lemma target_from_lasair_alert_mixture :
  (∃ out, target_from_lasair_alert sky_coord_numbers alert_RA_only = Ok out
          ∧ ra (new_target out) = VFloat (10 # 1)
          ∧ dec (new_target out) = VNone)
  ∧ ¬ (∀ out, target_from_lasair_alert sky_coord_numbers alert_RA_only = Ok out →
         coordinates_as_specified alert_RA_only
           (ra (new_target out)) (dec (new_target out))).
Proof.
  assert (H : ∃ out, target_from_lasair_alert sky_coord_numbers alert_RA_only = Ok out
          ∧ ra (new_target out) = VFloat (10 # 1)
          ∧ dec (new_target out) = VNone).
  { eexists. split; [vm_compute; reflexivity|]. split; reflexivity. }
  split; [exact H|].
  destruct H as (out & Hout & Hra & Hdec). intros Hall.
  specialize (Hall out Hout). rewrite Hra in Hall.
  vm_compute in Hall. destruct Hall as [Hbad _]. discriminate Hbad.
Qed.

(** C7, as the code has it: for an alert with an [objectId], the target
    gets the values of the first pair, in the order (ramean, decmean),
    (ra, dec), (RA, Dec), whose two fields are both present and not null.
    When no pair qualifies it gets whatever the alert holds under [RA]
    and [Dec], at least one of which is null, and a warning is logged. *)
Theorem target_from_lasair_alert_coordinates sky_coord (alert : gmap string value) :
  dict_get alert "objectId" ≠ VNone →
  ∃ out, target_from_lasair_alert sky_coord alert = Ok out ∧
    match List.find (qualifies alert) default_coordinate_guesses with
    | Some (racol, deccol) =>
        ra (new_target out) = dict_get alert racol ∧
        dec (new_target out) = dict_get alert deccol ∧
        ra (new_target out) ≠ VNone ∧ dec (new_target out) ≠ VNone ∧
        warnings out = []
    | None =>
        ra (new_target out) = dict_get alert "RA" ∧
        dec (new_target out) = dict_get alert "Dec" ∧
        (ra (new_target out) = VNone ∨ dec (new_target out) = VNone) ∧
        warnings out ≠ []
    end.
Proof.
  intros Hoid. unfold target_from_lasair_alert.
  destruct (dict_get alert "objectId") eqn:Eo; [done| | | |];
    cbn [is_not_None negb];
    rewrite guess_coordinates_find;
    (destruct (List.find (qualifies alert) default_coordinate_guesses)
       as [[racol deccol]|] eqn:Hf;
     [ apply List.find_some in Hf as [_ Hq]; unfold qualifies in Hq;
       cbn [fst snd] in Hq; apply andb_prop in Hq as [Hr Hd];
       eexists; split; [reflexivity|]; cbn;
       rewrite Hr, Hd; cbn;
       repeat split; try done;
       intros E; rewrite E in *; discriminate
     | eexists; split; [reflexivity|]; cbn;
       assert (Hq : qualifies alert ("RA", "Dec") = false)
         by (apply (List.find_none _ _ Hf); cbn; tauto);
       unfold qualifies in Hq; cbn [fst snd] in Hq;
       destruct (dict_get alert "RA"), (dict_get alert "Dec");
       cbn in Hq |- *; try discriminate Hq; repeat split; auto; done ]).
Qed.

(** The theorem at an alert whose first qualifying pair is (ra, dec). *)
Lemma target_from_lasair_alert_coordinates_witness :
  ∃ out, target_from_lasair_alert sky_coord_numbers
           {[ "objectId" := VStr "ZTF21aaa"; "ramean" := VFloat (1 # 1);
              "ra" := VFloat (2 # 1); "dec" := VFloat (3 # 1) ]} = Ok out.
Proof.
  destruct (target_from_lasair_alert_coordinates sky_coord_numbers
              {[ "objectId" := VStr "ZTF21aaa"; "ramean" := VFloat (1 # 1);
                 "ra" := VFloat (2 # 1); "dec" := VFloat (3 # 1) ]})
    as (out & Hout & _).
  - vm_compute. discriminate.
  - exists out. exact Hout.
Defined.

(** * Proofs: candidate identifiers *)

Lemma mapM_result_map {A B} (f : A → result B) (h : A → B) (l : list A) :
  Forall (fun x => f x = Ok (h x)) l → mapM f l = Ok (map h l).
Proof.
  induction 1 as [|x l Hx _ IH]; [done|].
  cbn. rewrite Hx. cbn. rewrite IH. done.
Qed.

Lemma mark_detection_truthy py_str r :
  truthy (dict_get r "candid") = true →
  mark_detection py_str r = Ok (detection_row py_str r).
Proof.
  unfold mark_detection, detection_row, dict_getitem, dict_get.
  destruct (r !! "candid") as [v|]; cbn; [done|discriminate].
Qed.

Lemma mark_non_detection_falsy r :
  truthy (dict_get r "candid") = false →
  mark_non_detection r = Ok (non_detection_row r).
Proof. unfold mark_non_detection. by intros ->. Qed.

Lemma process_lasair_lightcurve_rows py_str lc df candidates :
  process_lasair_lightcurve py_str lc = Ok df →
  lc_candidates lc = Some candidates →
  ∃ g, keeps_candid_and_tag g ∧
    df_rows df ≡ₚ
      map g (map (detection_row py_str) (with_candid candidates) ++
             map non_detection_row
               (filter (fun r => truthy (dict_get r "candid") = false) candidates)).
Proof.
  unfold process_lasair_lightcurve. intros Hp Hc. rewrite Hc in Hp.
  destruct (lc_objectId lc) as [oid|]; [|discriminate]. cbn in Hp.
  fold (with_candid candidates) in Hp.
  set (non_det := filter (fun r => truthy (dict_get r "candid") = false) candidates) in *.
  destruct (negb _); [discriminate|].
  rewrite (mapM_result_map (mark_detection py_str) (detection_row py_str)) in Hp.
  2:{ apply Forall_forall. intros r Hr. apply mark_detection_truthy.
      by apply list_elem_of_filter in Hr as [Hr _]. }
  cbn in Hp.
  rewrite (mapM_result_map mark_non_detection non_detection_row) in Hp.
  2:{ apply Forall_forall. intros r Hr. apply mark_non_detection_falsy.
      by apply list_elem_of_filter in Hr as [Hr _]. }
  cbn in Hp.
  match type of Hp with
  | context [df_empty ?d] => destruct (df_empty d) eqn:He
  end.
  - cbn in Hp. injection Hp as <-.
    exists (fun r => <["mjd" := VInt 0]> (<["jd" := VInt 0]> (<["objectId" := VStr oid]> r))).
    split.
    + intros r. unfold dict_get. by rewrite !lookup_insert_ne.
    + cbn. rewrite merge_sort_Permutation. by rewrite !map_map.
  - cbn in Hp.
    match type of Hp with
    | context [df_getitem ?d "jd"] => destruct (df_getitem d "jd") as [jd|]
    end; [|discriminate].
    cbn in Hp. destruct (forallb valid_jd jd); [|discriminate].
    injection Hp as <-.
    exists (fun r => <["mjd" := jd_to_mjd (dict_get (<["objectId" := VStr oid]> r) "jd")]>
                  (<["objectId" := VStr oid]> r)).
    split.
    + intros r. split; unfold dict_get at 1 3; by rewrite !lookup_insert_ne.
    + cbn. rewrite merge_sort_Permutation. by rewrite !map_map.
Qed.

Lemma filter_map_all {A} (P : A → Prop) `{!∀ x, Decision (P x)} (l : list A) :
  Forall P l → filter P l = l.
Proof.
  induction 1 as [|x l Hx _ IH]; [done|].
  by rewrite filter_cons_True, IH.
Qed.

Lemma filter_map_none {A} (P : A → Prop) `{!∀ x, Decision (P x)} (l : list A) :
  Forall (fun x => ¬ P x) l → filter P l = [].
Proof.
  induction 1 as [|x l Hx _ IH]; [done|].
  by rewrite filter_cons_False.
Qed.

Lemma detection_row_tag py_str r : dict_get (detection_row py_str r) "tag" = VStr "valid".
Proof. unfold dict_get, detection_row. by rewrite lookup_insert_eq. Qed.

Lemma detection_row_candid py_str r :
  dict_get (detection_row py_str r) "candid" = dict_get r "candid".
Proof. unfold dict_get, detection_row. by rewrite !lookup_insert_ne. Qed.

Lemma non_detection_row_tag r :
  dict_get (non_detection_row r) "tag" = VStr "upperlim".
Proof. unfold dict_get, non_detection_row. by rewrite lookup_insert_eq. Qed.

Lemma non_detection_row_candid r :
  dict_get (non_detection_row r) "candid" = VInt (-1).
Proof.
  unfold dict_get, non_detection_row.
  rewrite !lookup_insert_ne by done. by rewrite lookup_insert_eq.
Qed.


(** C9, counterexample: a lightcurve with two non-detections comes out
    with the candidate identifier -1 on both rows. *)
Lemma process_lasair_lightcurve_shared_candid :
  ∃ df, process_lasair_lightcurve str_of_value lc_two_non_detections = Ok df
        ∧ candid_column (df_rows df) = [VInt (-1); VInt (-1)]
        ∧ ¬ NoDup (candid_column (df_rows df)).
Proof.
  eexists. split; [vm_compute; reflexivity|].
  split; [vm_compute; reflexivity|].
  intros Hnd. apply NoDup_cons in Hnd as [Hnotin _].
  apply Hnotin. vm_compute. left.
Qed.

(** C9, as the code has it, for candidate identifiers that are integers
    of the [int64] range: every row of a processed lightcurve is either
    tagged valid or is tagged upperlim and carries the candidate
    identifier -1, which all non-detections share.  The identifiers of
    the rows tagged valid are those of the broker's candidates that carry
    one; they are unique whenever the broker's are. *)
Theorem process_lasair_lightcurve_candids py_str lc df candidates :
  process_lasair_lightcurve py_str lc = Ok df →
  lc_candidates lc = Some candidates →
  Forall int64_candid (with_candid candidates) →
  candid_column (detections df) ≡ₚ candid_column (with_candid candidates)
  ∧ (NoDup (candid_column (with_candid candidates)) →
     NoDup (candid_column (detections df)))
  ∧ Forall (fun r => has_tag "valid" r
                     ∨ (has_tag "upperlim" r ∧ dict_get r "candid" = VInt (-1)))
      (df_rows df).
Proof.
  intros Hp Hc _.
  destruct (process_lasair_lightcurve_rows py_str lc df candidates Hp Hc)
    as (g & Hg & Hperm).
  set (non_det := filter (fun r => truthy (dict_get r "candid") = false) candidates) in *.
  assert (Hdet : candid_column (detections df)
                 ≡ₚ candid_column (with_candid candidates)).
  { unfold detections, candid_column. rewrite Hperm.
    rewrite map_app, filter_app.
    rewrite (filter_map_all (has_tag "valid")
               (map g (map (detection_row py_str) (with_candid candidates)))).
    2:{ rewrite map_map. apply Forall_map, Forall_forall. intros r _.
        unfold has_tag. cbn. rewrite (proj2 (Hg _)). apply detection_row_tag. }
    rewrite (filter_map_none (has_tag "valid")
               (map g (map non_detection_row non_det))).
    2:{ rewrite map_map. apply Forall_map, Forall_forall. intros r _.
        unfold has_tag. cbn. rewrite (proj2 (Hg _)), non_detection_row_tag.
        discriminate. }
    rewrite app_nil_r, !map_map.
    erewrite map_ext; [reflexivity|].
    intros r. cbn. rewrite (proj1 (Hg _)). apply detection_row_candid. }
  split; [exact Hdet|]. split.
  - intros Hnd. by rewrite Hdet.
  - rewrite Hperm. rewrite map_app. apply Forall_app. split.
    + rewrite map_map. apply Forall_map, Forall_forall. intros r _. left.
      unfold has_tag. cbn. rewrite (proj2 (Hg _)). apply detection_row_tag.
    + rewrite map_map. apply Forall_map, Forall_forall. intros r _. right.
      unfold has_tag. cbn. rewrite (proj2 (Hg _)), (proj1 (Hg _)).
      split; [apply non_detection_row_tag | apply non_detection_row_candid].
Qed.

(** The theorem at a lightcurve with two detections and a non-detection. *)
Lemma process_lasair_lightcurve_candids_witness :
  ∃ df, process_lasair_lightcurve str_of_value lc_two_detections = Ok df
        ∧ NoDup (candid_column (detections df)).
Proof.
  destruct (process_lasair_lightcurve str_of_value lc_two_detections)
    as [df|e] eqn:Hp.
  - exists df. split; [reflexivity|].
    apply (process_lasair_lightcurve_candids str_of_value lc_two_detections df
             _ Hp eq_refl).
    + repeat constructor; eexists; (split; [reflexivity|lia]).
    + apply (bool_decide_unpack _). vm_compute. exact I.
  - vm_compute in Hp. discriminate Hp.
Defined.

(** * Proofs: the lightcurve cache *)

(** C6, counterexample: a file on which [pd.read_csv] raises
    [ParserError] makes [load_single_lightcurve] raise it. *)
Lemma load_single_lightcurve_raises :
  load_single_lightcurve files_ragged "ZTF21abcdefg" = Raise ParserError
  ∧ ¬ load_never_raises files_ragged "ZTF21abcdefg".
Proof.
  split; [reflexivity|].
  unfold load_never_raises.
  change (files_ragged !! "ZTF21abcdefg") with (Some (Unreadable ParserError)).
  change (load_single_lightcurve files_ragged "ZTF21abcdefg")
    with (@Raise (option DataFrame) ParserError).
  discriminate.
Qed.

(** C6, as the code has it: [load_single_lightcurve] returns the absent
    value for a missing file and for a file on which [pd.read_csv]
    raises [EmptyDataError]; it returns the table of a readable file; it
    lets every other exception of [pd.read_csv] through to its caller. *)
Theorem load_single_lightcurve_cases (files : gmap string file_contents) (oid : string) :
  load_single_lightcurve files oid =
  match files !! oid with
  | None => Ok None
  | Some (Csv df) => Ok (Some df)
  | Some (Unreadable EmptyDataError) => Ok None
  | Some (Unreadable e) => Raise e
  end.
Proof.
  unfold load_single_lightcurve.
  destruct (files !! oid) as [[df|e]|]; [reflexivity| |reflexivity].
  destruct e; reflexivity.
Qed.

Lemma df_getitem_column (df : DataFrame) (col : string) :
  col ∈ df_columns df →
  df_getitem df col = Ok (map (fun r => dict_get r col) (df_rows df)).
Proof. intros Hc. unfold df_getitem. by rewrite bool_decide_eq_true_2. Qed.

Lemma df_getitem_no_column (df : DataFrame) (col : string) :
  col ∉ df_columns df → df_getitem df col = Raise (KeyError col).
Proof. intros Hc. unfold df_getitem. by rewrite bool_decide_eq_false_2. Qed.

(** Where it is defined, the backfill step touches the coordinates of the
    target and nothing else. *)
Lemma backfill_coordinates_defined sky_coord oid target lc :
  backfill_defined target lc →
  ∃ target' entries,
    backfill_coordinates sky_coord oid target lc = Ok (target', entries)
    ∧ updated target' = updated target
    ∧ target_data target' = target_data target.
Proof.
  intros Hdef. unfold backfill_coordinates.
  assert (Hsame : ∀ t entries, updated t = updated target →
            target_data t = target_data target →
            ∃ target' entries',
              @Ok (Target * list log_entry) (t, entries) = Ok (target', entries')
              ∧ updated target' = updated target
              ∧ target_data target' = target_data target) by eauto.
  destruct (coord target) as [c|] eqn:Hc; [by apply Hsame|].
  destruct Hdef as [[c' Hc']|[Hra Hdec]]; [congruence|].
  rewrite (df_getitem_column _ _ Hra). cbn.
  rewrite (df_getitem_column _ _ Hdec). cbn.
  set (ra_vals := dropna (map (fun r => dict_get r "ra") (df_rows lc))).
  set (dec_vals := dropna (map (fun r => dict_get r "dec") (df_rows lc))).
  destruct (np_average ra_vals) as [ra_avg|]; cbn; [|by apply Hsame].
  destruct (np_average dec_vals) as [dec_avg|]; cbn; [|by apply Hsame].
  unfold update_coordinates.
  destruct (sky_coord ra_avg dec_avg) as [c|]; cbn; by apply Hsame.
Qed.

(** Without coordinates and without an [ra] column the step raises. *)
Lemma backfill_coordinates_no_ra sky_coord oid target lc :
  coord target = None → "ra" ∉ df_columns lc →
  backfill_coordinates sky_coord oid target lc = Raise (KeyError "ra").
Proof.
  intros Hc Hra. unfold backfill_coordinates.
  by rewrite Hc, (df_getitem_no_column _ _ Hra).
Qed.

Lemma lasair_lightcurve_add (lc : DataFrame) (t : Target) :
  lasair_lightcurve
    (set_target_data "lasair" (add_lightcurve lc (get_target_data "lasair" t)) t)
  = Some lc.
Proof.
  unfold lasair_lightcurve, get_target_data, set_target_data. cbn.
  by rewrite lookup_insert_eq.
Qed.

(** The path of an object that passes the gate. *)
Lemma load_target_lightcurve_loaded sky_coord files oid st target target1 lc :
  files !! oid = Some (Csv lc) →
  target_lookup st !! oid = Some target →
  merge_gate target lc = Some target1 →
  backfill_defined target1 lc →
  ∃ st' target',
    load_target_lightcurve sky_coord files oid st = Ok st'
    ∧ loaded st' = (loaded st ++ [oid])%list
    ∧ skipped st' = skipped st
    ∧ missing st' = missing st
    ∧ target_lookup st' !! oid = Some target'
    ∧ lasair_lightcurve target' = Some lc
    ∧ updated target' = updated target1.
Proof.
  intros Hf Ht Hg Hdef.
  destruct (backfill_coordinates_defined sky_coord oid target1 lc Hdef)
    as (target2 & entries & Hb & Hu & _).
  unfold load_target_lightcurve, load_single_lightcurve.
  rewrite Hf. cbn. rewrite Ht, Hg, Hb. cbn.
  eexists _, (set_target_data "lasair"
                (add_lightcurve lc (get_target_data "lasair" target2)) target2).
  split; [reflexivity|]. cbn.
  split; [done|]. split; [done|]. split; [done|].
  split; [by rewrite lookup_insert_eq|].
  split; [apply lasair_lightcurve_add | exact Hu].
Qed.

(** C1, counterexample: an incoming lightcurve with as many rows as the
    existing one is skipped; the target keeps the existing lightcurve
    and is not marked updated. *)
Lemma load_target_lightcurves_equal_length_skipped :
  (df_len lightcurve_existing ≤ df_len lightcurve_incoming)%nat
  ∧ (∃ st, load_target_lightcurves sky_coord_numbers
             {[ "ZTF21abcdefg" := Csv lightcurve_incoming ]}
             {[ "ZTF21abcdefg" := target_with_lightcurve ]}
             (Some ["ZTF21abcdefg"]) = Ok st
           ∧ loaded st = [] ∧ skipped st = ["ZTF21abcdefg"]
           ∧ target_lookup st !! "ZTF21abcdefg" = Some target_with_lightcurve)
  ∧ ¬ accepted_and_updated sky_coord_numbers
        {[ "ZTF21abcdefg" := Csv lightcurve_incoming ]}
        {[ "ZTF21abcdefg" := target_with_lightcurve ]}
        "ZTF21abcdefg" lightcurve_incoming.
Proof.
  split; [vm_compute; lia|]. split.
  - eexists. split; [vm_compute; reflexivity|]. repeat split.
  - intros (st & t & Hload & Hlook & _ & Hupd).
    vm_compute in Hload. injection Hload as <-.
    vm_compute in Hlook. injection Hlook as <-.
    discriminate Hupd.
Qed.

(** C1, as the code has it: with an existing lightcurve E, an incoming
    lightcurve I replaces E and marks the object updated when I has
    strictly more rows than E (and the backfill step is defined); when I
    has as many rows as E or fewer, the object is skipped: E stays and
    the updated flag is not touched. *)
Theorem load_target_lightcurve_merge sky_coord files oid st target E I :
  files !! oid = Some (Csv I) →
  target_lookup st !! oid = Some target →
  lasair_lightcurve target = Some E →
  ((df_len I ≤ df_len E)%nat →
     load_target_lightcurve sky_coord files oid st = Ok (add_skipped oid st))
  ∧ ((df_len E < df_len I)%nat → backfill_defined target I →
     ∃ st' target',
       load_target_lightcurve sky_coord files oid st = Ok st'
       ∧ loaded st' = (loaded st ++ [oid])%list
       ∧ skipped st' = skipped st
       ∧ missing st' = missing st
       ∧ target_lookup st' !! oid = Some target'
       ∧ lasair_lightcurve target' = Some I
       ∧ updated target' = true).
Proof.
  intros Hf Ht HE. unfold lasair_lightcurve in HE. split.
  - intros Hle. unfold load_target_lightcurve, load_single_lightcurve.
    rewrite Hf. cbn. rewrite Ht. unfold merge_gate. rewrite HE.
    by rewrite (proj2 (Nat.leb_le _ _) Hle).
  - intros Hlt Hdef.
    assert (Hg : merge_gate target I = Some (set_updated true target)).
    { unfold merge_gate. rewrite HE.
      by rewrite (proj2 (Nat.leb_gt _ _) Hlt). }
    apply (load_target_lightcurve_loaded sky_coord files oid st target _ I Hf Ht Hg).
    exact Hdef.
Qed.

(** The theorem at an incoming lightcurve of two rows against an existing
    one of one row. *)
Lemma load_target_lightcurve_merge_witness :
  ∃ st' target',
    load_target_lightcurve sky_coord_numbers
      {[ "ZTF21abcdefg" := Csv lightcurve_longer ]} "ZTF21abcdefg"
      (initial_load_state {[ "ZTF21abcdefg" := target_with_lightcurve ]}) = Ok st'
    ∧ target_lookup st' !! "ZTF21abcdefg" = Some target'
    ∧ lasair_lightcurve target' = Some lightcurve_longer
    ∧ updated target' = true.
Proof.
  destruct (load_target_lightcurve_merge sky_coord_numbers
              {[ "ZTF21abcdefg" := Csv lightcurve_longer ]} "ZTF21abcdefg"
              (initial_load_state {[ "ZTF21abcdefg" := target_with_lightcurve ]})
              target_with_lightcurve lightcurve_existing lightcurve_longer)
    as [_ Hacc]; [reflexivity|reflexivity|reflexivity|].
  destruct Hacc as (st' & target' & H1 & _ & _ & _ & H2 & H3 & H4).
  - vm_compute. lia.
  - left. vm_compute. eauto.
  - exists st', target'. auto.
Defined.

(** C2, counterexample: a target without a lightcurve receives an
    incoming lightcurve of zero rows; the lightcurve is installed and
    the updated flag stays false. *)
Lemma load_target_lightcurves_first_not_updated :
  (∃ st t, load_target_lightcurves sky_coord_numbers
             {[ "ZTF21abcdefg" := Csv lightcurve_no_rows ]}
             {[ "ZTF21abcdefg" := target_without_lightcurve ]}
             (Some ["ZTF21abcdefg"]) = Ok st
           ∧ loaded st = ["ZTF21abcdefg"]
           ∧ target_lookup st !! "ZTF21abcdefg" = Some t
           ∧ lasair_lightcurve t = Some lightcurve_no_rows
           ∧ updated t = false)
  ∧ ¬ accepted_and_updated sky_coord_numbers
        {[ "ZTF21abcdefg" := Csv lightcurve_no_rows ]}
        {[ "ZTF21abcdefg" := target_without_lightcurve ]}
        "ZTF21abcdefg" lightcurve_no_rows.
Proof.
  split.
  - eexists _, _. split; [vm_compute; reflexivity|].
    split; [reflexivity|]. split; [vm_compute; reflexivity|].
    split; reflexivity.
  - intros (st & t & Hload & Hlook & _ & Hupd).
    vm_compute in Hload. injection Hload as <-.
    vm_compute in Hlook. injection Hlook as <-.
    discriminate Hupd.
Qed.

(** C2, as the code has it: for a target without a lightcurve, the
    incoming lightcurve, whatever its number of rows, is installed and
    the object is counted as loaded (where the backfill step is defined);
    the updated flag is left as it was. *)
Theorem load_target_lightcurve_first sky_coord files oid st target I :
  files !! oid = Some (Csv I) →
  target_lookup st !! oid = Some target →
  lasair_lightcurve target = None →
  backfill_defined target I →
  ∃ st' target',
    load_target_lightcurve sky_coord files oid st = Ok st'
    ∧ loaded st' = (loaded st ++ [oid])%list
    ∧ skipped st' = skipped st
    ∧ missing st' = missing st
    ∧ target_lookup st' !! oid = Some target'
    ∧ lasair_lightcurve target' = Some I
    ∧ updated target' = updated target.
Proof.
  intros Hf Ht HE Hdef. unfold lasair_lightcurve in HE.
  apply (load_target_lightcurve_loaded sky_coord files oid st target target I Hf Ht);
    [|exact Hdef].
  unfold merge_gate. by rewrite HE.
Qed.

(** The theorem at a target with coordinates and an incoming lightcurve
    of zero rows. *)
Lemma load_target_lightcurve_first_witness :
  ∃ st' target',
    load_target_lightcurve sky_coord_numbers
      {[ "ZTF21abcdefg" := Csv lightcurve_no_rows ]} "ZTF21abcdefg"
      (initial_load_state {[ "ZTF21abcdefg" := target_without_lightcurve ]}) = Ok st'
    ∧ target_lookup st' !! "ZTF21abcdefg" = Some target'
    ∧ lasair_lightcurve target' = Some lightcurve_no_rows
    ∧ updated target' = updated target_without_lightcurve.
Proof.
  destruct (load_target_lightcurve_first sky_coord_numbers
              {[ "ZTF21abcdefg" := Csv lightcurve_no_rows ]} "ZTF21abcdefg"
              (initial_load_state {[ "ZTF21abcdefg" := target_without_lightcurve ]})
              target_without_lightcurve lightcurve_no_rows)
    as (st' & target' & H1 & _ & _ & _ & H2 & H3 & H4);
    [reflexivity|reflexivity|reflexivity| |].
  - left. vm_compute. eauto.
  - exists st', target'. auto.
Defined.

(** C5, the code at the failing input: the table that
    [process_lasair_lightcurve] makes for an object without candidates
    has no [ra] column; loading it for a target without coordinates
    raises [KeyError] out of [load_target_lightcurves], before the
    lightcurve is installed. *)
Theorem load_target_lightcurves_backfill_raises :
  process_lasair_lightcurve str_of_value lc_no_candidates
    = Ok lightcurve_no_candidates
  ∧ load_target_lightcurves sky_coord_numbers
      {[ "ZTF21abcdefg" := Csv lightcurve_no_candidates ]}
      {[ "ZTF21abcdefg" := target_without_coordinates ]}
      (Some ["ZTF21abcdefg"]) = Raise (KeyError "ra").
Proof. split; vm_compute; reflexivity. Qed.

(** * Proofs: bulk lightcurve queries *)

(** Closes the cases in which a step adds nothing to the lists. *)
Local Ltac nothing_added :=
  repeat first [ split | intro ]; try done;
  repeat match goal with H : _ ∈ [] |- _ => by apply elem_of_nil in H end.

Lemma elem_of_concat_take {A} (x : A) (n : nat) (ls : list (list A)) :
  x ∈ concat (take n ls) → x ∈ concat ls.
Proof.
  revert ls. induction n as [|n IH]; intros [|l ls]; cbn; try done.
  - intros Hx. by apply elem_of_nil in Hx.
  - intros Hx. apply elem_of_app in Hx as [Hx|Hx]; apply elem_of_app;
      [by left | right; by apply IH].
Qed.

Section Queries.

Variable py_str : value → string.
Variable lightcurves : nat → list string → result (list lc_data).
Variable read_back : DataFrame → DataFrame + cast_error.
Variable max_failed_queries : Z.

(** What storing the items of one answer does to the state. *)
Lemma store_lightcurves_fields lcs st st' :
  store_lightcurves py_str read_back lcs st = Ok st' →
  failed st' = failed st
  ∧ requests st' = requests st
  ∧ ∃ ids, success st' = (success st ++ ids)%list
           ∧ ∀ x, x ∈ ids → ∃ lc, lc ∈ lcs ∧ lc_objectId lc = Some x.
Proof.
  revert st. induction lcs as [|lc lcs IH]; intros st Hs; cbn in Hs.
  - injection Hs as <-. repeat split. exists []. split; [by rewrite app_nil_r|].
    intros x Hx. by apply elem_of_nil in Hx.
  - unfold store_lightcurve in Hs.
    destruct (lc_objectId lc) as [oid|] eqn:Hoid; [|discriminate]. cbn in Hs.
    destruct (process_lasair_lightcurve py_str lc) as [df|]; [|discriminate].
    cbn in Hs. apply IH in Hs as (Hf & Hr & ids & Hsucc & Hids). cbn in *.
    repeat split; [done..|].
    exists (oid :: ids). split; [by rewrite Hsucc, <- app_assoc|].
    intros x Hx. apply elem_of_cons in Hx as [->|Hx].
    + exists lc. split; [left|done].
    + destruct (Hids x Hx) as (lc' & Hin & Hlc'). exists lc'. split; [by right|done].
Qed.

Lemma store_lightcurves_returns lcs st :
  (∀ lc, lc ∈ lcs → is_Ok (process_lasair_lightcurve py_str lc) = true) →
  ∃ st', store_lightcurves py_str read_back lcs st = Ok st'.
Proof.
  revert st. induction lcs as [|lc lcs IH]; intros st Hok;
    cbn [store_lightcurves]; [by eauto|].
  assert (Hlc : is_Ok (process_lasair_lightcurve py_str lc) = true)
    by (apply Hok; left).
  unfold store_lightcurve.
  destruct (process_lasair_lightcurve py_str lc) as [df|] eqn:Hp; [|discriminate].
  destruct (lc_objectId lc) as [oid|] eqn:Hoid.
  - cbn. apply IH. intros lc' Hin. apply Hok. by right.
  - unfold process_lasair_lightcurve in Hp. rewrite Hoid in Hp. discriminate.
Qed.

(** Once the failed list is longer than the threshold the loop leaves at
    its next test: no request, nothing added to either list. *)
Lemma query_chunks_tripped ii chunks st :
  (max_failed_queries < Z.of_nat (length (failed st)))%Z →
  ∃ st', query_chunks py_str lightcurves read_back max_failed_queries ii chunks st = Ok st'
         ∧ success st' = success st
         ∧ failed st' = failed st
         ∧ requests st' = requests st.
Proof.
  intros Htrip. destruct chunks as [|chunk rest]; cbn; [by eauto|].
  rewrite (proj2 (Z.ltb_lt _ _) Htrip). by eauto.
Qed.

(** The lists a run of the loop adds to the state come from the chunks it
    requested, a prefix of the chunks it was given. *)
Lemma query_chunks_fields ii chunks st st' :
  query_chunks py_str lightcurves read_back max_failed_queries ii chunks st = Ok st' →
  ∃ s f n,
    success st' = (success st ++ s)%list
    ∧ failed st' = (failed st ++ f)%list
    ∧ requests st' = (requests st ++ take n chunks)%list
    ∧ (∀ x, x ∈ f → x ∈ concat (take n chunks))
    ∧ (answers_within lightcurves →
         (∀ x, x ∈ s → x ∈ concat (take n chunks))
         ∧ (NoDup (concat chunks) → ∀ x, x ∈ s → x ∈ f → False)).
Proof.
  revert ii st. induction chunks as [|chunk rest IH]; intros ii st Hq; cbn in Hq.
  { injection Hq as <-. exists [], [], 0%nat. rewrite !app_nil_r.
    nothing_added. }
  destruct (max_failed_queries <? Z.of_nat (length (failed st)))%Z.
  { injection Hq as <-. exists [], [], 0%nat. cbn. rewrite !app_nil_r.
    nothing_added. }
  destruct (lightcurves ii chunk) as [lcs|e] eqn:Hl.
  - match type of Hq with
    | context [store_lightcurves py_str read_back lcs ?s0] =>
        destruct (store_lightcurves py_str read_back lcs s0) as [st1|] eqn:Hs; [|discriminate]
    end.
    cbn in Hq. apply IH in Hq as (s & f & n & Hsu & Hfa & Hre & Hf & Hans).
    apply store_lightcurves_fields in Hs as (Hf1 & Hr1 & ids & Hs1 & Hids).
    assert (Hbase : ∀ (b : bool) e0 (s0 : query_state),
              success (if b then log_query e0 s0 else s0) = success s0
              ∧ failed (if b then log_query e0 s0 else s0) = failed s0
              ∧ requests (if b then log_query e0 s0 else s0) = requests s0)
      by (by intros []).
    rewrite Hf1 in Hfa. rewrite Hs1 in Hsu. rewrite Hr1 in Hre.
    rewrite (proj1 (Hbase _ _ _)) in Hsu.
    rewrite (proj1 (proj2 (Hbase _ _ _))) in Hfa.
    rewrite (proj2 (proj2 (Hbase _ _ _))) in Hre.
    cbn in Hsu, Hfa, Hre.
    exists (ids ++ s)%list, f, (S n). cbn [take concat].
    split; [by rewrite Hsu, <- app_assoc|]. split; [done|].
    split; [by rewrite Hre, <- app_assoc|].
    split; [intros x Hx; apply elem_of_app; right; by apply Hf|].
    intros Hw. destruct (Hans Hw) as [Hs Hdis].
    assert (Hidc : ∀ x, x ∈ ids → x ∈ chunk).
    { intros x Hx. destruct (Hids x Hx) as (lc & Hin & Hoid).
      by apply (Hw ii chunk lcs lc x). }
    split.
    + intros x Hx. apply elem_of_app in Hx as [Hx|Hx]; apply elem_of_app;
        [left; by apply Hidc | right; by apply Hs].
    + intros Hnd x Hx Hxf. apply NoDup_app in Hnd as (_ & Hno & Hndr).
      apply elem_of_app in Hx as [Hx|Hx].
      * apply (Hno x (Hidc x Hx)).
        apply Hf in Hxf.
        by apply elem_of_concat_take in Hxf.
      * by apply (Hdis Hndr x).
  - apply IH in Hq as (s & f & n & Hsu & Hfa & Hre & Hf & Hans).
    cbn in Hsu, Hfa, Hre.
    exists s, (chunk ++ f)%list, (S n). cbn [take concat].
    split; [done|]. split; [by rewrite Hfa, <- app_assoc|].
    split; [by rewrite Hre, <- app_assoc|].
    split.
    { intros x Hx. apply elem_of_app in Hx as [Hx|Hx]; apply elem_of_app;
        [by left | right; by apply Hf]. }
    intros Hw. destruct (Hans Hw) as [Hs Hdis]. split.
    + intros x Hx. apply elem_of_app. right. by apply Hs.
    + intros Hnd x Hx Hxf. apply NoDup_app in Hnd as (_ & Hno & Hndr).
      apply elem_of_app in Hxf as [Hxf|Hxf].
      * apply (Hno x Hxf). apply Hs in Hx.
        by apply elem_of_concat_take in Hx.
      * by apply (Hdis Hndr x).
Qed.

End Queries.

(** The chunks are consecutive pieces of the list. *)
Lemma chunk_list_aux_concat {A} (fuel : nat) (l : list A) (chunk_size : nat) :
  ∃ rest, l = (concat (chunk_list_aux fuel l chunk_size) ++ rest)%list.
Proof.
  revert l. induction fuel as [|fuel IH]; intros l.
  - exists l. by destruct l.
  - destruct l as [|a l]; [by exists []|].
    cbn [chunk_list_aux concat].
    destruct (IH (drop chunk_size (a :: l))) as [rest Hrest].
    exists rest. rewrite <- app_assoc, <- Hrest. by rewrite take_drop.
Qed.

(** For a positive size the fuel is enough: the chunks make up the whole
    list. *)
Lemma chunk_list_aux_whole {A} (fuel : nat) (l : list A) (chunk_size : nat) :
  (length l ≤ fuel)%nat → (0 < chunk_size)%nat →
  concat (chunk_list_aux fuel l chunk_size) = l.
Proof.
  revert l. induction fuel as [|fuel IH]; intros l Hlen Hpos.
  - destruct l; [done|]. cbn in Hlen. lia.
  - destruct l as [|a l]; [done|].
    cbn [chunk_list_aux concat]. rewrite IH; [apply take_drop| |done].
    rewrite length_drop. cbn in Hlen |- *. lia.
Qed.

Lemma chunk_list_whole {A} (l : list A) (chunk_size : nat) :
  (0 < chunk_size)%nat → concat (chunk_list l chunk_size) = l.
Proof. intros Hpos. by apply chunk_list_aux_whole. Qed.


Lemma chunk_list_NoDup {A} (l : list A) (chunk_size : nat) :
  NoDup l → NoDup (concat (chunk_list l chunk_size)).
Proof.
  intros Hnd. destruct (chunk_list_aux_concat (length l) l chunk_size) as [rest Hl].
  rewrite Hl in Hnd. by apply NoDup_app in Hnd as [Hnd _].
Qed.

(** The loop on [pre ++ post], when the run on [pre] ends with the failed
    list above the threshold: the chunks of [post] change nothing. *)
Lemma query_chunks_app_tripped py_str lightcurves read_back max_failed_queries
    ii pre post st0 st1 :
  query_chunks py_str lightcurves read_back max_failed_queries ii pre st0 = Ok st1 →
  (max_failed_queries < Z.of_nat (length (failed st1)))%Z →
  ∃ st2,
    query_chunks py_str lightcurves read_back max_failed_queries ii (pre ++ post) st0 = Ok st2
    ∧ success st2 = success st1
    ∧ failed st2 = failed st1
    ∧ requests st2 = requests st1.
Proof.
  revert ii st0. induction pre as [|chunk pre IH]; intros ii st0 Hq Htrip.
  - cbn in Hq. injection Hq as <-. cbn [app]. by apply query_chunks_tripped.
  - cbn [app query_chunks] in Hq |- *.
    destruct (max_failed_queries <? Z.of_nat (length (failed st0)))%Z.
    { injection Hq as <-. by eauto. }
    destruct (lightcurves ii chunk) as [lcs|e]; [|by apply IH].
    match type of Hq with
    | context [store_lightcurves py_str read_back lcs ?s0] =>
        destruct (store_lightcurves py_str read_back lcs s0) as [st'|]; [|discriminate]
    end.
    cbn in Hq |- *. by apply IH.
Qed.

(** The chunks whose request raised are in the failed list. *)
Lemma query_chunks_failed_chunks py_str lightcurves read_back max_failed_queries
    ii chunks st st' :
  query_chunks py_str lightcurves read_back max_failed_queries ii chunks st = Ok st' →
  ∃ n, requests st' = (requests st ++ take n chunks)%list
       ∧ ∀ k chunk e, chunks !! k = Some chunk → (k < n)%nat →
           lightcurves (ii + k) chunk = Raise e →
           ∀ x, x ∈ chunk → x ∈ failed st'.
Proof.
  revert ii st. induction chunks as [|c rest IH]; intros ii st Hq; cbn in Hq.
  { injection Hq as <-. exists 0%nat. split; [by rewrite app_nil_r|]. lia. }
  destruct (max_failed_queries <? Z.of_nat (length (failed st)))%Z.
  { injection Hq as <-. exists 0%nat. split; [by rewrite app_nil_r|]. lia. }
  destruct (lightcurves ii c) as [lcs|e0] eqn:Hl.
  - match type of Hq with
    | context [store_lightcurves py_str read_back lcs ?s0] =>
        destruct (store_lightcurves py_str read_back lcs s0) as [st1|] eqn:Hs; [|discriminate]
    end.
    cbn in Hq. apply store_lightcurves_fields in Hs as (_ & Hr1 & _).
    apply IH in Hq as (n & Hr & Hfail).
    exists (S n). split.
    { rewrite Hr, Hr1. cbn [take]. destruct (negb _); cbn; by rewrite <- app_assoc. }
    intros [|k] chunk e Hk Hlt He.
    + cbn in Hk. injection Hk as <-. rewrite Nat.add_0_r in He. congruence.
    + cbn in Hk. apply (Hfail k chunk e Hk); [lia|].
      by replace (S ii + k)%nat with (ii + S k)%nat by lia.
  - pose proof Hq as Hq'.
    apply IH in Hq as (n & Hr & Hfail).
    apply query_chunks_fields in Hq' as (s & f & m & _ & Hf & _).
    cbn in Hr, Hf.
    exists (S n). split; [by rewrite Hr, <- app_assoc|].
    intros [|k] chunk e Hk Hlt He.
    + cbn in Hk. injection Hk as <-. intros x Hx. rewrite Hf.
      apply elem_of_app. left. apply elem_of_app. by right.
    + cbn in Hk. apply (Hfail k chunk e Hk); [lia|].
      by replace (S ii + k)%nat with (ii + S k)%nat by lia.
Qed.

(** With answers that can be processed the loop returns. *)
Lemma query_chunks_returns py_str lightcurves read_back max_failed_queries ii chunks st :
  answers_processable py_str lightcurves →
  ∃ st', query_chunks py_str lightcurves read_back max_failed_queries ii chunks st = Ok st'.
Proof.
  intros Hok. revert ii st. induction chunks as [|chunk rest IH]; intros ii st;
    cbn [query_chunks]; [by eauto|].
  destruct (max_failed_queries <? Z.of_nat (length (failed st)))%Z; [by eauto|].
  destruct (lightcurves ii chunk) as [lcs|e] eqn:Hl; [|by apply IH].
  match goal with
  | |- context [store_lightcurves py_str read_back lcs ?s0] =>
      destruct (store_lightcurves_returns py_str read_back lcs s0) as [st' Hs]
  end.
  - intros lc Hin. by apply (Hok ii chunk lcs).
  - rewrite Hs. cbn. by apply IH.
Qed.

Lemma answers_within_fail_at n : answers_within (lightcurves_fail_at n).
Proof.
  intros ii chunk lcs lc oid Hl Hin Hoid. unfold lightcurves_fail_at in Hl.
  destruct (ii =? n)%nat; [discriminate|]. injection Hl as <-.
  unfold answer_chunk in Hin. apply list_elem_of_fmap in Hin as (oid' & -> & Hin).
  cbn in Hoid. by injection Hoid as <-.
Qed.

Lemma answers_processable_fail_at py_str n :
  answers_processable py_str (lightcurves_fail_at n).
Proof.
  intros ii chunk lcs lc Hl Hin. unfold lightcurves_fail_at in Hl.
  destruct (ii =? n)%nat; [discriminate|]. injection Hl as <-.
  unfold answer_chunk in Hin. apply list_elem_of_fmap in Hin as (oid' & -> & Hin).
  reflexivity.
Qed.




(** C4, counterexample: the same id requested twice, in chunks of one,
    with threshold 0 and a broker that is down.  The first chunk fails,
    the second is not attempted, and its id is in the failed list. *)
Lemma perform_lightcurve_queries_unattempted_id_failed :
  chunk_list repeated_ids 1 = ([["ZTF21aaaaaaa"]] ++ [["ZTF21aaaaaaa"]])%list
  ∧ ∃ st, perform_lightcurve_queries str_of_value lightcurves_down read_back_text
            (Some "token") 0 ∅ repeated_ids 1 = Ok st
          ∧ requests st = [["ZTF21aaaaaaa"]]
          ∧ failed st = ["ZTF21aaaaaaa"]
          ∧ ¬ unattempted_as_specified [["ZTF21aaaaaaa"]] [["ZTF21aaaaaaa"]] st.
Proof.
  split; [reflexivity|].
  eexists. split; [vm_compute; reflexivity|].
  split; [reflexivity|]. split; [reflexivity|].
  intros [_ Hun]. destruct (Hun "ZTF21aaaaaaa") as [_ Hnot]; [cbn; left|].
  apply Hnot. cbn. left.
Qed.

(** C4, as the code has it: let the chunks of a call be [pre ++ post],
    and let the failed list be longer than [max_failed_queries] after the
    chunks of [pre].  Then the call returns with the requests and the two
    result lists exactly as they were after [pre]: no chunk of [post] is
    requested and none adds to a list.  When the requested ids are
    pairwise distinct and the broker answers each chunk with objects of
    that chunk only, no id of a chunk of [post] is in either list. *)
Theorem perform_lightcurve_queries_circuit_breaker py_str lightcurves read_back token
    max_failed_queries files0 objectId_list chunk_size pre post st1 :
  chunk_list objectId_list chunk_size = (pre ++ post)%list →
  query_chunks py_str lightcurves read_back max_failed_queries 0 pre
    (initial_query_state files0) = Ok st1 →
  (max_failed_queries < Z.of_nat (length (failed st1)))%Z →
  ∃ st2,
    perform_lightcurve_queries py_str lightcurves read_back (Some token) max_failed_queries
      files0 objectId_list chunk_size = Ok st2
    ∧ success st2 = success st1
    ∧ failed st2 = failed st1
    ∧ requests st2 = requests st1
    ∧ requests st2 `prefix_of` pre
    ∧ (answers_within lightcurves → NoDup objectId_list →
       unattempted_as_specified pre post st2).
Proof.
  intros Hchunks Hpre Htrip.
  destruct (query_chunks_app_tripped _ _ _ _ _ _ post _ _ Hpre Htrip)
    as (st2 & Hq & Hs2 & Hf2 & Hr2).
  exists st2. unfold perform_lightcurve_queries. rewrite Hchunks.
  split; [exact Hq|]. split; [exact Hs2|]. split; [exact Hf2|]. split; [exact Hr2|].
  apply query_chunks_fields in Hpre as (s & f & n & Hs & Hf & Hr & Hfin & Hans).
  cbn in Hs, Hf, Hr. subst s f.
  assert (Hpref : requests st2 `prefix_of` pre).
  { rewrite Hr2, Hr. apply prefix_take. }
  split; [exact Hpref|].
  intros Hw Hnd. split; [exact Hpref|].
  apply (chunk_list_NoDup _ chunk_size) in Hnd.
  rewrite Hchunks, concat_app in Hnd. apply NoDup_app in Hnd as (_ & Hno & _).
  destruct (Hans Hw) as [Hsin _].
  intros x Hx. rewrite Hs2, Hf2. split; intros Hin.
  - apply Hsin, elem_of_concat_take in Hin. by apply (Hno x).
  - apply Hfin, elem_of_concat_take in Hin. by apply (Hno x).
Qed.

(** The theorem at seven ids in chunks of three with threshold 1: the
    second chunk fails, three ids are in the failed list, and the third
    chunk is left alone. *)
Lemma perform_lightcurve_queries_circuit_breaker_witness :
  ∃ st, perform_lightcurve_queries str_of_value (lightcurves_fail_at 1) read_back_text
          (Some "token") 1 ∅ seven_ids 3 = Ok st
        ∧ requests st = [take 3 seven_ids; take 3 (drop 3 seven_ids)]
        ∧ unattempted_as_specified
            [take 3 seven_ids; take 3 (drop 3 seven_ids)] [drop 6 seven_ids] st.
Proof.
  destruct (query_chunks str_of_value (lightcurves_fail_at 1) read_back_text 1 0
              [take 3 seven_ids; take 3 (drop 3 seven_ids)]
              (initial_query_state ∅)) as [st1|e] eqn:Hpre.
  - destruct (perform_lightcurve_queries_circuit_breaker str_of_value
                (lightcurves_fail_at 1) read_back_text "token" 1 ∅ seven_ids 3
                [take 3 seven_ids; take 3 (drop 3 seven_ids)] [drop 6 seven_ids]
                st1 eq_refl Hpre)
      as (st2 & Hq & _ & _ & Hr & _ & Hun).
    + vm_compute in Hpre. injection Hpre as <-. vm_compute. reflexivity.
    + exists st2. split; [exact Hq|]. split.
      * rewrite Hr. vm_compute in Hpre. injection Hpre as <-. reflexivity.
      * apply Hun; [apply answers_within_fail_at|].
        apply (bool_decide_unpack _). vm_compute. exact I.
  - vm_compute in Hpre. discriminate Hpre.
Defined.

(** C8, counterexample: without a client token the call raises
    [ValueError] and returns no partition. *)
Lemma perform_lightcurve_queries_without_token :
  perform_lightcurve_queries str_of_value lightcurves_down read_back_text None 10 ∅ five_ids 25
    = Raise (ValueError "Must provied `client_token` for lightcurves")
  ∧ ¬ ∃ st, perform_lightcurve_queries str_of_value lightcurves_down read_back_text None 10 ∅
              five_ids 25 = Ok st.
Proof.
  split; [reflexivity|]. intros [st Hst]. discriminate Hst.
Qed.

(** C8, as the code has it: the call raises [ValueError] when there is no
    client token.  With a token and a positive chunk size, every
    exception of a bulk request is caught, and the call returns its state
    with the two lists whenever the items that the broker returns can be
    processed; the requests it made are a prefix of the chunks, and the
    ids of every chunk whose request raised are in the failed list. *)
Theorem perform_lightcurve_queries_returns py_str lightcurves read_back
    max_failed_queries files0 objectId_list chunk_size :
  perform_lightcurve_queries py_str lightcurves read_back None max_failed_queries files0
    objectId_list chunk_size
    = Raise (ValueError "Must provied `client_token` for lightcurves")
  ∧ ((0 < chunk_size)%nat → answers_processable py_str lightcurves →
     ∀ token, ∃ st,
       perform_lightcurve_queries py_str lightcurves read_back (Some token)
         max_failed_queries files0 objectId_list chunk_size = Ok st
       ∧ requests st `prefix_of` chunk_list objectId_list chunk_size
       ∧ ∀ ii chunk e,
           requests st !! ii = Some chunk → lightcurves ii chunk = Raise e →
           chunk ⊆ failed st).
Proof.
  split; [reflexivity|]. intros _ Hok token.
  unfold perform_lightcurve_queries.
  destruct (query_chunks_returns py_str lightcurves read_back max_failed_queries 0
              (chunk_list objectId_list chunk_size) (initial_query_state files0) Hok)
    as [st Hq].
  exists st. split; [exact Hq|].
  destruct (query_chunks_failed_chunks _ _ _ _ _ _ _ _ Hq) as (n & Hr & Hfail).
  cbn in Hr. split; [rewrite Hr; apply prefix_take|].
  intros ii chunk e Hii He. rewrite Hr in Hii.
  apply lookup_take_Some in Hii as [Hii Hlt].
  specialize (Hfail ii chunk e Hii Hlt). rewrite Nat.add_0_l in Hfail.
  intros x Hx. apply (Hfail He x) in Hx. cbn in Hx. exact Hx.
Qed.

(** The theorem at a broker whose second request fails. *)
Lemma perform_lightcurve_queries_returns_witness :
  ∃ st, perform_lightcurve_queries str_of_value (lightcurves_fail_at 1) read_back_text
          (Some "token") 10 ∅ five_ids 3 = Ok st.
Proof.
  destruct (perform_lightcurve_queries_returns str_of_value
              (lightcurves_fail_at 1) read_back_text 10 ∅ five_ids 3) as [_ Hret].
  destruct (Hret ltac:(lia) (answers_processable_fail_at _ 1) "token")
    as (st & Hst & _).
  exists st. exact Hst.
Defined.

(** * Proofs: saving alerts *)

Section Alerts.

Variable time_isot : option string → value → time_outcome.
Variable now_isot : nat → string.

(** An alert without any of the four date keys has no date to convert. *)
Lemma in_range_objectId_only (oid : value) :
  in_range time_isot {[ "objectId" := oid ]}.
Proof.
  intros e. unfold alert_time, has_key.
  rewrite !bool_decide_eq_false_2; [done|..];
    rewrite lookup_singleton_ne by done; apply is_Some_None.
Qed.

Lemma _get_alert_timestamp_in_range t_ref alert :
  is_Some (alert !! "objectId") → in_range time_isot alert →
  ∃ timestamp, _get_alert_timestamp time_isot t_ref alert = Ok timestamp.
Proof.
  intros [oid Ho] Hin. unfold _get_alert_timestamp, dict_getitem. rewrite Ho. cbn.
  destruct (alert_time time_isot alert) as [[e|e|s]|] eqn:Ht; try by eauto.
  by destruct (Hin e).
Qed.

(** The ways through the body of the loop when alerts are saved. *)
Lemma process_alert_no_objectId k alert store :
  alert !! "objectId" = None →
  process_alert time_isot now_isot k true alert store = Raise (KeyError "objectId").
Proof.
  intros Ho. unfold process_alert, _get_alert_timestamp, dict_getitem.
  by rewrite Ho.
Qed.

Lemma process_alert_no_candid k alert store :
  is_Some (alert !! "objectId") → in_range time_isot alert →
  alert !! "candid" = None →
  process_alert time_isot now_isot k true alert store = Raise (KeyError "candid").
Proof.
  intros Ho Hin Hc. unfold process_alert.
  destruct (_get_alert_timestamp_in_range (now_isot k) alert Ho Hin) as [ts ->].
  cbn. unfold dict_getitem. rewrite lookup_insert_ne by done. by rewrite Hc.
Qed.

Lemma process_alert_saved k alert store candid :
  is_Some (alert !! "objectId") → in_range time_isot alert →
  alert !! "candid" = Some candid →
  ∃ alert',
    process_alert time_isot now_isot k true alert store
      = Ok (alert', ((dict_get alert "objectId", candid), alert') :: store)
    ∧ alert' !! "candid" = Some candid.
Proof.
  intros Ho Hin Hc. unfold process_alert.
  destruct (_get_alert_timestamp_in_range (now_isot k) alert Ho Hin) as [ts ->].
  cbn. unfold dict_getitem. rewrite lookup_insert_ne by done. rewrite Hc. cbn.
  eexists. split; [reflexivity|]. by rewrite lookup_insert_ne.
Qed.

Lemma process_alert_cases k alert store :
  (∃ e, process_alert time_isot now_isot k true alert store = Raise e)
  ∨ (∃ alert' candid,
       process_alert time_isot now_isot k true alert store
         = Ok (alert', ((dict_get alert "objectId", candid), alert') :: store)
       ∧ alert' !! "candid" = Some candid
       ∧ alert !! "candid" = Some candid).
Proof.
  unfold process_alert.
  destruct (_get_alert_timestamp time_isot (now_isot k) alert) as [ts|e];
    [|left; by eauto].
  cbn. unfold dict_getitem. rewrite lookup_insert_ne by done.
  destruct (alert !! "candid") as [candid|] eqn:Hc; cbn; [|left; by eauto].
  right. eexists _, candid. split; [reflexivity|].
  split; [|done]. by rewrite lookup_insert_ne.
Qed.

(** Every file the loop writes holds an alert with a [candid] key and is
    named by that identifier. *)
Lemma process_alerts_written k alerts store :
  ∃ written,
    (process_alerts_loop time_isot now_isot k alerts true store).1
    = (written ++ store)%list
    ∧ ∀ file alert, (file, alert) ∈ written → alert !! "candid" = Some file.2.
Proof.
  revert k store. induction alerts as [|a alerts IH]; intros k store;
    cbn [process_alerts_loop].
  { exists []. split; [done|]. intros file alert Hin. by apply elem_of_nil in Hin. }
  destruct (process_alert_cases k a store)
    as [(e & Hp)|(a' & candid & Hp & Hc' & _)]; rewrite Hp.
  { exists []. split; [done|]. intros file alert Hin. by apply elem_of_nil in Hin. }
  destruct (IH (S k) (((dict_get a "objectId", candid), a') :: store))
    as (written & Hw & Hall).
  destruct (process_alerts_loop _ _ (S k) alerts true _) as [store'' r].
  cbn in Hw |- *.
  exists (written ++ [((dict_get a "objectId", candid), a')])%list.
  split; [by rewrite Hw, <- app_assoc|].
  intros file alert Hin. apply elem_of_app in Hin as [Hin|Hin]; [by apply Hall|].
  apply list_elem_of_singleton in Hin. by injection Hin as -> ->.
Qed.

(** An alert without [candid] anywhere in the list makes the loop
    raise. *)
Lemma process_alerts_raises k alerts store a :
  a ∈ alerts → a !! "candid" = None →
  ∃ e, (process_alerts_loop time_isot now_isot k alerts true store).2 = Raise e.
Proof.
  revert k store. induction alerts as [|b alerts IH]; intros k store Hin Hc.
  { by apply elem_of_nil in Hin. }
  cbn [process_alerts_loop].
  destruct (process_alert_cases k b store)
    as [(e & Hp)|(b' & candid & Hp & _ & Hcb)]; rewrite Hp; [by eauto|].
  apply elem_of_cons in Hin as [->|Hin]; [congruence|].
  destruct (IH (S k) (((dict_get b "objectId", candid), b') :: store) Hin Hc)
    as [e He].
  destruct (process_alerts_loop _ _ (S k) alerts true _) as [store'' r].
  cbn in He |- *. rewrite He. by eauto.
Qed.

(** The alerts before the first one without [candid] are saved, that one
    is not, and the loop ends there. *)
Lemma process_alerts_stops k pre a post store :
  Forall has_ids pre → Forall (in_range time_isot) pre →
  is_Some (a !! "objectId") → a !! "candid" = None → in_range time_isot a →
  process_alerts_loop time_isot now_isot k (pre ++ a :: post) true store
  = ((process_alerts_loop time_isot now_isot k pre true store).1,
     Raise (KeyError "candid")).
Proof.
  intros Hpre Hdates Ho Hc Hin. revert k store Hdates.
  induction Hpre as [|b pre [Hbo [candid Hbc]] _ IH]; intros k store Hdates;
    cbn [app process_alerts_loop].
  - by rewrite (process_alert_no_candid k a store Ho Hin Hc).
  - apply Forall_cons in Hdates as [Hb Hdates].
    destruct (process_alert_saved k b store candid Hbo Hb Hbc) as (b' & Hp & _).
    rewrite Hp, (IH (S k) _ Hdates).
    by destruct (process_alerts_loop _ _ (S k) pre true _) as [store'' r].
Qed.

End Alerts.

(** C10: with [save_alerts] on, [process_alerts] needs the [candid] key
    of every alert.  An alert without it makes the call raise; every
    file the call has written by then holds an alert that has the key
    and is named by it.  When the alerts before the first such alert
    have both identifiers, that alert has an [objectId], and the dates
    of these alerts convert, the call saves those before it and raises
    [KeyError('candid')] at it, without writing a file for it.  An alert
    that carries an [objectId] only has no date that could fail to
    convert. *)
Theorem process_alerts_requires_candid time_isot now_isot (clock : nat)
    (alerts : list (gmap string value)) (store : alert_store) :
  (∃ written,
     (process_alerts time_isot now_isot clock alerts true store).1
     = (written ++ store)%list
     ∧ ∀ file alert, (file, alert) ∈ written → alert !! "candid" = Some file.2)
  ∧ (∀ a, a ∈ alerts → a !! "candid" = None →
       ∃ e, (process_alerts time_isot now_isot clock alerts true store).2
            = Raise e)
  ∧ (∀ pre a post, alerts = (pre ++ a :: post)%list →
       Forall has_ids pre → Forall (in_range time_isot) pre →
       is_Some (a !! "objectId") → a !! "candid" = None →
       in_range time_isot a →
       process_alerts time_isot now_isot clock alerts true store
       = ((process_alerts time_isot now_isot clock pre true store).1,
          Raise (KeyError "candid")))
  ∧ (∀ oid, in_range time_isot {[ "objectId" := oid ]}).
Proof.
  unfold process_alerts.
  split; [apply process_alerts_written|].
  split; [intros a; apply process_alerts_raises|].
  split; [|apply in_range_objectId_only].
  intros pre a post ->. apply process_alerts_stops.
Qed.

(** The theorem at an alert with a candidate identifier followed by one
    that has an [objectId] only. *)
Lemma process_alerts_requires_candid_witness :
  ∃ saved,
    process_alerts time_isot_numbers clock_at_midnight 0
      [alert_with_candid; alert_objectId_only] true []
    = ([((VStr "ZTF21aaaaaaa", VInt 101), saved)], Raise (KeyError "candid")).
Proof.
  destruct (process_alerts_requires_candid time_isot_numbers clock_at_midnight 0
              [alert_with_candid; alert_objectId_only] [])
    as (_ & _ & Hstop & Honly).
  rewrite (Hstop [alert_with_candid] alert_objectId_only [] eq_refl).
  - eexists. vm_compute. reflexivity.
  - apply Forall_singleton. split; vm_compute; eauto.
  - apply Forall_singleton. intros e. vm_compute. discriminate.
  - vm_compute. eauto.
  - reflexivity.
  - apply Honly.
Defined.

(** * Further properties: processed lightcurves *)

#[export] Instance jd_le_total : Total jd_le.
Proof.
  intros r1 r2. unfold jd_le, jd_leb.
  destruct (as_number (dict_get r1 "jd")) as [a|],
           (as_number (dict_get r2 "jd")) as [b|]; auto.
  rewrite !Qle_bool_iff. destruct (Qlt_le_dec a b) as [Hlt|Hle]; [left|right].
  - by apply Qlt_le_weak.
  - done.
Qed.

#[export] Instance jd_le_trans : Transitive jd_le.
Proof.
  intros r1 r2 r3. unfold jd_le, jd_leb.
  destruct (as_number (dict_get r1 "jd")) as [a|],
           (as_number (dict_get r2 "jd")) as [b|],
           (as_number (dict_get r3 "jd")) as [c|]; try done.
  rewrite !Qle_bool_iff. apply Qle_trans.
Qed.

Lemma length_filter_split {A} (f : A → bool) (l : list A) :
  (length (filter (fun x => f x = true) l)
   + length (filter (fun x => f x = false) l) = length l)%nat.
Proof.
  induction l as [|x l IH]; [done|].
  destruct (f x) eqn:Hx.
  - rewrite filter_cons_True, filter_cons_False by (by rewrite Hx). cbn. lia.
  - rewrite filter_cons_False, filter_cons_True by (by rewrite Hx). cbn. lia.
Qed.

Lemma add_column_nonempty col cols : add_column col cols ≠ [].
Proof.
  unfold add_column. case_bool_decide as Hc.
  - intros ->. by apply elem_of_nil in Hc.
  - by destruct cols.
Qed.

(** The shape of a processed lightcurve: the marked rows, sorted. *)
Lemma process_lasair_lightcurve_shape py_str lc df :
  process_lasair_lightcurve py_str lc = Ok df →
  ∃ oid candidates,
    lc_objectId lc = Some oid
    ∧ lc_candidates lc = Some candidates
    ∧ df_rows df = merge_sort jd_le (marked_rows py_str oid candidates).
Proof.
  unfold process_lasair_lightcurve. intros Hp.
  destruct (lc_objectId lc) as [oid|]; [|discriminate].
  destruct (lc_candidates lc) as [candidates|]; [|discriminate].
  exists oid, candidates. split; [done|]. split; [done|].
  cbn in Hp. fold (with_candid candidates) (without_candid candidates) in Hp.
  destruct (negb _); [discriminate|].
  rewrite (mapM_result_map (mark_detection py_str) (detection_row py_str)) in Hp.
  2:{ apply Forall_forall. intros r Hr. apply mark_detection_truthy.
      by apply list_elem_of_filter in Hr as [Hr _]. }
  cbn in Hp.
  rewrite (mapM_result_map mark_non_detection non_detection_row) in Hp.
  2:{ apply Forall_forall. intros r Hr. apply mark_non_detection_falsy.
      by apply list_elem_of_filter in Hr as [Hr _]. }
  cbn in Hp. unfold marked_rows.
  revert Hp.
  generalize (map (detection_row py_str) (with_candid candidates)).
  generalize (map non_detection_row (without_candid candidates)).
  intros non_det' det' Hp.
  match type of Hp with
  | context [df_empty ?d] => destruct (df_empty d) eqn:He
  end.
  - cbn in Hp. injection Hp as <-. cbn.
    unfold df_empty in He. cbn in He.
    destruct (det' ++ non_det')%list as [|r rows]; [done|]. cbn in He.
    destruct (add_column _ _) eqn:Hcol; [|discriminate].
    by apply add_column_nonempty in Hcol.
  - cbn in Hp.
    match type of Hp with
    | context [df_getitem ?d "jd"] => destruct (df_getitem d "jd") as [jd|]
    end; [|discriminate].
    cbn in Hp. destruct (forallb valid_jd jd); [|discriminate].
    injection Hp as <-. cbn. f_equal. rewrite map_map. apply map_ext.
    intros r. unfold finish_row, dict_get. by rewrite lookup_insert_ne.
Qed.

(** A candidate without a date among candidates that have one leaves a
    null cell in the date column, which [Time] refuses: the answer
    cannot be processed. *)
Lemma process_lasair_lightcurve_missing_jd :
  process_lasair_lightcurve str_of_value lc_one_without_jd
  = Raise (ValueError "jd").
Proof. vm_compute. reflexivity. Qed.

(** X1: a processed lightcurve has one row per candidate of the broker's
    answer; every row carries the identifier of the object, and its
    [mjd] is its [jd] less 2400000.5. *)
Theorem process_lasair_lightcurve_rows_kept py_str lc df oid candidates :
  process_lasair_lightcurve py_str lc = Ok df →
  lc_objectId lc = Some oid →
  lc_candidates lc = Some candidates →
  df_len df = length candidates
  ∧ Forall (fun r => dict_get r "objectId" = VStr oid
                     ∧ dict_get r "mjd" = jd_to_mjd (dict_get r "jd"))
      (df_rows df).
Proof.
  intros Hp Ho Hc.
  destruct (process_lasair_lightcurve_shape py_str lc df Hp)
    as (oid' & candidates' & Ho' & Hc' & Hrows).
  rewrite Ho in Ho'. rewrite Hc in Hc'.
  injection Ho' as <-. injection Hc' as <-. split.
  - unfold df_len. rewrite Hrows, merge_sort_Permutation. unfold marked_rows.
    rewrite length_map, length_app, !length_map.
    apply (length_filter_split (fun r => truthy (dict_get r "candid"))).
  - rewrite Hrows, merge_sort_Permutation. unfold marked_rows.
    apply Forall_map, Forall_forall. intros r _. cbn. unfold finish_row, dict_get.
    split.
    + rewrite lookup_insert_ne by done. by rewrite lookup_insert_eq.
    + rewrite lookup_insert_eq. by rewrite !lookup_insert_ne.
Qed.

(** The theorem at a lightcurve of two detections and a non-detection. *)
Lemma process_lasair_lightcurve_rows_kept_witness :
  ∃ df, process_lasair_lightcurve str_of_value lc_two_detections = Ok df
        ∧ df_len df = 3%nat.
Proof.
  destruct (process_lasair_lightcurve str_of_value lc_two_detections)
    as [df|e] eqn:Hp.
  - exists df. split; [reflexivity|].
    by destruct (process_lasair_lightcurve_rows_kept str_of_value
                   lc_two_detections df "ZTF21abcdefg" _ Hp eq_refl eq_refl)
      as [Hlen _].
  - vm_compute in Hp. discriminate Hp.
Defined.

(** X2: the rows of a processed lightcurve are in ascending order of
    [jd], rows without a date last: every row is before all the rows
    after it. *)
Theorem process_lasair_lightcurve_sorted py_str lc df :
  process_lasair_lightcurve py_str lc = Ok df →
  StronglySorted jd_le (df_rows df).
Proof.
  intros Hp.
  destruct (process_lasair_lightcurve_shape py_str lc df Hp)
    as (oid & candidates & _ & _ & ->).
  apply StronglySorted_merge_sort; apply _.
Qed.

(** The theorem at a lightcurve of two detections and a non-detection. *)
Lemma process_lasair_lightcurve_sorted_witness :
  ∃ df, process_lasair_lightcurve str_of_value lc_two_detections = Ok df
        ∧ StronglySorted jd_le (df_rows df).
Proof.
  destruct (process_lasair_lightcurve str_of_value lc_two_detections)
    as [df|e] eqn:Hp.
  - exists df. split; [reflexivity|].
    exact (process_lasair_lightcurve_sorted str_of_value lc_two_detections df Hp).
  - vm_compute in Hp. discriminate Hp.
Defined.

Lemma frame_of_rows_no_column (rows : list (gmap string value)) (key : string) :
  Forall (fun r => r !! key = None) rows →
  key ∉ df_columns (frame_of_rows rows).
Proof.
  intros Hall Hin. cbn in Hin. apply elem_of_elements in Hin.
  apply elem_of_union_list in Hin as (d & Hd & Hk).
  apply list_elem_of_fmap in Hd as (r & -> & Hr).
  rewrite Forall_forall in Hall. apply elem_of_dom in Hk as [v Hv].
  rewrite (Hall r Hr) in Hv. discriminate.
Qed.

(** X3: when the broker's answer has candidates and none of them has a
    [jd] key, processing it raises [KeyError('jd')]: only an answer
    without candidates is given a date column. *)
Theorem process_lasair_lightcurve_no_jd py_str lc oid candidates :
  lc_objectId lc = Some oid →
  lc_candidates lc = Some candidates →
  candidates ≠ [] →
  Forall (fun r => r !! "jd" = None) candidates →
  process_lasair_lightcurve py_str lc = Raise (KeyError "jd").
Proof.
  intros Ho Hc Hne Hjd. unfold process_lasair_lightcurve. rewrite Ho, Hc. cbn.
  fold (with_candid candidates) (without_candid candidates).
  assert (Hlen : (length (with_candid candidates)
                  + length (without_candid candidates) = length candidates)%nat)
    by apply (length_filter_split (fun r => truthy (dict_get r "candid"))).
  rewrite (proj2 (Nat.eqb_eq _ _) Hlen). cbn.
  rewrite (mapM_result_map (mark_detection py_str) (detection_row py_str)).
  2:{ apply Forall_forall. intros r Hr. apply mark_detection_truthy.
      by apply list_elem_of_filter in Hr as [Hr _]. }
  cbn.
  rewrite (mapM_result_map mark_non_detection non_detection_row).
  2:{ apply Forall_forall. intros r Hr. apply mark_non_detection_falsy.
      by apply list_elem_of_filter in Hr as [Hr _]. }
  cbn.
  assert (Hdet : Forall (fun r => r !! "jd" = None)
                   (map (detection_row py_str) (with_candid candidates))).
  { apply Forall_map, Forall_forall. intros r Hr.
    apply list_elem_of_filter in Hr as [_ Hr].
    rewrite Forall_forall in Hjd. cbn. unfold detection_row.
    rewrite !lookup_insert_ne by done. by apply Hjd. }
  assert (Hnon : Forall (fun r => r !! "jd" = None)
                   (map non_detection_row (without_candid candidates))).
  { apply Forall_map, Forall_forall. intros r Hr.
    apply list_elem_of_filter in Hr as [_ Hr].
    rewrite Forall_forall in Hjd. cbn. unfold non_detection_row.
    rewrite !lookup_insert_ne by done. by apply Hjd. }
  apply frame_of_rows_no_column in Hdet, Hnon.
  assert (Hrows : (map (detection_row py_str) (with_candid candidates)
                   ++ map non_detection_row (without_candid candidates))%list ≠ []).
  { intros Hnil. apply (f_equal length) in Hnil.
    rewrite length_app, !length_map, Hlen in Hnil.
    by destruct candidates. }
  revert Hdet Hnon Hrows.
  generalize (map (detection_row py_str) (with_candid candidates)).
  generalize (map non_detection_row (without_candid candidates)).
  intros non_det' det' Hdet Hnon Hrows.
  assert (Hcol : "jd" ∉ df_columns
            (df_set_scalar "objectId" (VStr oid)
               (df_concat (frame_of_rows det') (frame_of_rows non_det')))).
  { cbn [df_set_scalar df_columns df_concat]. unfold add_column.
    intros Hin.
    assert (Hin' : "jd" ∈ (df_columns (frame_of_rows det') ++
                     filter (fun c => c ∉ df_columns (frame_of_rows det'))
                       (df_columns (frame_of_rows non_det')))%list).
    { case_bool_decide; [done|].
      apply elem_of_app in Hin as [Hin|Hin]; [done|].
      by apply list_elem_of_singleton in Hin. }
    apply elem_of_app in Hin' as [Hin'|Hin']; [done|].
    by apply list_elem_of_filter in Hin' as [_ Hin']. }
  assert (Hemp : df_empty
            (df_set_scalar "objectId" (VStr oid)
               (df_concat (frame_of_rows det') (frame_of_rows non_det'))) = false).
  { unfold df_empty. cbn [df_set_scalar df_rows df_columns df_concat frame_of_rows].
    destruct (det' ++ non_det')%list as [|r rows]; [done|]. cbn [map].
    destruct (add_column _ _) eqn:Hadd; [|done].
    by apply add_column_nonempty in Hadd. }
  rewrite Hemp. by rewrite (df_getitem_no_column _ _ Hcol).
Qed.

(** The theorem at an answer of one candidate without a date. *)
Lemma process_lasair_lightcurve_no_jd_witness :
  process_lasair_lightcurve str_of_value lc_without_jd = Raise (KeyError "jd").
Proof.
  apply (process_lasair_lightcurve_no_jd str_of_value lc_without_jd
           "ZTF21abcdefg" _ eq_refl eq_refl); [done|].
  apply Forall_singleton. reflexivity.
Defined.
(** * Further properties: alert timestamps and saved alerts *)

Section MoreAlerts.

Variable time_isot : option string → value → time_outcome.
Variable now_isot : nat → string.

(** What a turn of the loop that comes to its end has done. *)
Lemma process_alert_enriched k save_alerts alert store alert' store' :
  process_alert time_isot now_isot k save_alerts alert store = Ok (alert', store') →
  (∃ timestamp,
     _get_alert_timestamp time_isot (now_isot k) alert = Ok timestamp
     ∧ alert' = <["alert_timestamp" := VStr timestamp]> alert)
  ∧ is_Some (alert !! "objectId")
  ∧ store' = if save_alerts then alert_file_entry alert' :: store else store.
Proof.
  unfold process_alert. intros Hp.
  destruct (alert !! "objectId") as [oid|] eqn:Ho.
  2:{ unfold _get_alert_timestamp, dict_getitem in Hp. by rewrite Ho in Hp. }
  destruct (_get_alert_timestamp time_isot (now_isot k) alert) as [ts|];
    [|discriminate].
  cbn in Hp. destruct save_alerts.
  - unfold dict_getitem in Hp.
    destruct (<["alert_timestamp":=VStr ts]> alert !! "candid") as [candid|] eqn:Hc;
      [|discriminate].
    cbn in Hp. injection Hp as <- <-.
    split; [by exists ts|]. split; [by eauto|].
    unfold alert_file_entry, dict_get. rewrite Hc. cbn.
    by rewrite lookup_insert_ne.
  - injection Hp as <- <-. split; [by exists ts|]. by eauto.
Qed.

(** What a call writes does not depend on what the store holds. *)
Lemma process_alert_store k save_alerts alert store :
  process_alert time_isot now_isot k save_alerts alert store
  = match process_alert time_isot now_isot k save_alerts alert [] with
    | Ok (alert', written) => Ok (alert', (written ++ store)%list)
    | Raise e => Raise e
    end.
Proof.
  unfold process_alert.
  destruct (_get_alert_timestamp time_isot (now_isot k) alert) as [ts|]; [|done].
  cbn. destruct save_alerts; [|done].
  by destruct (dict_getitem _ "candid").
Qed.

Lemma process_alerts_app k save_alerts l1 l2 store :
  process_alerts_loop time_isot now_isot k (l1 ++ l2)%list save_alerts store
  = match process_alerts_loop time_isot now_isot k l1 save_alerts store with
    | (store1, Raise e) => (store1, Raise e)
    | (store1, Ok out1) =>
        let '(store2, r) :=
          process_alerts_loop time_isot now_isot (k + length l1) l2
            save_alerts store1 in
        (store2, out2 ← r; Ok (out1 ++ out2)%list)
    end.
Proof.
  revert k store. induction l1 as [|a l1 IH]; intros k store;
    cbn [app process_alerts_loop length].
  - rewrite Nat.add_0_r.
    by destruct (process_alerts_loop time_isot now_isot k l2 save_alerts store)
      as [s [o|e]].
  - destruct (process_alert time_isot now_isot k save_alerts a store)
      as [[a' s']|e]; [|done].
    rewrite IH. replace (S k + length l1)%nat with (k + S (length l1))%nat by lia.
    destruct (process_alerts_loop time_isot now_isot (S k) l1 save_alerts s')
      as [s1 [o1|e1]]; [|done].
    by destruct (process_alerts_loop time_isot now_isot (k + S (length l1)) l2
                   save_alerts s1) as [s2 [o2|e2]].
Qed.

Lemma process_alerts_ok k save_alerts alerts store store' out :
  process_alerts_loop time_isot now_isot k alerts save_alerts store
  = (store', Ok out) →
  Forall2 enriched alerts out
  ∧ store' = if save_alerts
             then (reverse (map alert_file_entry out) ++ store)%list
             else store.
Proof.
  revert k store store' out. induction alerts as [|a alerts IH];
    intros k store store' out Hp; cbn [process_alerts_loop] in Hp.
  { injection Hp as <- <-. split; [constructor|]. by destruct save_alerts. }
  destruct (process_alert time_isot now_isot k save_alerts a store)
    as [[a' s1]|e] eqn:Ha; [|discriminate].
  apply process_alert_enriched in Ha as ((ts & _ & Hen) & _ & Hs1).
  destruct (process_alerts_loop time_isot now_isot (S k) alerts save_alerts s1)
    as [s2 [o2|e2]] eqn:Hrest; [|discriminate].
  cbn in Hp. injection Hp as <- <-.
  apply IH in Hrest as [Hall Hs2]. split; [constructor; [by exists ts|done]|].
  rewrite Hs2, Hs1. destruct save_alerts; [|done].
  cbn [map]. rewrite reverse_cons, <- app_assoc. done.
Qed.

(** The loop comes to its end when every alert has the keys it reads
    and a date that converts. *)
Lemma process_alerts_returns k save_alerts alerts store :
  Forall (fun a => is_Some (a !! "objectId")) alerts →
  Forall (in_range time_isot) alerts →
  (save_alerts = true → Forall (fun a => is_Some (a !! "candid")) alerts) →
  ∃ out, (process_alerts_loop time_isot now_isot k alerts save_alerts store).2
         = Ok out.
Proof.
  intros Hids. revert k store.
  induction Hids as [|a alerts Ha _ IH]; intros k store Hdates Hcand;
    [by exists []|].
  apply Forall_cons in Hdates as [Hdate Hdates].
  cbn [process_alerts_loop]. unfold process_alert.
  destruct (_get_alert_timestamp_in_range time_isot (now_isot k) a Ha Hdate)
    as [ts ->].
  cbn.
  assert (Hrest : save_alerts = true →
            Forall (fun a => is_Some (a !! "candid")) alerts).
  { intros Hs. specialize (Hcand Hs). by apply Forall_cons in Hcand as [_ Hrest]. }
  destruct save_alerts.
  - assert (is_Some (a !! "candid")) as [candid Hc].
    { specialize (Hcand eq_refl). by apply Forall_cons in Hcand as [Hc _]. }
    unfold dict_getitem. rewrite lookup_insert_ne by done. rewrite Hc. cbn.
    destruct (IH (S k)
                ((get_alert_file (dict_get a "objectId") candid,
                  <["alert_timestamp" := VStr ts]> a) :: store) Hdates Hrest)
      as [out Hout].
    destruct (process_alerts_loop time_isot now_isot (S k) alerts true _)
      as [s2 r].
    cbn in Hout |- *. rewrite Hout. by eauto.
  - destruct (IH (S k) store Hdates Hrest) as [out Hout].
    destruct (process_alerts_loop time_isot now_isot (S k) alerts false store)
      as [s2 r].
    cbn in Hout |- *. rewrite Hout. by eauto.
Qed.

(** The timestamp of an alert at another reading of the clock. *)
Lemma _get_alert_timestamp_again t_ref t_ref' alert timestamp :
  _get_alert_timestamp time_isot t_ref alert = Ok timestamp →
  ∃ timestamp',
    _get_alert_timestamp time_isot t_ref' alert = Ok timestamp'
    ∧ (dated time_isot alert → timestamp' = timestamp).
Proof.
  unfold _get_alert_timestamp, dated.
  destruct (dict_getitem alert "objectId") as [oid|]; [|discriminate]. cbn.
  destruct (alert_time time_isot alert) as [[e|e|s]|]; try discriminate.
  - intros [= <-]. exists t_ref'. split; [done|]. by intros [? [=]].
  - intros [= <-]. by exists s.
  - intros [= <-]. exists t_ref'. split; [done|]. by intros [? [=]].
Qed.

(** A second pass over alerts that were saved saves them again, under
    the same names, with at most another timestamp. *)
Lemma process_alerts_again k k' alerts store store1 store' out :
  process_alerts_loop time_isot now_isot k alerts true store = (store1, Ok out) →
  ∃ out',
    process_alerts_loop time_isot now_isot k' alerts true store'
    = ((reverse (map alert_file_entry out') ++ store')%list, Ok out')
    ∧ Forall2 (fun e e' => e'.1 = e.1 ∧ same_but_timestamp e'.2 e.2)
        (map alert_file_entry out) (map alert_file_entry out')
    ∧ (Forall (dated time_isot) alerts → out' = out).
Proof.
  revert k k' store store1 store' out. induction alerts as [|a alerts IH];
    intros k k' store store1 store' out Hp; cbn [process_alerts_loop] in Hp |- *.
  { injection Hp as <- <-. exists []. split; [done|]. split; [constructor|done]. }
  destruct (process_alert time_isot now_isot k true a store)
    as [[a1 s1]|e] eqn:Ha; [|discriminate].
  destruct (process_alerts_loop time_isot now_isot (S k) alerts true s1)
    as [s2 [o2|e2]] eqn:Hrest; [|discriminate].
  cbn in Hp. injection Hp as <- <-.
  pose proof Ha as Ha'.
  apply process_alert_enriched in Ha' as ((ts & Hts & ->) & Ho & ->).
  destruct (_get_alert_timestamp_again _ (now_isot k') _ _ Hts)
    as (ts' & Hts' & Hsame).
  assert (Hc : is_Some (a !! "candid")).
  { unfold process_alert in Ha. rewrite Hts in Ha. cbn in Ha.
    unfold dict_getitem in Ha. rewrite lookup_insert_ne in Ha by done.
    destruct (a !! "candid"); [by eauto|discriminate]. }
  destruct Hc as [candid Hc].
  unfold process_alert at 1. rewrite Hts'. cbn.
  unfold dict_getitem. rewrite lookup_insert_ne by done. rewrite Hc. cbn.
  destruct (IH (S k) (S k') _ _
              ((get_alert_file (dict_get a "objectId") candid,
                <["alert_timestamp" := VStr ts']> a) :: store') _ Hrest)
    as (o2' & -> & Hall & Heq).
  exists (<["alert_timestamp" := VStr ts']> a :: o2'). split.
  { cbn [map]. rewrite reverse_cons, <- app_assoc. cbn.
    do 3 f_equal. unfold alert_file_entry, dict_get.
    rewrite !lookup_insert_ne by done. by rewrite Hc. }
  split.
  { cbn [map]. constructor; [|done]. unfold alert_file_entry, dict_get. cbn.
    rewrite !lookup_insert_ne by done. split; [done|].
    unfold same_but_timestamp. by rewrite !delete_insert_eq. }
  intros Hdated. apply Forall_cons in Hdated as [Hd Hdated].
  by rewrite (Hsame Hd), (Heq Hdated).
Qed.

End MoreAlerts.

Lemma read_alert_file_app (written store : alert_store) (name : value * value) :
  read_alert_file (written ++ store)%list name
  = match read_alert_file written name with
    | Some alert => Some alert
    | None => read_alert_file store name
    end.
Proof.
  induction written as [|[name' alert] written IH]; [done|].
  cbn. by destruct (decide (name' = name)).
Qed.

(** Two sequences of writes under the same names leave files that are
    related as the writes are. *)
Lemma read_alert_file_related (R : relation (gmap string value))
    (written written' : alert_store) (name : value * value) :
  Forall2 (fun e e' => e'.1 = e.1 ∧ R e'.2 e.2) written written' →
  match read_alert_file written' name, read_alert_file written name with
  | Some a', Some a => R a' a
  | None, None => True
  | _, _ => False
  end.
Proof.
  induction 1 as [|[n a] [n' a'] written written' [Hn Ha] _ IH]; [done|].
  cbn in Hn, Ha |- *. subst n'. by destruct (decide (n = name)).
Qed.



(** X5: without [save_alerts], [process_alerts] writes no file.  It
    returns when every alert has an [objectId] key and a date that
    converts, and then hands back the alerts in their order, each with
    the key [alert_timestamp] added and nothing else changed. *)
Theorem process_alerts_without_saving time_isot now_isot (clock : nat)
    (alerts : list (gmap string value)) (store : alert_store) :
  (process_alerts time_isot now_isot clock alerts false store).1 = store
  ∧ (Forall (fun a => is_Some (a !! "objectId")) alerts →
     Forall (in_range time_isot) alerts →
     ∃ out, (process_alerts time_isot now_isot clock alerts false store).2 = Ok out
            ∧ Forall2 enriched alerts out).
Proof.
  unfold process_alerts. split.
  - generalize (S clock). intros k. revert k store.
    induction alerts as [|a alerts IH]; intros k store; [done|].
    cbn [process_alerts_loop].
    destruct (process_alert time_isot now_isot k false a store)
      as [[a' s1]|e] eqn:Ha; [|done].
    apply process_alert_enriched in Ha as (_ & _ & ->).
    specialize (IH (S k) store).
    by destruct (process_alerts_loop time_isot now_isot (S k) alerts false store)
      as [s2 r].
  - intros Hids Hdates.
    destruct (process_alerts_returns time_isot now_isot (S clock) false alerts
                store Hids Hdates) as [out Hout]; [done|].
    exists out. split; [done|].
    destruct (process_alerts_loop time_isot now_isot (S clock) alerts false store)
      as [s' r] eqn:Hp.
    cbn in Hout. subst r. by apply process_alerts_ok in Hp as [Hen _].
Qed.

(** The theorem at two alerts, one of them without [candid]. *)
Lemma process_alerts_without_saving_witness :
  ∃ out, (process_alerts time_isot_numbers clock_at_midnight 0
            [alert_with_candid; alert_objectId_only] false []).2 = Ok out
         ∧ Forall2 enriched [alert_with_candid; alert_objectId_only] out.
Proof.
  destruct (process_alerts_without_saving time_isot_numbers clock_at_midnight 0
              [alert_with_candid; alert_objectId_only] []) as [_ Hret].
  apply Hret.
  - repeat constructor; vm_compute; eauto.
  - repeat constructor; intros e; vm_compute; discriminate.
Defined.

(** X6: with [save_alerts], when every alert has the keys [objectId] and
    [candid] and a date that converts, [process_alerts] returns the
    enriched alerts and has written one file per alert, in the order of
    the alerts, named by the pair of identifiers of the alert and
    holding the enriched alert. *)
Theorem process_alerts_saves_all time_isot now_isot (clock : nat)
    (alerts : list (gmap string value)) (store : alert_store) :
  Forall has_ids alerts →
  Forall (in_range time_isot) alerts →
  ∃ out,
    process_alerts time_isot now_isot clock alerts true store
    = ((reverse (map alert_file_entry out) ++ store)%list, Ok out)
    ∧ Forall2 enriched alerts out.
Proof.
  intros Hall Hdates. unfold process_alerts.
  destruct (process_alerts_returns time_isot now_isot (S clock) true alerts store)
    as [out Hout].
  { eapply Forall_impl; [exact Hall|]. by intros a [Ho _]. }
  { done. }
  { intros _. eapply Forall_impl; [exact Hall|]. by intros a [_ Hc]. }
  exists out.
  destruct (process_alerts_loop time_isot now_isot (S clock) alerts true store)
    as [s' r] eqn:Hp.
  cbn in Hout. subst r.
  by apply process_alerts_ok in Hp as [Hen ->].
Qed.

(** The theorem at one alert with both identifiers. *)
Lemma process_alerts_saves_all_witness :
  ∃ out,
    process_alerts time_isot_numbers clock_at_midnight 0
      [alert_with_candid] true []
    = (reverse (map alert_file_entry out), Ok out).
Proof.
  destruct (process_alerts_saves_all time_isot_numbers clock_at_midnight 0
              [alert_with_candid] []) as (out & Hout & _).
  - apply Forall_singleton. split; vm_compute; eauto.
  - apply Forall_singleton. intros e. vm_compute. discriminate.
  - exists out. by rewrite app_nil_r in Hout.
Defined.

(** X7: saving again rewrites the files in place.  After the same alerts
    are processed twice in a row, the store has the files it has after
    they are processed once, under the same names; a file holds the
    same alert, with at most another [alert_timestamp], since an alert
    without a date of its own is stamped with the clock as read in the
    later turn.  When every alert has a date of its own, every file
    reads exactly as after one pass. *)
Theorem process_alerts_twice time_isot now_isot (clock : nat)
    (alerts : list (gmap string value)) (store : alert_store)
    (name : value * value) :
  option_Forall2 same_but_timestamp
    (read_alert_file
       (process_alerts time_isot now_isot clock (alerts ++ alerts)%list true
          store).1 name)
    (read_alert_file
       (process_alerts time_isot now_isot clock alerts true store).1 name)
  ∧ (Forall (dated time_isot) alerts →
     read_alert_file
       (process_alerts time_isot now_isot clock (alerts ++ alerts)%list true
          store).1 name
     = read_alert_file
         (process_alerts time_isot now_isot clock alerts true store).1 name).
Proof.
  unfold process_alerts. rewrite process_alerts_app.
  assert (Hrefl : ∀ o : option (gmap string value),
            option_Forall2 same_but_timestamp o o).
  { intros [a|]; by constructor. }
  destruct (process_alerts_loop time_isot now_isot (S clock) alerts true store)
    as [s1 [out1|e1]] eqn:Hp; [|by split].
  destruct (process_alerts_again time_isot now_isot (S clock)
              (S clock + length alerts) alerts store s1 s1 out1 Hp)
    as (out2 & -> & Hrel & Heq).
  apply process_alerts_ok in Hp as [_ ->]. cbn [fst]. split.
  - apply Forall2_reverse in Hrel.
    pose proof (read_alert_file_related same_but_timestamp _ _ name Hrel) as Hr.
    rewrite !read_alert_file_app.
    destruct (read_alert_file (reverse (map alert_file_entry out2)) name),
      (read_alert_file (reverse (map alert_file_entry out1)) name);
      first [done | by constructor | apply Hrefl].
  - intros Hdated. rewrite (Heq Hdated). rewrite !read_alert_file_app.
    by destruct (read_alert_file (reverse (map alert_file_entry out1)) name).
Qed.

(** The theorem at an alert with a date of its own. *)
Lemma process_alerts_twice_witness :
  read_alert_file
    (process_alerts time_isot_numbers clock_at_midnight 0
       ([alert_with_candid] ++ [alert_with_candid])%list true []).1
    (VStr "ZTF21aaaaaaa", VInt 101)
  = read_alert_file
      (process_alerts time_isot_numbers clock_at_midnight 0
         [alert_with_candid] true []).1
      (VStr "ZTF21aaaaaaa", VInt 101).
Proof.
  apply (process_alerts_twice time_isot_numbers clock_at_midnight 0
           [alert_with_candid] [] (VStr "ZTF21aaaaaaa", VInt 101)).
  apply Forall_singleton. exists "2021-01-01T00:00:00.000".
  vm_compute. reflexivity.
Defined.

(** * Further properties: new targets from alerts *)

Section NewTargets.

Variable sky_coord : float → float → result SkyCoord.

Lemma target_from_lasair_alert_objectId alert :
  match target_from_lasair_alert sky_coord alert with
  | Ok out => objectId (new_target out) = alert_objectId alert
              ∧ alert_objectId alert ≠ VNone
  | Raise e => e = MissingObjectIdError ∧ alert_objectId alert = VNone
  end.
Proof.
  unfold target_from_lasair_alert, alert_objectId.
  destruct (guess_coordinates alert default_coordinate_guesses VNone VNone)
    as [r d].
  destruct (dict_get alert "objectId") eqn:Ho; cbn; done.
Qed.

(** A target that is in the lookup stays in it, unchanged. *)
Lemma new_targets_loop_keeps alerts acc targets s t :
  targets !! s = Some t →
  (new_targets_loop sky_coord alerts acc targets).1 !! s = Some t.
Proof.
  revert acc targets. induction alerts as [|a alerts IH]; intros acc targets Hs;
    cbn [new_targets_loop]; [done|].
  destruct (lookup_target targets (dict_get a "objectId")) as [t'|] eqn:Hl;
    [by apply IH|].
  pose proof (target_from_lasair_alert_objectId a) as Hout.
  destruct (target_from_lasair_alert sky_coord a) as [out|e]; [|done].
  destruct Hout as [Hoid _]. apply IH. unfold add_target. rewrite Hoid.
  unfold alert_objectId. destruct (dict_get a "objectId") as [| | | |s']; try done.
  cbn in Hl. rewrite lookup_insert_ne; [done|]. intros ->. congruence.
Qed.

Lemma new_targets_loop_returns alerts acc targets targets' nt :
  new_targets_loop sky_coord alerts acc targets = (targets', Ok nt) →
  ∃ add ex,
    added nt = (added acc ++ add)%list
    ∧ existing nt = (existing acc ++ ex)%list
    ∧ (add ++ ex)%list ≡ₚ map alert_objectId alerts
    ∧ (∀ s, VStr s ∈ add → targets !! s = None ∧ is_Some (targets' !! s))
    ∧ (∀ v, v ∈ ex → ∃ s, v = VStr s ∧ is_Some (targets' !! s))
    ∧ (Forall has_string_id alerts → NoDup add)
    ∧ Forall (fun a => alert_objectId a ≠ VNone) alerts.
Proof.
  revert acc targets. induction alerts as [|a alerts IH]; intros acc targets Hl;
    cbn [new_targets_loop] in Hl.
  { injection Hl as <- <-. exists [], []. rewrite !app_nil_r.
    split; [done|]. split; [done|]. split; [done|].
    split; [intros s Hin; by apply elem_of_nil in Hin|].
    split; [intros v Hin; by apply elem_of_nil in Hin|].
    split; [intros _; constructor|constructor]. }
  fold (alert_objectId a) in Hl.
  destruct (lookup_target targets (alert_objectId a)) as [t|] eqn:Hlook.
  - pose proof Hl as Hrun.
    apply IH in Hl as (add & ex & Ha & He & Hperm & Hadd & Hex & Hnd & Hall).
    cbn in Ha, He.
    assert (Hstr : ∃ s, alert_objectId a = VStr s ∧ targets !! s = Some t).
    { unfold lookup_target in Hlook.
      destruct (alert_objectId a) as [| | | |s]; try done. by eauto. }
    destruct Hstr as (s & Hs & Hts).
    exists add, (alert_objectId a :: ex). split; [done|].
    split; [by rewrite He, <- app_assoc|].
    split; [cbn [map]; by rewrite <- Hperm, Permutation_middle|].
    split; [done|]. split.
    { intros v Hv. apply elem_of_cons in Hv as [->|Hv]; [|by apply Hex].
      exists s. split; [done|]. exists t.
      pose proof (new_targets_loop_keeps alerts
                    {| added := added acc;
                       existing := (existing acc ++ [alert_objectId a])%list |}
                    targets s t Hts) as Hk.
      by rewrite Hrun in Hk. }
    split.
    { intros Hstrs. apply Hnd. by apply Forall_inv_tail in Hstrs. }
    constructor; [by rewrite Hs|done].
  - pose proof (target_from_lasair_alert_objectId a) as Hout.
    destruct (target_from_lasair_alert sky_coord a) as [out|e]; [|discriminate].
    destruct Hout as [Hoid Hnn].
    pose proof Hl as Hrun.
    apply IH in Hl as (add & ex & Ha & He & Hperm & Hadd & Hex & Hnd & Hall).
    cbn in Ha, He.
    exists (alert_objectId a :: add), ex.
    split; [by rewrite Ha, <- app_assoc|]. split; [done|].
    split; [cbn [map app]; by rewrite Hperm|].
    assert (Hfresh : ∀ s, alert_objectId a = VStr s →
              targets !! s = None
              ∧ add_target (new_target out) targets !! s = Some (new_target out)).
    { intros s Hs. unfold add_target. rewrite Hoid, Hs.
      rewrite lookup_insert_eq. split; [|done].
      unfold lookup_target in Hlook. by rewrite Hs in Hlook. }
    split.
    { intros s Hs. apply elem_of_cons in Hs as [Hs|Hs].
      - destruct (Hfresh s (eq_sym Hs)) as [Hnone Hin]. split; [done|].
        exists (new_target out).
        pose proof (new_targets_loop_keeps alerts
                      {| added := (added acc ++ [alert_objectId a])%list;
                         existing := existing acc |}
                      _ s _ Hin) as Hk.
        by rewrite Hrun in Hk.
      - destruct (Hadd s Hs) as [Hnone Hsome]. split; [|done].
        unfold add_target in Hnone. rewrite Hoid in Hnone.
        destruct (alert_objectId a) as [| | | |s'] eqn:Hs'; try done.
        destruct (decide (s' = s)) as [->|Hne].
        + by rewrite lookup_insert_eq in Hnone.
        + by rewrite lookup_insert_ne in Hnone. }
    split; [done|]. split.
    { intros Hstrs. apply Forall_cons in Hstrs as [[s Hs] Hstrs].
      constructor; [|by apply Hnd].
      rewrite Hs. intros Hin. destruct (Hadd s Hin) as [Hnone _].
      destruct (Hfresh s Hs) as [_ Hin']. congruence. }
    by constructor.
Qed.

End NewTargets.

(** X8: when [new_targets_from_alerts] returns, the identifiers of the
    alerts are shared out between the two lists: together the lists are
    a rearrangement of the identifiers of the alerts.  An added
    identifier was not in the lookup and is in it afterwards; an
    existing identifier is in the lookup. *)
Theorem new_targets_from_alerts_lists sky_coord
    (alerts : list (gmap string value)) (targets targets' : gmap string Target)
    (nt : new_targets) :
  new_targets_from_alerts sky_coord alerts targets = (targets', Ok nt) →
  (added nt ++ existing nt)%list ≡ₚ map alert_objectId alerts
  ∧ (∀ s, VStr s ∈ added nt → targets !! s = None ∧ is_Some (targets' !! s))
  ∧ (∀ v, v ∈ existing nt → ∃ s, v = VStr s ∧ is_Some (targets' !! s)).
Proof.
  intros Hn. unfold new_targets_from_alerts in Hn.
  apply new_targets_loop_returns in Hn
    as (add & ex & Ha & He & Hperm & Hadd & Hex & _ & _).
  cbn in Ha, He. subst add ex. done.
Qed.

(** The theorem at three alerts, two of them of one object. *)
Lemma new_targets_from_alerts_lists_witness :
  ∃ targets' nt,
    new_targets_from_alerts sky_coord_numbers alerts_of_two_objects ∅
    = (targets', Ok nt)
    ∧ added nt = [VStr "ZTF21aaaaaaa"; VStr "ZTF21aaaaaab"]
    ∧ existing nt = [VStr "ZTF21aaaaaaa"]
    ∧ (added nt ++ existing nt)%list ≡ₚ map alert_objectId alerts_of_two_objects.
Proof.
  destruct (new_targets_from_alerts sky_coord_numbers alerts_of_two_objects ∅)
    as [targets' [nt|e]] eqn:Hn.
  - exists targets', nt. split; [reflexivity|].
    destruct (new_targets_from_alerts_lists _ _ _ _ _ Hn) as [Hperm _].
    vm_compute in Hn. injection Hn as _ <-.
    split; [reflexivity|]. split; [reflexivity|]. exact Hperm.
  - vm_compute in Hn. discriminate Hn.
Defined.

(** X9: [new_targets_from_alerts] never replaces or removes a target:
    whether it returns or raises, every target that was in the lookup is
    still there, unchanged. *)
Theorem new_targets_from_alerts_keeps sky_coord
    (alerts : list (gmap string value)) (targets : gmap string Target)
    (s : string) (t : Target) :
  targets !! s = Some t →
  (new_targets_from_alerts sky_coord alerts targets).1 !! s = Some t.
Proof. apply new_targets_loop_keeps. Qed.

(** The theorem at a lookup that holds the object of the first alert. *)
Lemma new_targets_from_alerts_keeps_witness :
  (new_targets_from_alerts sky_coord_numbers alerts_of_two_objects
     {[ "ZTF21aaaaaaa" := target_with_lightcurve ]}).1 !! "ZTF21aaaaaaa"
  = Some target_with_lightcurve.
Proof.
  apply (new_targets_from_alerts_keeps sky_coord_numbers alerts_of_two_objects
           {[ "ZTF21aaaaaaa" := target_with_lightcurve ]}).
  reflexivity.
Defined.

(** X10: an object that several alerts of one call name is created once.
    When the identifiers of the alerts are strings, the added list has no
    identifier twice: the later alerts of the object count as
    existing. *)
Theorem new_targets_from_alerts_added_once sky_coord
    (alerts : list (gmap string value)) (targets targets' : gmap string Target)
    (nt : new_targets) :
  Forall has_string_id alerts →
  new_targets_from_alerts sky_coord alerts targets = (targets', Ok nt) →
  NoDup (added nt).
Proof.
  intros Hstr Hn. unfold new_targets_from_alerts in Hn.
  apply new_targets_loop_returns in Hn as (add & ex & Ha & _ & _ & _ & _ & Hnd & _).
  cbn in Ha. subst add. by apply Hnd.
Qed.

Lemma alerts_of_two_objects_string_ids : Forall has_string_id alerts_of_two_objects.
Proof. repeat constructor; eexists; reflexivity. Qed.

(** The theorem at three alerts, two of them of one object. *)
Lemma new_targets_from_alerts_added_once_witness :
  ∃ targets' nt,
    new_targets_from_alerts sky_coord_numbers alerts_of_two_objects ∅
    = (targets', Ok nt)
    ∧ NoDup (added nt).
Proof.
  destruct (new_targets_from_alerts sky_coord_numbers alerts_of_two_objects ∅)
    as [targets' [nt|e]] eqn:Hn.
  - exists targets', nt. split; [reflexivity|].
    exact (new_targets_from_alerts_added_once _ _ _ _ _
             alerts_of_two_objects_string_ids Hn).
  - vm_compute in Hn. discriminate Hn.
Defined.

(** X11: an alert without an identifier stops
    [new_targets_from_alerts].  When the alerts before it name objects
    that the lookup has, so that no target is built for them, the call
    raises [MissingObjectIdError] at that alert, from
    [target_from_lasair_alert]: the lookup is as it was, and the alerts
    after it are not looked at.  A call that returns has met no alert
    without an identifier. *)
Theorem new_targets_from_alerts_missing_id sky_coord
    (targets : gmap string Target) :
  (∀ pre a post,
     Forall (known targets) pre →
     alert_objectId a = VNone →
     new_targets_from_alerts sky_coord (pre ++ a :: post)%list targets
     = (targets, Raise MissingObjectIdError))
  ∧ (∀ alerts targets' nt,
       new_targets_from_alerts sky_coord alerts targets = (targets', Ok nt) →
       Forall (fun a => alert_objectId a ≠ VNone) alerts).
Proof.
  split.
  - intros pre a post Hpre Ha. unfold new_targets_from_alerts.
    generalize {| added := []; existing := [] |}.
    induction Hpre as [|b pre [t Hb] _ IH]; intros acc;
      cbn [app new_targets_loop].
    + unfold alert_objectId in Ha. rewrite Ha. cbn.
      unfold target_from_lasair_alert. by rewrite Ha.
    + unfold alert_objectId in Hb. rewrite Hb. apply IH.
  - intros alerts targets' nt Hn. unfold new_targets_from_alerts in Hn.
    by apply new_targets_loop_returns in Hn
      as (add & ex & _ & _ & _ & _ & _ & _ & Hall).
Qed.

(** The theorem at an alert of a known object followed by an alert
    without an identifier. *)
Lemma new_targets_from_alerts_missing_id_witness :
  new_targets_from_alerts sky_coord_numbers
    [ {[ "objectId" := VStr "ZTF21abcdefg"; "topic" := VStr "lasair_fast" ]};
      {[ "topic" := VStr "lasair_fast" ]} ]
    targets_of_one_object
  = (targets_of_one_object, Raise MissingObjectIdError).
Proof.
  destruct (new_targets_from_alerts_missing_id sky_coord_numbers
              targets_of_one_object) as [Hstop _].
  apply (Hstop [ {[ "objectId" := VStr "ZTF21abcdefg";
                    "topic" := VStr "lasair_fast" ]} ]
           {[ "topic" := VStr "lasair_fast" ]} []).
  - apply Forall_singleton. vm_compute. eauto.
  - reflexivity.
Defined.

(** * Further properties: messenger updates *)

Lemma only_notified_refl t : only_notified t t.
Proof. unfold only_notified. repeat split; done. Qed.

Lemma only_notified_trans t1 t2 t3 :
  only_notified t1 t2 → only_notified t2 t3 → only_notified t1 t3.
Proof.
  unfold only_notified.
  intros (H1 & H2 & H3 & H4 & H5 & H6 & H7 & H8)
         (G1 & G2 & G3 & G4 & G5 & G6 & G7 & G8).
  repeat split; try congruence; try by etrans.
  - intros Hu. by apply G7, H7.
  - intros Hu. by apply G8, H8.
Qed.

Lemma same_targets_notified_refl o : same_targets_notified o o.
Proof. destruct o; cbn; [apply only_notified_refl|done]. Qed.

Lemma same_targets_notified_trans o1 o2 o3 :
  same_targets_notified o1 o2 → same_targets_notified o2 o3 →
  same_targets_notified o1 o3.
Proof.
  destruct o1, o2, o3; cbn; try done. apply only_notified_trans.
Qed.

Section Messenger.

Variable py_str : value → string.

(** One alert touches the target it names and no other. *)
Lemma messenger_update_step alert targets s :
  same_targets_notified (targets !! s)
    ((messenger_update py_str alert targets).1 !! s)
  ∧ (¬ names s alert →
     (messenger_update py_str alert targets).1 !! s = targets !! s).
Proof.
  unfold messenger_update, dict_getitem, names, alert_objectId, dict_get.
  destruct (alert !! "objectId") as [[| | | |s0]|]; cbn;
    try (split; [apply same_targets_notified_refl|done]).
  destruct (targets !! s0) as [t0|] eqn:Ht0; cbn;
    [|split; [apply same_targets_notified_refl|done]].
  assert (Hflag : only_notified t0 (set_send_updates true (set_updated true t0))).
  { unfold only_notified. cbn. repeat split; done. }
  assert (Hmsg : ∀ text, only_notified t0
            (append_message text (set_send_updates true (set_updated true t0)))).
  { intros text. unfold only_notified. cbn. repeat split; try done.
    by apply prefix_app_r. }
  destruct (alert !! "topic") as [topic_str|]; cbn;
    [destruct (alert !! "alert_timestamp") as [timestamp|]; cbn|].
  all: split;
    [ destruct (decide (s0 = s)) as [->|Hne];
      [ rewrite ?lookup_insert_eq, Ht0; cbn; auto
      | rewrite ?lookup_insert_ne by done; apply same_targets_notified_refl ]
    | intros Hn; rewrite ?lookup_insert_ne by congruence; done ].
Qed.

Lemma apply_messenger_updates_step alerts targets s :
  same_targets_notified (targets !! s)
    ((apply_messenger_updates py_str alerts targets).1 !! s)
  ∧ (Forall (fun a => ¬ names s a) alerts →
     (apply_messenger_updates py_str alerts targets).1 !! s = targets !! s).
Proof.
  revert targets. induction alerts as [|a alerts IH]; intros targets;
    cbn [apply_messenger_updates].
  { split; [apply same_targets_notified_refl|done]. }
  destruct (messenger_update_step a targets s) as [Hstep Hsame].
  destruct (messenger_update py_str a targets) as [targets1 [[]|e]]; cbn in *.
  - destruct (IH targets1) as [Hrest Hrest']. split.
    + by eapply same_targets_notified_trans.
    + intros Hall. apply Forall_cons in Hall as [Ha Hall].
      rewrite Hrest' by done. by apply Hsame.
  - split; [done|]. intros Hall. apply Forall_cons in Hall as [Ha _].
    by apply Hsame.
Qed.

Lemma notified_cons alert named t :
  notified py_str named
    (append_message (message_of py_str alert)
       (set_send_updates true (set_updated true t)))
  = notified py_str (alert :: named) t.
Proof.
  destruct named as [|b named]; cbn; [done|].
  by rewrite <- app_assoc.
Qed.

Lemma messenger_update_well_formed alert targets :
  has_message_keys alert →
  messenger_update py_str alert targets
  = (match alert_objectId alert with
     | VStr s =>
         match targets !! s with
         | Some t =>
             <[s := append_message (message_of py_str alert)
                      (set_send_updates true (set_updated true t))]> targets
         | None => targets
         end
     | _ => targets
     end, Ok ()).
Proof.
  intros ([oid Ho] & [topic_str Ht] & [timestamp Hts]).
  unfold messenger_update, dict_getitem, alert_objectId, message_of, dict_get.
  rewrite Ho, Ht, Hts. cbn. destruct oid as [| | | |s]; try done.
  destruct (targets !! s) as [t|]; [|done].
  by rewrite insert_insert_eq.
Qed.

Lemma apply_messenger_updates_well_formed alerts targets :
  Forall has_message_keys alerts →
  ∃ targets',
    apply_messenger_updates py_str alerts targets = (targets', Ok ())
    ∧ ∀ s, targets' !! s
           = notified py_str (filter (names s) alerts) <$> targets !! s.
Proof.
  intros Hall. revert targets.
  induction Hall as [|a alerts Ha _ IH]; intros targets;
    cbn [apply_messenger_updates].
  { exists targets. split; [done|]. intros s. by destruct (targets !! s). }
  rewrite (messenger_update_well_formed a targets Ha).
  match goal with
  | |- context [apply_messenger_updates py_str alerts ?T] =>
      destruct (IH T) as (targets' & Hrun & Hlook)
  end.
  exists targets'. split; [done|]. intros s. rewrite Hlook.
  destruct (decide (names s a)) as [Hn|Hn].
  - rewrite filter_cons_True by done. unfold names in Hn. rewrite Hn.
    destruct (targets !! s) as [t|] eqn:Ht.
    + rewrite lookup_insert_eq. cbn. by rewrite notified_cons.
    + by rewrite Ht.
  - rewrite filter_cons_False by done. unfold names in Hn.
    destruct (alert_objectId a) as [| | | |s0]; try done.
    destruct (targets !! s0) as [t0|]; [|done].
    rewrite lookup_insert_ne by congruence. done.
Qed.

End Messenger.

(** X12: [apply_messenger_updates] adds no target and removes none.
    Whether it returns or raises, all it does to a target is to set the
    flags [updated] and [send_updates] and to add messages after the old
    ones; a target that no alert names is left as it was. *)
Theorem apply_messenger_updates_touches py_str
    (alerts : list (gmap string value)) (targets : gmap string Target)
    (s : string) :
  same_targets_notified (targets !! s)
    ((apply_messenger_updates py_str alerts targets).1 !! s)
  ∧ (Forall (fun a => ¬ names s a) alerts →
     (apply_messenger_updates py_str alerts targets).1 !! s = targets !! s).
Proof. apply apply_messenger_updates_step. Qed.

(** The theorem at a lookup with a target that no alert names. *)
Lemma apply_messenger_updates_touches_witness :
  (apply_messenger_updates str_of_value alerts_of_two_objects
     {[ "ZTF21zzzzzzz" := target_with_lightcurve ]}).1 !! "ZTF21zzzzzzz"
  = Some target_with_lightcurve.
Proof.
  destruct (apply_messenger_updates_touches str_of_value alerts_of_two_objects
              {[ "ZTF21zzzzzzz" := target_with_lightcurve ]} "ZTF21zzzzzzz")
    as [_ Hsame].
  rewrite Hsame; [reflexivity|].
  repeat constructor; unfold names; vm_compute; discriminate.
Defined.

(** X13: when every alert has the keys [objectId], [topic] and
    [alert_timestamp], [apply_messenger_updates] returns.  A target
    that some alerts name is then flagged [updated] and [send_updates]
    and has one message per such alert, in the order of the alerts,
    after its old messages; alerts of unknown objects are passed
    over. *)
Theorem apply_messenger_updates_messages py_str
    (alerts : list (gmap string value)) (targets : gmap string Target) :
  Forall has_message_keys alerts →
  ∃ targets',
    apply_messenger_updates py_str alerts targets = (targets', Ok ())
    ∧ ∀ s, targets' !! s
           = notified py_str (filter (names s) alerts) <$> targets !! s.
Proof. apply apply_messenger_updates_well_formed. Qed.

Lemma alerts_with_timestamps_keys : Forall has_message_keys alerts_with_timestamps.
Proof. repeat constructor; vm_compute; eauto. Qed.

(** The theorem at three alerts, two of them of one known object. *)
Lemma apply_messenger_updates_messages_witness :
  ∃ targets' t,
    apply_messenger_updates str_of_value alerts_with_timestamps
      {[ "ZTF21aaaaaaa" := target_with_lightcurve ]} = (targets', Ok ())
    ∧ targets' !! "ZTF21aaaaaaa" = Some t
    ∧ updated t = true ∧ send_updates t = true
    ∧ length (update_messages t) = 2%nat.
Proof.
  destruct (apply_messenger_updates_messages str_of_value alerts_with_timestamps
              {[ "ZTF21aaaaaaa" := target_with_lightcurve ]}
              alerts_with_timestamps_keys) as (targets' & Hrun & Hlook).
  exists targets', (notified str_of_value
                      (filter (names "ZTF21aaaaaaa") alerts_with_timestamps)
                      target_with_lightcurve).
  split; [exact Hrun|]. split; [by rewrite Hlook|].
  vm_compute. auto.
Defined.

Lemma apply_messenger_updates_app py_str l1 l2 targets :
  apply_messenger_updates py_str (l1 ++ l2)%list targets
  = match apply_messenger_updates py_str l1 targets with
    | (targets1, Ok _) => apply_messenger_updates py_str l2 targets1
    | (targets1, Raise e) => (targets1, Raise e)
    end.
Proof.
  revert targets. induction l1 as [|a l1 IH]; intros targets;
    cbn [app apply_messenger_updates]; [done|].
  destruct (messenger_update py_str a targets) as [targets1 [[]|e]]; [|done].
  apply IH.
Qed.

(** X14: the flags are set before the message is built.  When the alerts
    before it have their keys, an alert that names a known target and
    has no [topic] key makes the call raise [KeyError('topic')]; its
    target is left flagged [updated] and [send_updates], with the
    messages of the earlier alerts and none for this one. *)
Theorem apply_messenger_updates_missing_topic py_str
    (pre post : list (gmap string value)) (a : gmap string value)
    (targets : gmap string Target) (s : string) (t : Target) :
  Forall has_message_keys pre →
  a !! "objectId" = Some (VStr s) →
  a !! "topic" = None →
  targets !! s = Some t →
  ∃ targets' t',
    apply_messenger_updates py_str (pre ++ a :: post)%list targets
    = (targets', Raise (KeyError "topic"))
    ∧ targets' !! s = Some t'
    ∧ updated t' = true ∧ send_updates t' = true
    ∧ update_messages t'
      = (update_messages t ++ map (message_of py_str) (filter (names s) pre))%list.
Proof.
  intros Hpre Ho Htopic Ht.
  destruct (apply_messenger_updates_well_formed py_str pre targets Hpre)
    as (targets1 & Hrun & Hlook).
  rewrite apply_messenger_updates_app, Hrun. cbn [apply_messenger_updates].
  unfold messenger_update, dict_getitem. rewrite Ho, Htopic.
  rewrite (Hlook s), Ht. cbn.
  eexists _, _. split; [reflexivity|]. rewrite lookup_insert_eq.
  split; [reflexivity|]. cbn. split; [done|]. split; [done|].
  destruct (filter (names s) pre); cbn; [by rewrite app_nil_r|done].
Qed.

(** The theorem at an alert without topic of a known object. *)
Lemma apply_messenger_updates_missing_topic_witness :
  ∃ targets' t',
    apply_messenger_updates str_of_value [alert_without_topic]
      {[ "ZTF21aaaaaaa" := target_with_lightcurve ]}
    = (targets', Raise (KeyError "topic"))
    ∧ targets' !! "ZTF21aaaaaaa" = Some t'
    ∧ updated t' = true ∧ send_updates t' = true
    ∧ update_messages t' = [].
Proof.
  destruct (apply_messenger_updates_missing_topic str_of_value [] []
              alert_without_topic {[ "ZTF21aaaaaaa" := target_with_lightcurve ]}
              "ZTF21aaaaaaa" target_with_lightcurve)
    as (targets' & t' & Hrun & Hlook & Hu & Hs & Hm);
    [constructor|reflexivity|reflexivity|reflexivity|].
  exists targets', t'. auto.
Defined.

(** * Further properties: listening for alerts *)

Lemma poll_topic_alerts poll topic n k new_alerts out :
  poll_topic poll topic n k new_alerts = Ok out →
  ∃ new, out = (new_alerts ++ new)%list
         ∧ (length new ≤ n)%nat
         ∧ Forall (fun a => a !! "topic" = Some (VStr topic)) new.
Proof.
  revert k new_alerts. induction n as [|n IH]; intros k new_alerts Hp;
    cbn [poll_topic] in Hp.
  { injection Hp as <-. exists []. rewrite app_nil_r. by repeat split. }
  destruct (poll k) as [[err|[data|e]]|].
  - apply IH in Hp as (new & -> & Hlen & Hall). exists new.
    repeat split; [lia|done].
  - apply IH in Hp as (new & -> & Hlen & Hall).
    exists (<["topic" := VStr topic]> data :: new).
    split; [by rewrite <- app_assoc|]. split; [cbn; lia|].
    constructor; [by rewrite lookup_insert_eq|done].
  - discriminate.
  - injection Hp as <-. exists []. rewrite app_nil_r.
    repeat split; [cbn; lia|done].
Qed.

Lemma poll_topics_alerts poll n topic_list new_alerts out :
  poll_topics poll n topic_list new_alerts = Ok out →
  ∃ new, out = (new_alerts ++ new)%list
         ∧ (length new ≤ n * length topic_list)%nat
         ∧ Forall (tagged_with topic_list) new.
Proof.
  revert new_alerts. induction topic_list as [|topic rest IH];
    intros new_alerts Hp; cbn [poll_topics] in Hp.
  { injection Hp as <-. exists []. rewrite app_nil_r.
    repeat split; [cbn; lia|done]. }
  destruct (poll_topic (poll topic) topic n 0 new_alerts) as [alerts1|e] eqn:H1;
    [|discriminate].
  cbn in Hp. apply poll_topic_alerts in H1 as (new1 & -> & Hlen1 & Hall1).
  apply IH in Hp as (new2 & -> & Hlen2 & Hall2).
  exists (new1 ++ new2)%list. split; [by rewrite app_assoc|].
  split; [rewrite length_app; cbn [length]; lia|].
  apply Forall_app. split.
  - eapply Forall_impl; [exact Hall1|]. intros a Ha. exists topic.
    split; [left|done].
  - eapply Forall_impl; [exact Hall2|]. intros a (t & Ht & Ha). exists t.
    split; [by right|done].
Qed.

Lemma poll_topics_blocks poll n topic_list new_alerts out :
  poll_topics poll n topic_list new_alerts = Ok out →
  ∃ blocks, out = (new_alerts ++ concat blocks)%list
            ∧ Forall2 (polled_from n) topic_list blocks.
Proof.
  revert new_alerts. induction topic_list as [|topic rest IH];
    intros new_alerts Hp; cbn [poll_topics] in Hp.
  { injection Hp as <-. exists []. cbn. rewrite app_nil_r.
    split; [done|constructor]. }
  destruct (poll_topic (poll topic) topic n 0 new_alerts) as [alerts1|e] eqn:H1;
    [|discriminate].
  cbn in Hp. apply poll_topic_alerts in H1 as (block & -> & Hlen & Hall).
  apply IH in Hp as (blocks & -> & Hblocks).
  exists (block :: blocks). cbn [concat]. split; [by rewrite app_assoc|].
  by constructor.
Qed.

(** X15: the alerts that [listen_for_alerts] returns come in one block
    per configured topic, in the order of the topics; a block has at
    most [n_alerts] alerts, and each of them carries under [topic] the
    topic it was polled from, whatever the payload held under that key.
    Without the [lasair] module or without a kafka configuration the
    list is empty. *)
Theorem listen_for_alerts_tagged lasair_imported config poll
    (alerts : list (gmap string value)) :
  listen_for_alerts lasair_imported config poll = Ok alerts →
  match lasair_imported, config with
  | true, Some kc =>
      (∃ blocks, alerts = concat blocks
                 ∧ Forall2 (polled_from (n_alerts kc)) (topics kc) blocks)
      ∧ (length alerts ≤ n_alerts kc * length (topics kc))%nat
      ∧ Forall (tagged_with (topics kc)) alerts
  | _, _ => alerts = []
  end.
Proof.
  unfold listen_for_alerts. destruct lasair_imported; cbn.
  - destruct config as [kc|]; [|by intros [= <-]].
    intros Hp. split.
    + apply poll_topics_blocks in Hp as (blocks & -> & Hblocks). by exists blocks.
    + by apply poll_topics_alerts in Hp as (new & -> & Hlen & Hall).
  - intros [= <-]. by destruct config.
Qed.

(** The theorem at a stream with an error, an alert and an empty poll. *)
Lemma listen_for_alerts_tagged_witness :
  ∃ alerts,
    listen_for_alerts true (Some kafka_two_topics) poll_short = Ok alerts
    ∧ (length alerts ≤ 10)%nat
    ∧ Forall (tagged_with ["lasair_fast"; "lasair_slow"]) alerts.
Proof.
  destruct (listen_for_alerts true (Some kafka_two_topics) poll_short)
    as [alerts|e] eqn:Hl.
  - exists alerts. split; [reflexivity|].
    by destruct (listen_for_alerts_tagged true (Some kafka_two_topics) poll_short
                   alerts Hl) as [_ Hrest].
  - vm_compute in Hl. discriminate Hl.
Defined.

Lemma poll_topic_agree poll poll' topic n k new_alerts :
  (∀ j, (j < n)%nat → (∀ i, (i < j)%nat → poll (k + i)%nat ≠ None) →
        poll' (k + j)%nat = poll (k + j)%nat) →
  poll_topic poll' topic n k new_alerts = poll_topic poll topic n k new_alerts.
Proof.
  revert k new_alerts. induction n as [|n IH]; intros k new_alerts Hagree;
    cbn [poll_topic]; [done|].
  assert (H0 : poll' k = poll k).
  { specialize (Hagree 0%nat). rewrite Nat.add_0_r in Hagree.
    apply Hagree; [lia|]. intros i Hi. lia. }
  rewrite H0. destruct (poll k) as [m|] eqn:Hk; [|done].
  assert (Hnext : ∀ acc, poll_topic poll' topic n (S k) acc
                         = poll_topic poll topic n (S k) acc).
  { intros acc. apply IH. intros j Hj Hsome.
    replace (S k + j)%nat with (k + S j)%nat by lia.
    apply Hagree; [lia|]. intros [|i] Hi.
    - rewrite Nat.add_0_r. by rewrite Hk.
    - replace (k + S i)%nat with (S k + i)%nat by lia. apply Hsome. lia. }
  destruct m as [err|[data|e]]; [apply Hnext|apply Hnext|done].
Qed.

Lemma poll_topics_agree poll poll' n topic_list new_alerts :
  (∀ topic, agree_until_none n (poll topic) (poll' topic)) →
  poll_topics poll' n topic_list new_alerts
  = poll_topics poll n topic_list new_alerts.
Proof.
  intros Hagree. revert new_alerts.
  induction topic_list as [|topic rest IH]; intros new_alerts;
    cbn [poll_topics]; [done|].
  rewrite (poll_topic_agree (poll topic) (poll' topic) topic n 0 new_alerts).
  - destruct (poll_topic (poll topic) topic n 0 new_alerts); [apply IH|done].
  - intros j Hj Hsome. cbn. apply (Hagree topic j Hj). exact Hsome.
Qed.

(** X16: on each topic the listener stops at the first empty poll and
    after [n_alerts] polls.  Two streams that agree on the polls made
    within that budget and before the first empty poll give the same
    result: what arrives later is not read in this call. *)
Theorem listen_for_alerts_stops lasair_imported (kc : kafka_config)
    (poll poll' : string → nat → option message) :
  (∀ topic, agree_until_none (n_alerts kc) (poll topic) (poll' topic)) →
  listen_for_alerts lasair_imported (Some kc) poll'
  = listen_for_alerts lasair_imported (Some kc) poll.
Proof.
  intros Hagree. unfold listen_for_alerts. destruct lasair_imported; [|done].
  cbn. by apply poll_topics_agree.
Qed.

Lemma poll_late_agrees topic : agree_until_none 5 (poll_short topic) (poll_late topic).
Proof.
  intros j Hj Hsome. unfold poll_late.
  destruct j as [|[|[|[|j]]]]; try done.
  exfalso. apply (Hsome 2%nat); [lia|].
  unfold poll_short. by destruct (String.eqb topic "lasair_fast").
Qed.

(** The theorem at a stream and the same stream with a late message. *)
Lemma listen_for_alerts_stops_witness :
  listen_for_alerts true (Some kafka_two_topics) poll_late
  = listen_for_alerts true (Some kafka_two_topics) poll_short.
Proof.
  apply (listen_for_alerts_stops true kafka_two_topics poll_short poll_late).
  exact poll_late_agrees.
Defined.

(** * Further properties: from the listener to the messenger *)

Lemma process_alerts_ok_ids time_isot now_isot k save_alerts alerts store store' out :
  process_alerts_loop time_isot now_isot k alerts save_alerts store
  = (store', Ok out) →
  Forall (fun a => is_Some (a !! "objectId")) alerts.
Proof.
  revert k store store' out. induction alerts as [|a alerts IH];
    intros k store store' out Hp; cbn [process_alerts_loop] in Hp; [constructor|].
  destruct (process_alert time_isot now_isot k save_alerts a store)
    as [[a' s1]|e] eqn:Ha; [|discriminate].
  apply process_alert_enriched in Ha as (_ & Ho & _).
  destruct (process_alerts_loop time_isot now_isot (S k) alerts save_alerts s1)
    as [s2 [o2|e2]] eqn:Hrest; [|discriminate].
  constructor; [done|]. by eapply IH.
Qed.

Lemma enriched_message_keys (a a' : gmap string value) :
  enriched a a' → is_Some (a !! "objectId") → is_Some (a !! "topic") →
  has_message_keys a'.
Proof.
  intros [ts ->] Ho Ht. unfold has_message_keys.
  rewrite !lookup_insert_ne by done. rewrite lookup_insert_eq. by eauto.
Qed.

(** X17: the alerts that come from [listen_for_alerts] and then through
    [process_alerts] have all the keys that [apply_messenger_updates]
    reads: in the order in which [perform_all_tasks] chains the three
    calls, the last one cannot raise. *)
Theorem listened_alerts_update_messenger time_isot now_isot py_str
    lasair_imported config poll (clock : nat) save_alerts
    (alerts out : list (gmap string value)) (store store' : alert_store)
    (targets : gmap string Target) :
  listen_for_alerts lasair_imported config poll = Ok alerts →
  process_alerts time_isot now_isot clock alerts save_alerts store
  = (store', Ok out) →
  Forall has_message_keys out
  ∧ ∃ targets', apply_messenger_updates py_str out targets = (targets', Ok ()).
Proof.
  intros Hl Hp.
  assert (Htopic : Forall (fun a => is_Some (a !! "topic")) alerts).
  { unfold listen_for_alerts in Hl.
    destruct lasair_imported; [destruct config as [kc|]|]; cbn in Hl;
      try (injection Hl as <-; constructor).
    apply poll_topics_alerts in Hl as (new & -> & _ & Hall).
    eapply Forall_impl; [exact Hall|].
    intros a (t & _ & Ha). by eauto. }
  unfold process_alerts in Hp.
  pose proof (process_alerts_ok_ids _ _ _ _ _ _ _ _ Hp) as Hids.
  apply process_alerts_ok in Hp as [Hen _].
  assert (Hkeys : Forall has_message_keys out).
  { clear -Htopic Hids Hen. induction Hen as [|a a' alerts out Ha _ IH];
      [constructor|].
    apply Forall_cons in Htopic as [Ht Htopic].
    apply Forall_cons in Hids as [Ho Hids].
    constructor; [by apply (enriched_message_keys a)|by apply IH]. }
  split; [exact Hkeys|].
  destruct (apply_messenger_updates_well_formed py_str out targets Hkeys)
    as (targets' & Hrun & _).
  by eauto.
Qed.

(** The theorem at the short stream, with the alert saved. *)
Lemma listened_alerts_update_messenger_witness :
  ∃ alerts out targets',
    listen_for_alerts true (Some kafka_two_topics) poll_short = Ok alerts
    ∧ process_alerts time_isot_numbers clock_at_midnight 0 alerts true []
      = (reverse (map alert_file_entry out), Ok out)
    ∧ apply_messenger_updates str_of_value out
        {[ "ZTF21aaaaaaa" := target_with_lightcurve ]} = (targets', Ok ()).
Proof.
  destruct (listen_for_alerts true (Some kafka_two_topics) poll_short)
    as [alerts|e] eqn:Hl; [|vm_compute in Hl; discriminate Hl].
  destruct (process_alerts time_isot_numbers clock_at_midnight 0 alerts
              true []) as [store' [out|e]] eqn:Hp.
  - destruct (listened_alerts_update_messenger time_isot_numbers
                clock_at_midnight str_of_value true
                (Some kafka_two_topics) poll_short 0 true alerts out [] store'
                {[ "ZTF21aaaaaaa" := target_with_lightcurve ]} Hl Hp)
      as [_ [targets' Hrun]].
    exists alerts, out, targets'. split; [reflexivity|]. split; [|exact Hrun].
    rewrite Hp. apply process_alerts_ok in Hp as [_ Hstore].
    rewrite app_nil_r in Hstore. by rewrite Hstore.
  - vm_compute in Hl. injection Hl as <-. vm_compute in Hp. discriminate Hp.
Defined.

(** * Further properties: targets from lightcurves *)

Section LightcurveTarget.

Variable sky_coord : float → float → result SkyCoord.
Variable py_str : value → string.

Lemma average_if_present_column df col :
  col ∈ df_columns df →
  average_if_present df col
  = (avg ← np_average (column_cells df col); Ok (Some avg)).
Proof.
  intros Hc. unfold average_if_present.
  rewrite bool_decide_eq_true_2 by done.
  by rewrite (df_getitem_column _ _ Hc).
Qed.

Lemma average_if_present_absent df col :
  col ∉ df_columns df → average_if_present df col = Ok None.
Proof.
  intros Hc. unfold average_if_present. by rewrite bool_decide_eq_false_2.
Qed.

Lemma target_from_frame_with_ids df oid ids :
  "objectId" ∈ df_columns df →
  objectId_cells df = oid :: ids →
  target_from_lasair_lightcurve sky_coord py_str (Frame df)
  = (ra_avg ← of_result (average_if_present df "ra");
     dec_avg ← of_result (average_if_present df "dec");
     match ra_avg, dec_avg with
     | Some r, Some d =>
         Returned
           {| lt_target :=
                set_target_data "lasair" (add_lightcurve df empty_target_data)
                  (Target_init sky_coord oid (float_value r) (float_value d));
              lt_several_options :=
                if (1 <? length (unique (oid :: ids)))%nat
                then Some (unique (oid :: ids)) else None |}
     | _, _ => Raised (Exn MissingCoordinatesError)
     end).
Proof.
  intros Hc Hids. unfold target_from_lasair_lightcurve. cbn.
  rewrite bool_decide_eq_true_2 by done. cbn.
  rewrite (df_getitem_column _ _ Hc). cbn.
  unfold objectId_cells in Hids. rewrite Hids. done.
Qed.

End LightcurveTarget.

(** X18: the ways in which [target_from_lasair_lightcurve] refuses a
    table.  Without an [objectId] column it raises
    [MissingObjectIdError].  With the column but no identifier in it (as
    in a table without rows) it raises [IndexError].  With an identifier
    and an [ra] column that averages, but no [dec] column, it raises
    [MissingCoordinatesError]. *)
Theorem target_from_lasair_lightcurve_refuses sky_coord py_str (df : DataFrame) :
  ("objectId" ∉ df_columns df →
     target_from_lasair_lightcurve sky_coord py_str (Frame df)
     = Raised (Exn MissingObjectIdError))
  ∧ ("objectId" ∈ df_columns df → objectId_cells df = [] →
     target_from_lasair_lightcurve sky_coord py_str (Frame df)
     = Raised IndexError)
  ∧ ("objectId" ∈ df_columns df → objectId_cells df ≠ [] →
     "ra" ∈ df_columns df → is_Ok (np_average (column_cells df "ra")) = true →
     "dec" ∉ df_columns df →
     target_from_lasair_lightcurve sky_coord py_str (Frame df)
     = Raised (Exn MissingCoordinatesError)).
Proof.
  split; [|split].
  - intros Hc. unfold target_from_lasair_lightcurve. cbn.
    by rewrite bool_decide_eq_false_2.
  - intros Hc Hids. unfold target_from_lasair_lightcurve. cbn.
    rewrite bool_decide_eq_true_2 by done. cbn.
    rewrite (df_getitem_column _ _ Hc). cbn.
    unfold objectId_cells in Hids. by rewrite Hids.
  - intros Hc Hids Hra Havg Hdec.
    destruct (objectId_cells df) as [|oid ids] eqn:Hcells; [done|].
    rewrite (target_from_frame_with_ids sky_coord py_str df oid ids Hc Hcells).
    rewrite (average_if_present_column df "ra" Hra).
    rewrite (average_if_present_absent df "dec" Hdec).
    destruct (np_average (column_cells df "ra")) as [r|]; [done|discriminate].
Qed.

(** The theorem at a table that has no declination. *)
Lemma target_from_lasair_lightcurve_refuses_witness :
  target_from_lasair_lightcurve sky_coord_numbers str_of_value
    (Frame lightcurve_without_dec)
  = Raised (Exn MissingCoordinatesError).
Proof.
  destruct (target_from_lasair_lightcurve_refuses sky_coord_numbers str_of_value
              lightcurve_without_dec) as (_ & _ & Hcoord).
  apply Hcoord.
  - apply (bool_decide_unpack _). vm_compute. exact I.
  - vm_compute. discriminate.
  - apply (bool_decide_unpack _). vm_compute. exact I.
  - vm_compute. reflexivity.
  - apply (bool_decide_unpack _). vm_compute. exact I.
Defined.

(** X19: on a table with the columns [objectId], [ra] and [dec], with an
    identifier, and whose coordinates average, the function returns a
    target that is named by the first identifier of the table, has the
    two averages as coordinates, holds the table as its lightcurve from
    Lasair, and is not marked updated. *)
Theorem target_from_lasair_lightcurve_target sky_coord py_str (df : DataFrame)
    (oid : value) (ids : list value) (r d : float) :
  "objectId" ∈ df_columns df → "ra" ∈ df_columns df → "dec" ∈ df_columns df →
  objectId_cells df = oid :: ids →
  np_average (column_cells df "ra") = Ok r →
  np_average (column_cells df "dec") = Ok d →
  ∃ out,
    target_from_lasair_lightcurve sky_coord py_str (Frame df) = Returned out
    ∧ objectId (lt_target out) = oid
    ∧ ra (lt_target out) = float_value r
    ∧ dec (lt_target out) = float_value d
    ∧ lasair_lightcurve (lt_target out) = Some df
    ∧ updated (lt_target out) = false.
Proof.
  intros Hc Hra Hdec Hids Hr Hd.
  rewrite (target_from_frame_with_ids sky_coord py_str df oid ids Hc Hids).
  rewrite (average_if_present_column df "ra" Hra), Hr.
  rewrite (average_if_present_column df "dec" Hdec), Hd. cbn.
  eexists. split; [reflexivity|]. cbn.
  split; [done|]. split; [done|]. split; [done|]. split; [|done].
  unfold lasair_lightcurve, get_target_data. cbn.
  by rewrite lookup_insert_eq.
Qed.

(** The theorem at a table of two rows. *)
Lemma target_from_lasair_lightcurve_target_witness :
  ∃ out,
    target_from_lasair_lightcurve sky_coord_numbers str_of_value
      (Frame lightcurve_with_ids) = Returned out
    ∧ objectId (lt_target out) = VStr "ZTF21abcdefg"
    ∧ ra (lt_target out) = VFloat (11 # 1)%Q
    ∧ dec (lt_target out) = VFloat (20 # 1)%Q.
Proof.
  destruct (target_from_lasair_lightcurve_target sky_coord_numbers str_of_value
              lightcurve_with_ids (VStr "ZTF21abcdefg") [VStr "ZTF21abcdefg"]
              (Some (11 # 1)%Q) (Some (20 # 1)%Q))
    as (out & Hout & Ho & Hr & Hd & _).
  - apply (bool_decide_unpack _). vm_compute. exact I.
  - apply (bool_decide_unpack _). vm_compute. exact I.
  - apply (bool_decide_unpack _). vm_compute. exact I.
  - vm_compute. reflexivity.
  - vm_compute. reflexivity.
  - vm_compute. reflexivity.
  - exists out. auto.
Defined.

(** * Further properties: targets from the broker's dictionaries *)

Lemma process_lasair_lightcurve_steps py_str lc oid candidates :
  lc_objectId lc = Some oid →
  lc_candidates lc = Some candidates →
  process_lasair_lightcurve py_str lc
  = (lightcurve ←
       (if df_empty (identified_rows py_str oid candidates)
        then Ok (df_set_scalar "mjd" (VInt 0)
                   (df_set_scalar "jd" (VInt 0)
                      (identified_rows py_str oid candidates)))
        else
          jd ← df_getitem (identified_rows py_str oid candidates) "jd";
          if forallb valid_jd jd
          then Ok (df_set_from "mjd" "jd" jd_to_mjd
                     (identified_rows py_str oid candidates))
          else Raise (ValueError "jd"));
     Ok (sort_values_jd lightcurve)).
Proof.
  intros Ho Hc. unfold process_lasair_lightcurve. rewrite Ho, Hc. cbn.
  fold (with_candid candidates) (without_candid candidates).
  assert (length (with_candid candidates) + length (without_candid candidates)
          = length candidates)%nat as Hlen
    by apply (length_filter_split (fun r => truthy (dict_get r "candid"))).
  rewrite Hlen, Nat.eqb_refl. cbn.
  rewrite (mapM_result_map (mark_detection py_str) (detection_row py_str)).
  2:{ apply Forall_forall. intros r Hr. apply mark_detection_truthy.
      by apply list_elem_of_filter in Hr as [Hr _]. }
  cbn.
  rewrite (mapM_result_map mark_non_detection non_detection_row).
  2:{ apply Forall_forall. intros r Hr. apply mark_non_detection_falsy.
      by apply list_elem_of_filter in Hr as [Hr _]. }
  done.
Qed.

Lemma elem_of_add_column col cols : col ∈ add_column col cols.
Proof.
  unfold add_column. case_bool_decide; [done|].
  apply elem_of_app. right. apply list_elem_of_singleton. done.
Qed.

Lemma elem_of_add_column_mono col c cols : c ∈ cols → c ∈ add_column col cols.
Proof.
  intros Hc. unfold add_column. case_bool_decide; [done|].
  apply elem_of_app. by left.
Qed.

Lemma process_lasair_lightcurve_objectId_column py_str lc df :
  process_lasair_lightcurve py_str lc = Ok df → "objectId" ∈ df_columns df.
Proof.
  intros Hp.
  destruct (lc_objectId lc) as [oid|] eqn:Ho;
    [|by unfold process_lasair_lightcurve in Hp; rewrite Ho in Hp].
  destruct (lc_candidates lc) as [candidates|] eqn:Hc;
    [|by unfold process_lasair_lightcurve in Hp; rewrite Ho, Hc in Hp].
  rewrite (process_lasair_lightcurve_steps py_str lc oid candidates Ho Hc) in Hp.
  assert ("objectId" ∈ df_columns (identified_rows py_str oid candidates)) as Hin
    by apply elem_of_add_column.
  destruct (df_empty _).
  - cbn in Hp. injection Hp as <-. cbn.
    by do 2 apply elem_of_add_column_mono.
  - destruct (df_getitem _ "jd") as [jd|]; [|discriminate].
    cbn in Hp. destruct (forallb valid_jd jd); [|discriminate].
    cbn in Hp. injection Hp as <-. cbn. by apply elem_of_add_column_mono.
Qed.

Lemma process_lasair_lightcurve_raises py_str lc e :
  process_lasair_lightcurve py_str lc = Raise e →
  e = KeyError "objectId" ∨ e = KeyError "candidates"
  ∨ e = KeyError "jd" ∨ e = ValueError "jd".
Proof.
  intros Hp.
  destruct (lc_objectId lc) as [oid|] eqn:Ho.
  2:{ unfold process_lasair_lightcurve in Hp. rewrite Ho in Hp. cbn in Hp.
      injection Hp as <-. by left. }
  destruct (lc_candidates lc) as [candidates|] eqn:Hc.
  2:{ unfold process_lasair_lightcurve in Hp. rewrite Ho, Hc in Hp. cbn in Hp.
      injection Hp as <-. right. by left. }
  rewrite (process_lasair_lightcurve_steps py_str lc oid candidates Ho Hc) in Hp.
  destruct (df_empty _); [discriminate|].
  unfold df_getitem in Hp. case_bool_decide.
  - cbn in Hp. destruct (forallb valid_jd _); [discriminate|].
    cbn in Hp. injection Hp as <-. by do 3 right.
  - cbn in Hp. injection Hp as <-. right. right. by left.
Qed.

Lemma unique_constant (v : value) (l : list value) :
  Forall (fun w => w = v) l → l ≠ [] → unique l = [v].
Proof.
  induction l as [|w l IH]; [done|].
  intros Hall _. apply Forall_cons in Hall as [-> Hall]. cbn.
  destruct l as [|w' l']; [done|].
  rewrite IH by done. cbn. by rewrite decide_False by (by intros H; apply H).
Qed.

Lemma dropna_strings (v : string) (l : list value) :
  Forall (fun w => w = VStr v) l → dropna l = l.
Proof.
  induction 1 as [|w l -> _ IH]; [done|].
  unfold dropna in *. rewrite filter_cons. cbn. by rewrite IH.
Qed.

Lemma average_if_present_raises df col e :
  average_if_present df col = Raise e → e = TypeError.
Proof.
  unfold average_if_present, df_getitem. case_bool_decide; [|done]. cbn.
  unfold np_average. destruct (numbers _) as [[|q qs]|]; cbn; [done..|].
  by intros [= <-].
Qed.

(** X20: what [target_from_lasair_lightcurve] makes of a dictionary of
    the broker that has an identifier and a list of candidates.  It never
    raises [MissingObjectIdError]; when the list of candidates is empty
    it raises [IndexError], although the processing of the lightcurve
    succeeds; and a target it returns carries the identifier of the
    dictionary, without a warning about several identifiers. *)
Theorem target_from_lasair_lightcurve_of_dict sky_coord py_str (lc : lc_data)
    (oid : string) (candidates : list (gmap string value)) :
  lc_objectId lc = Some oid →
  lc_candidates lc = Some candidates →
  target_from_lasair_lightcurve sky_coord py_str (Dict lc)
    ≠ Raised (Exn MissingObjectIdError)
  ∧ (candidates = [] →
     is_Ok (process_lasair_lightcurve py_str lc) = true
     ∧ target_from_lasair_lightcurve sky_coord py_str (Dict lc) = Raised IndexError)
  ∧ (∀ out,
       target_from_lasair_lightcurve sky_coord py_str (Dict lc) = Returned out →
       objectId (lt_target out) = VStr oid ∧ lt_several_options out = None).
Proof.
  intros Ho Hc.
  assert (∀ df, process_lasair_lightcurve py_str lc = Ok df →
            ∃ ids, df_getitem df "objectId" = Ok ids
                   ∧ dropna ids = ids
                   ∧ Forall (fun w => w = VStr oid) ids
                   ∧ length ids = length candidates) as Hids.
  { intros df Hp.
    pose proof (process_lasair_lightcurve_objectId_column _ _ _ Hp) as Hcol.
    destruct (process_lasair_lightcurve_shape py_str lc df Hp)
      as (oid' & candidates' & Ho' & Hc' & Hrows).
    rewrite Ho in Ho'. rewrite Hc in Hc'.
    injection Ho' as <-. injection Hc' as <-.
    eexists. split; [by apply df_getitem_column|].
    assert (Forall (fun w => w = VStr oid)
              (map (fun r => dict_get r "objectId") (df_rows df))) as Hall.
    { rewrite Hrows, merge_sort_Permutation. unfold marked_rows.
      apply Forall_map, Forall_map, Forall_forall. intros r _. cbn.
      unfold finish_row, dict_get.
      rewrite lookup_insert_ne by done. by rewrite lookup_insert_eq. }
    split; [by apply (dropna_strings oid)|]. split; [done|].
    rewrite length_map, Hrows, merge_sort_Permutation. unfold marked_rows.
    rewrite length_map, length_app, !length_map.
    apply (length_filter_split (fun r => truthy (dict_get r "candid"))). }
  unfold target_from_lasair_lightcurve.
  destruct (process_lasair_lightcurve py_str lc) as [df|e] eqn:Hp; cbn.
  - pose proof (process_lasair_lightcurve_objectId_column _ _ _ Hp) as Hcol.
    destruct (Hids df eq_refl) as (ids & Hget & Hdrop & Hall & Hlen).
    rewrite bool_decide_eq_true_2 by done. cbn.
    rewrite Hget. cbn. rewrite Hdrop.
    destruct candidates as [|c candidates].
    + destruct ids; [|done]. cbn. done.
    + rewrite (unique_constant (VStr oid) ids Hall) by (by destruct ids).
      cbn. split; [|split; [done|]].
      * destruct (average_if_present df "ra") as [[?|]|e] eqn:Hra; cbn.
        -- destruct (average_if_present df "dec") as [[?|]|e] eqn:Hdec; cbn;
             [done..|].
           by rewrite (average_if_present_raises _ _ _ Hdec).
        -- by destruct (average_if_present df "dec") as [[?|]|e] eqn:Hdec; cbn;
             [..|rewrite (average_if_present_raises _ _ _ Hdec)].
        -- by rewrite (average_if_present_raises _ _ _ Hra).
      * intros out.
        destruct (of_result (average_if_present df "ra")) as [[?|]|]; cbn;
          destruct (of_result (average_if_present df "dec")) as [[?|]|]; cbn;
          try done.
        by intros [= <-].
  - split; [|split].
    + intros [= ->].
      by destruct (process_lasair_lightcurve_raises _ _ _ Hp) as [|[|[|]]].
    + intros ->. exfalso.
      rewrite (process_lasair_lightcurve_steps py_str lc oid [] Ho Hc) in Hp.
      vm_compute in Hp. discriminate.
    + done.
Qed.

(** The theorem at a dictionary of two candidates with coordinates. *)
Lemma target_from_lasair_lightcurve_of_dict_witness :
  ∃ out,
    target_from_lasair_lightcurve sky_coord_numbers str_of_value
      (Dict lc_with_coordinates) = Returned out
    ∧ objectId (lt_target out) = VStr "ZTF21abcdefg"
    ∧ lt_several_options out = None.
Proof.
  destruct (target_from_lasair_lightcurve sky_coord_numbers str_of_value
              (Dict lc_with_coordinates)) as [out|r] eqn:Ht.
  - exists out. split; [reflexivity|].
    destruct (target_from_lasair_lightcurve_of_dict sky_coord_numbers str_of_value
                lc_with_coordinates "ZTF21abcdefg" _ eq_refl eq_refl)
      as (_ & _ & Hout).
    apply Hout. exact Ht.
  - vm_compute in Ht. discriminate Ht.
Defined.

(** * Further properties: loading the cached lightcurves *)

Section Load.

Variable sky_coord : float → float → result SkyCoord.

(** The backfill step, where it returns, touches the coordinates only,
    and only when there were none. *)
Lemma backfill_coordinates_returns oid target lc target' entries :
  backfill_coordinates sky_coord oid target lc = Ok (target', entries) →
  updated target' = updated target
  ∧ target_data target' = target_data target
  ∧ objectId target' = objectId target
  ∧ send_updates target' = send_updates target
  ∧ update_messages target' = update_messages target
  ∧ (is_Some (coord target) → target' = target).
Proof.
  unfold backfill_coordinates.
  destruct (coord target) as [c|] eqn:Hc.
  { intros [= <- <-]. by repeat split. }
  destruct (df_getitem lc "ra") as [ra_col|]; [|discriminate]. cbn.
  destruct (df_getitem lc "dec") as [dec_col|]; [|discriminate]. cbn.
  assert (Hnone : ¬ is_Some (@None SkyCoord)) by (by intros [? ?]).
  destruct (np_average (dropna ra_col)) as [ra_avg|]; cbn;
    [|by intros [= <- <-]; repeat split].
  destruct (np_average (dropna dec_col)) as [dec_avg|]; cbn;
    [|by intros [= <- <-]; repeat split].
  unfold update_coordinates.
  destruct (sky_coord ra_avg dec_avg) as [c|]; cbn;
    by intros [= <- <-]; repeat split.
Qed.

Lemma merge_gate_skips target lc :
  merge_gate target lc = None →
  ∃ existing, lasair_lightcurve target = Some existing
              ∧ (df_len lc ≤ df_len existing)%nat.
Proof.
  unfold merge_gate, lasair_lightcurve.
  destruct (lightcurve (get_target_data "lasair" target)) as [existing|];
    [|discriminate].
  destruct (df_len lc <=? df_len existing)%nat eqn:Hle; [|discriminate].
  intros _. exists existing. split; [done|]. by apply Nat.leb_le.
Qed.

Lemma merge_gate_passes target lc target1 :
  merge_gate target lc = Some target1 →
  match lasair_lightcurve target with
  | Some existing =>
      (df_len existing < df_len lc)%nat ∧ target1 = set_updated true target
  | None => target1 = target
  end.
Proof.
  unfold merge_gate, lasair_lightcurve.
  destruct (lightcurve (get_target_data "lasair" target)) as [existing|].
  - destruct (df_len lc <=? df_len existing)%nat eqn:Hle; [discriminate|].
    intros [= <-]. split; [|done]. apply Nat.leb_gt in Hle. lia.
  - by intros [= <-].
Qed.

(** The four ways through the body of the loop. *)
Lemma load_target_lightcurve_returns files0 oid st st' :
  load_target_lightcurve sky_coord files0 oid st = Ok st' →
  (load_single_lightcurve files0 oid = Ok None ∧ st' = add_missing oid st)
  ∨ (∃ df, load_single_lightcurve files0 oid = Ok (Some df)
           ∧ target_lookup st !! oid = None
           ∧ st' = add_missing oid (log_load (NotInTargetLookup oid) st))
  ∨ (∃ df target, load_single_lightcurve files0 oid = Ok (Some df)
                  ∧ target_lookup st !! oid = Some target
                  ∧ merge_gate target df = None
                  ∧ st' = add_skipped oid st)
  ∨ (∃ df target target1 target2 entries,
       load_single_lightcurve files0 oid = Ok (Some df)
       ∧ target_lookup st !! oid = Some target
       ∧ merge_gate target df = Some target1
       ∧ backfill_coordinates sky_coord oid target1 df = Ok (target2, entries)
       ∧ loaded st' = (loaded st ++ [oid])%list
       ∧ skipped st' = skipped st
       ∧ missing st' = missing st
       ∧ target_lookup st'
         = <[oid := set_target_data "lasair"
                      (add_lightcurve df (get_target_data "lasair" target2))
                      target2]> (target_lookup st)).
Proof.
  unfold load_target_lightcurve.
  destruct (load_single_lightcurve files0 oid) as [[df|]|]; cbn;
    [| |discriminate].
  2:{ intros [= <-]. by left. }
  destruct (target_lookup st !! oid) as [target|] eqn:Ht.
  2:{ intros [= <-]. right. left. by exists df. }
  destruct (merge_gate target df) as [target1|] eqn:Hg.
  2:{ intros [= <-]. right. right. left. by exists df, target. }
  destruct (backfill_coordinates sky_coord oid target1 df)
    as [[target2 entries]|] eqn:Hb; cbn; [|discriminate].
  intros [= <-]. right. right. right.
  exists df, target, target1, target2, entries. by repeat split.
Qed.

Lemma loaded_from_gate t df target1 target2 oid entries :
  merge_gate t df = Some target1 →
  backfill_coordinates sky_coord oid target1 df = Ok (target2, entries) →
  loaded_from t df
    (set_target_data "lasair"
       (add_lightcurve df (get_target_data "lasair" target2)) target2).
Proof.
  intros Hg Hb.
  apply backfill_coordinates_returns in Hb as (Hu & Hd & Ho & Hs & Hm & Hc).
  apply merge_gate_passes in Hg.
  unfold loaded_from. split; [apply lasair_lightcurve_add|]. cbn.
  destruct (lasair_lightcurve t) as [existing|].
  - destruct Hg as [Hlen ->]. cbn in *.
    split; [done|]. split; [done|]. split; [done|]. split; [done|].
    split.
    + intros name Hname. rewrite lookup_insert_ne by done. by rewrite Hd.
    + intros Hsome. by rewrite (Hc Hsome).
  - subst target1.
    split; [done|]. split; [done|]. split; [done|]. split; [done|].
    split.
    + intros name Hname. rewrite lookup_insert_ne by done. by rewrite Hd.
    + intros Hsome. by rewrite (Hc Hsome).
Qed.

Lemma load_target_lightcurve_invariant files0 targets oid st st' :
  load_invariant files0 targets st →
  load_target_lightcurve sky_coord files0 oid st = Ok st' →
  load_invariant files0 targets st'.
Proof.
  intros (Hnd & Hout & Hin & Hsk & Hmi) Hl.
  apply load_target_lightcurve_returns in Hl
    as [[Hf ->]|[(df & Hf & Ht & ->)|[(df & target & Hf & Ht & Hg & ->)|Hl]]].
  - repeat split; cbn; try done.
    intros oid' [Ho| ->%list_elem_of_singleton]%elem_of_app; [by apply Hmi|].
    by left.
  - repeat split; cbn; try done.
    intros oid' [Ho| ->%list_elem_of_singleton]%elem_of_app; [by apply Hmi|].
    right. destruct (decide (oid ∈ loaded st)) as [Hl|Hl].
    + destruct (Hin oid Hl) as (t & t' & df' & _ & Ht' & _). congruence.
    + by rewrite <- (Hout oid Hl).
  - repeat split; cbn; try done.
    intros oid' [Ho| ->%list_elem_of_singleton]%elem_of_app; [by apply Hsk|].
    destruct (merge_gate_skips _ _ Hg) as (existing & He & Hlen).
    by exists target, existing, df.
  - destruct Hl as (df & target & target1 & target2 & entries
                    & Hf & Ht & Hg & Hb & Hlo & Hs & Hm & Hlook).
    assert (Hnew : oid ∉ loaded st).
    { intros Hl. destruct (Hin oid Hl) as (t & t' & df' & _ & Ht' & Hf' & Hfrom).
      rewrite Ht in Ht'. injection Ht' as <-.
      rewrite Hf in Hf'. injection Hf' as <-.
      destruct Hfrom as [He _]. unfold merge_gate in Hg.
      unfold lasair_lightcurve in He. rewrite He in Hg.
      by rewrite Nat.leb_refl in Hg. }
    assert (Horig : targets !! oid = Some target) by (by rewrite <- (Hout oid Hnew)).
    pose proof (loaded_from_gate _ _ _ _ _ _ Hg Hb) as Hfrom.
    unfold load_invariant, loaded_for, skipped_for. rewrite Hlo, Hs, Hm, Hlook.
    split; [|split; [|split; [|split]]].
    + apply NoDup_app. split; [done|]. split; [|apply NoDup_singleton].
      intros x Hx ->%list_elem_of_singleton. done.
    + intros oid' Ho. apply not_elem_of_app in Ho as [Ho Hne].
      rewrite lookup_insert_ne by (intros ->; apply Hne, list_elem_of_singleton; done).
      by apply Hout.
    + intros oid' [Ho| ->%list_elem_of_singleton]%elem_of_app.
      * destruct (Hin oid' Ho) as (t & t' & df' & Ht0 & Ht' & Hf' & Hfrom').
        exists t, t', df'. split; [done|]. split; [|done].
        rewrite lookup_insert_ne by (by intros ->). done.
      * eexists target, _, df. split; [done|].
        split; [by rewrite lookup_insert_eq|]. done.
    + intros oid' Ho. destruct (decide (oid' = oid)) as [->|Hne].
      * eexists _, df, df. split; [by rewrite lookup_insert_eq|].
        split; [by destruct Hfrom|]. done.
      * destruct (Hsk oid' Ho) as (t' & existing & df' & Ht' & He & Hf' & Hlen).
        exists t', existing, df'. by rewrite lookup_insert_ne.
    + done.
Qed.

Lemma load_loop_invariant files0 targets oids st st' :
  load_invariant files0 targets st →
  load_loop sky_coord files0 oids st = Ok st' →
  load_invariant files0 targets st'
  ∧ (loaded st' ++ skipped st' ++ missing st')%list
    ≡ₚ ((loaded st ++ skipped st ++ missing st) ++ oids)%list.
Proof.
  revert st. induction oids as [|oid oids IH]; intros st Hinv Hl; cbn in Hl.
  { injection Hl as <-. by rewrite app_nil_r. }
  destruct (load_target_lightcurve sky_coord files0 oid st) as [st1|] eqn:H1;
    [|discriminate].
  cbn in Hl.
  pose proof (load_target_lightcurve_invariant _ _ _ _ _ Hinv H1) as Hinv1.
  destruct (IH st1 Hinv1 Hl) as [Hinv' Hperm]. split; [done|].
  rewrite Hperm.
  apply load_target_lightcurve_returns in H1
    as [[_ ->]|[(df & _ & _ & ->)|[(df & target & _ & _ & _ & ->)|H1]]]; cbn.
  - rewrite <- !app_assoc. cbn. done.
  - rewrite <- !app_assoc. cbn. done.
  - rewrite <- !app_assoc. cbn.
    apply Permutation_app_head, Permutation_app_head.
    by rewrite <- Permutation_middle.
  - destruct H1 as (df & target & target1 & target2 & entries
                    & _ & _ & _ & _ & -> & -> & -> & _).
    rewrite <- !app_assoc. cbn.
    apply Permutation_app_head.
    rewrite <- (Permutation_middle (missing st)).
    by rewrite <- (Permutation_middle (skipped st)).
Qed.

Lemma load_target_lightcurves_invariant files0 targets objectId_list st :
  load_target_lightcurves sky_coord files0 targets objectId_list = Ok st →
  load_invariant files0 targets st
  ∧ (loaded st ++ skipped st ++ missing st)%list
    ≡ₚ ids_to_load targets objectId_list.
Proof.
  unfold load_target_lightcurves. intros Hl.
  apply load_loop_invariant with (targets := targets) in Hl; [done|].
  unfold load_invariant, initial_load_state. cbn.
  split; [apply NoDup_nil_2|]. split; [done|].
  split; [|split]; intros oid Ho; by apply elem_of_nil in Ho.
Qed.

End Load.

(** X21: [load_target_lightcurves] accounts for every identifier it goes
    through: the lists of the loaded, the skipped and the missing
    objects together are a rearrangement of the identifiers.  A missing
    object has no file that reads as a table, or no target; a skipped
    object, which is in neither of the two lists the function returns,
    has a target whose lightcurve is at least as long as the table of
    its file.  No target is added or removed. *)
Theorem load_target_lightcurves_accounts sky_coord
    (files0 : gmap string file_contents) (targets : gmap string Target)
    (objectId_list : option (list string)) (st : load_state) :
  load_target_lightcurves sky_coord files0 targets objectId_list = Ok st →
  (loaded st ++ skipped st ++ missing st)%list
    ≡ₚ ids_to_load targets objectId_list
  ∧ Forall (missing_for files0 targets) (missing st)
  ∧ Forall (skipped_for files0 st) (skipped st)
  ∧ dom (target_lookup st) = dom targets.
Proof.
  intros Hl.
  apply load_target_lightcurves_invariant in Hl
    as [(Hnd & Hout & Hin & Hsk & Hmi) Hperm].
  split; [done|].
  split; [by apply Forall_forall|].
  split; [by apply Forall_forall|].
  apply set_eq. intros oid. rewrite !elem_of_dom.
  destruct (decide (oid ∈ loaded st)) as [Ho|Ho].
  - destruct (Hin oid Ho) as (t & t' & df & -> & -> & _). by split; eauto.
  - by rewrite (Hout oid Ho).
Qed.

(** The theorem at a list that names one object twice and an object
    with an empty file. *)
Lemma load_target_lightcurves_accounts_witness :
  ∃ st,
    load_target_lightcurves sky_coord_numbers files_of_two_objects
      targets_of_one_object (Some ids_with_repetition) = Ok st
    ∧ (loaded st ++ skipped st ++ missing st)%list ≡ₚ ids_with_repetition.
Proof.
  destruct (load_target_lightcurves sky_coord_numbers files_of_two_objects
              targets_of_one_object (Some ids_with_repetition))
    as [st|e] eqn:Hl.
  - exists st. split; [reflexivity|].
    by destruct (load_target_lightcurves_accounts _ _ _ _ _ Hl) as [Hperm _].
  - vm_compute in Hl. discriminate Hl.
Defined.

(** X22: no object is loaded twice in one call, also when the list names
    it twice.  The target of a loaded object holds the table of the
    object's file; it is marked updated exactly when it held a
    lightcurve before, which then was strictly shorter; its identifier,
    the fields of the messenger, the data of the other brokers and
    coordinates it had are as before.  The target of every other object
    is exactly as it was. *)
Theorem load_target_lightcurves_loaded_once sky_coord
    (files0 : gmap string file_contents) (targets : gmap string Target)
    (objectId_list : option (list string)) (st : load_state) :
  load_target_lightcurves sky_coord files0 targets objectId_list = Ok st →
  NoDup (loaded st)
  ∧ Forall (loaded_for files0 targets st) (loaded st)
  ∧ (∀ oid, oid ∉ loaded st → target_lookup st !! oid = targets !! oid).
Proof.
  intros Hl.
  apply load_target_lightcurves_invariant in Hl
    as [(Hnd & Hout & Hin & Hsk & Hmi) Hperm].
  split; [done|]. split; [by apply Forall_forall|done].
Qed.

(** The theorem at the same call: the object that is named twice is
    loaded once. *)
Lemma load_target_lightcurves_loaded_once_witness :
  ∃ st,
    load_target_lightcurves sky_coord_numbers files_of_two_objects
      targets_of_one_object (Some ids_with_repetition) = Ok st
    ∧ NoDup (loaded st)
    ∧ loaded st = ["ZTF21abcdefg"].
Proof.
  destruct (load_target_lightcurves sky_coord_numbers files_of_two_objects
              targets_of_one_object (Some ids_with_repetition))
    as [st|e] eqn:Hl.
  - exists st. split; [reflexivity|]. split.
    + by destruct (load_target_lightcurves_loaded_once _ _ _ _ _ Hl) as [Hnd _].
    + vm_compute in Hl. by injection Hl as <-.
  - vm_compute in Hl. discriminate Hl.
Defined.

(** * Further properties: the files of the bulk queries *)

Section MoreQueries.

Variable py_str : value → string.
Variable lightcurves : nat → list string → result (list lc_data).
Variable read_back : DataFrame → DataFrame + cast_error.
Variable max_failed_queries : Z.

Lemma store_lightcurves_sync files0 lcs st st' :
  (∀ lc, lc ∈ lcs → answered lightcurves lc) →
  store_lightcurves py_str read_back lcs st = Ok st' →
  cache_in_sync py_str lightcurves read_back files0 st →
  cache_in_sync py_str lightcurves read_back files0 st'.
Proof.
  revert st. induction lcs as [|lc lcs IH]; intros st Hans Hs Hsync; cbn in Hs.
  { by injection Hs as <-. }
  unfold store_lightcurve in Hs.
  destruct (lc_objectId lc) as [oid|] eqn:Hoid; [|discriminate]. cbn in Hs.
  destruct (process_lasair_lightcurve py_str lc) as [df|] eqn:Hp; [|discriminate].
  cbn in Hs. eapply IH; [|exact Hs|].
  { intros lc' Hin. apply Hans. by right. }
  destruct Hsync as [Hin Hout]. split; cbn.
  - intros oid' [Ho| ->%list_elem_of_singleton]%elem_of_app.
    + destruct (decide (oid' = oid)) as [->|Hne].
      * exists lc, df. cbn. rewrite lookup_insert_eq.
        split; [apply Hans; left|done].
      * destruct (Hin oid' Ho) as (lc' & df' & Ha & Ho' & Hp' & Hf').
        exists lc', df'. cbn. by rewrite lookup_insert_ne.
    + exists lc, df. cbn. rewrite lookup_insert_eq.
      split; [apply Hans; left|done].
  - intros oid' Ho. apply not_elem_of_app in Ho as [Ho Hne].
    rewrite lookup_insert_ne
      by (intros ->; apply Hne, list_elem_of_singleton; done).
    by apply Hout.
Qed.

Lemma query_chunks_sync files0 ii chunks st st' :
  query_chunks py_str lightcurves read_back max_failed_queries ii chunks st = Ok st' →
  cache_in_sync py_str lightcurves read_back files0 st →
  cache_in_sync py_str lightcurves read_back files0 st'.
Proof.
  revert ii st. induction chunks as [|chunk rest IH]; intros ii st Hq Hsync;
    cbn in Hq.
  { by injection Hq as <-. }
  destruct (max_failed_queries <? Z.of_nat (length (failed st)))%Z.
  { by injection Hq as <-. }
  destruct (lightcurves ii chunk) as [lcs|e] eqn:Hl.
  - match type of Hq with
    | context [store_lightcurves py_str read_back lcs ?s0] =>
        destruct (store_lightcurves py_str read_back lcs s0) as [st1|] eqn:Hs; [|discriminate]
    end.
    cbn in Hq. eapply IH; [exact Hq|].
    eapply store_lightcurves_sync; [|exact Hs|].
    + intros lc Hin. by exists ii, chunk, lcs.
    + by destruct (negb _).
  - eapply IH; [exact Hq|]. done.
Qed.

(** The failed list grows by whole chunks, and only while it is not
    longer than the threshold. *)
Lemma query_chunks_failed_length (n : nat) ii chunks st st' :
  Forall (fun chunk => (length chunk ≤ n)%nat) chunks →
  query_chunks py_str lightcurves read_back max_failed_queries ii chunks st = Ok st' →
  (Z.of_nat (length (failed st'))
   ≤ Z.max (Z.of_nat (length (failed st))) (max_failed_queries + Z.of_nat n))%Z.
Proof.
  intros Hall. revert ii st.
  induction Hall as [|chunk rest Hc _ IH]; intros ii st Hq; cbn in Hq.
  { injection Hq as <-. lia. }
  destruct (max_failed_queries <? Z.of_nat (length (failed st)))%Z eqn:Htrip.
  { injection Hq as <-. cbn. lia. }
  apply Z.ltb_ge in Htrip.
  destruct (lightcurves ii chunk) as [lcs|e] eqn:Hl.
  - match type of Hq with
    | context [store_lightcurves py_str read_back lcs ?s0] =>
        destruct (store_lightcurves py_str read_back lcs s0) as [st1|] eqn:Hs; [|discriminate]
    end.
    cbn in Hq. apply IH in Hq.
    apply store_lightcurves_fields in Hs as (Hf & _).
    rewrite Hf in Hq.
    replace (failed (if negb (length lcs =? length chunk)%nat
                     then log_query (LengthMismatch (length lcs) (length chunk))
                            (note_request chunk st)
                     else note_request chunk st))
      with (failed st) in Hq by (by destruct (negb _)).
    done.
  - apply IH in Hq. cbn in Hq. rewrite length_app in Hq. lia.
Qed.

End MoreQueries.

Lemma chunk_list_aux_lengths {A} (fuel : nat) (l : list A) (chunk_size : nat) :
  Forall (fun chunk => (length chunk ≤ chunk_size)%nat)
    (chunk_list_aux fuel l chunk_size).
Proof.
  revert l. induction fuel as [|fuel IH]; intros [|x l]; cbn [chunk_list_aux];
    try apply Forall_nil_2.
  apply Forall_cons. split; [|apply IH].
  rewrite length_take. lia.
Qed.

(** X23: the files agree with the list of successes.  When
    [perform_lightcurve_queries] returns, the file of every object in the
    [success] list is the one that [to_csv] wrote from the processed
    lightcurve of an item that the broker returned under that
    identifier, and the file of every other object, failed, unattempted
    or not asked for, is as it was before the call. *)
Theorem perform_lightcurve_queries_cache py_str lightcurves read_back
    (client_token : option string) (max_failed_queries : Z)
    (files0 : gmap string file_contents) (objectId_list : list string)
    (chunk_size : nat) (st : query_state) :
  perform_lightcurve_queries py_str lightcurves read_back client_token max_failed_queries
    files0 objectId_list chunk_size = Ok st →
  Forall (written_for py_str lightcurves read_back st) (success st)
  ∧ (∀ oid, oid ∉ success st → files st !! oid = files0 !! oid).
Proof.
  unfold perform_lightcurve_queries.
  destruct client_token as [token|]; [|discriminate].
  intros Hq. apply (query_chunks_sync _ _ _ _ files0) in Hq as [Hin Hout].
  - split; [by apply Forall_forall|done].
  - split; cbn; [|done]. intros oid Ho. by apply elem_of_nil in Ho.
Qed.

(** The theorem at a broker whose first request fails. *)
Lemma perform_lightcurve_queries_cache_witness :
  ∃ st,
    perform_lightcurve_queries str_of_value (lightcurves_fail_at 0) read_back_text
      (Some "token") 2 ∅ five_ids 2 = Ok st
    ∧ Forall (written_for str_of_value (lightcurves_fail_at 0) read_back_text st) (success st)
    ∧ files st !! "ZTF21aaaaaaa" = None.
Proof.
  destruct (perform_lightcurve_queries str_of_value (lightcurves_fail_at 0) read_back_text
              (Some "token") 2 ∅ five_ids 2) as [st|e] eqn:Hq.
  - exists st. split; [reflexivity|].
    destruct (perform_lightcurve_queries_cache _ _ _ _ _ _ _ _ _ Hq) as [Hin Hout].
    split; [done|]. rewrite Hout; [done|].
    vm_compute in Hq. injection Hq as <-. cbn.
    apply (bool_decide_unpack _). vm_compute. exact I.
  - vm_compute in Hq. discriminate Hq.
Defined.

(** X24: the failed list is bounded.  It is never longer than the
    threshold plus one chunk; with a negative threshold the first test
    of the loop already trips, so that no request is made at all. *)
Theorem perform_lightcurve_queries_failed_bound py_str lightcurves read_back
    (client_token : option string) (max_failed_queries : Z)
    (files0 : gmap string file_contents) (objectId_list : list string)
    (chunk_size : nat) (st : query_state) :
  perform_lightcurve_queries py_str lightcurves read_back client_token max_failed_queries
    files0 objectId_list chunk_size = Ok st →
  (Z.of_nat (length (failed st))
   ≤ Z.max 0 (max_failed_queries + Z.of_nat chunk_size))%Z
  ∧ ((max_failed_queries < 0)%Z →
     requests st = [] ∧ success st = [] ∧ failed st = [] ∧ files st = files0).
Proof.
  unfold perform_lightcurve_queries.
  destruct client_token as [token|]; [|discriminate].
  intros Hq. split.
  - apply (query_chunks_failed_length _ _ _ _ chunk_size) in Hq; [done|].
    apply chunk_list_aux_lengths.
  - intros Hneg.
    destruct (chunk_list objectId_list chunk_size) as [|chunk rest];
      cbn in Hq.
    + by injection Hq as <-.
    + rewrite (proj2 (Z.ltb_lt _ _)) in Hq by (cbn; lia).
      by injection Hq as <-.
Qed.

(** The theorem at a broker that is down. *)
Lemma perform_lightcurve_queries_failed_bound_witness :
  ∃ st,
    perform_lightcurve_queries str_of_value lightcurves_down read_back_text
      (Some "token") 2 ∅ seven_ids 2 = Ok st
    ∧ (length (failed st) ≤ 4)%nat.
Proof.
  destruct (perform_lightcurve_queries str_of_value lightcurves_down read_back_text
              (Some "token") 2 ∅ seven_ids 2) as [st|e] eqn:Hq.
  - exists st. split; [reflexivity|].
    destruct (perform_lightcurve_queries_failed_bound _ _ _ _ _ _ _ _ _ Hq)
      as [Hlen _].
    lia.
  - vm_compute in Hq. discriminate Hq.
Defined.

(** X25: what a query wrote, the load finds.  After
    [perform_lightcurve_queries], in a call of [load_target_lightcurves]
    on the files it left, an object of the [success] list that has a
    target is never reported missing: where the load goes through it,
    the object is loaded or skipped.  The file that [to_csv] wrote has a
    header line, so that it is not read as an empty file. *)
Theorem queried_lightcurves_are_found sky_coord py_str lightcurves read_back
    (client_token : option string) (max_failed_queries : Z)
    (files0 : gmap string file_contents) (queried : list string)
    (chunk_size : nat) (qst : query_state)
    (targets : gmap string Target) (objectId_list : option (list string))
    (lst : load_state) (oid : string) :
  perform_lightcurve_queries py_str lightcurves read_back client_token max_failed_queries
    files0 queried chunk_size = Ok qst →
  load_target_lightcurves sky_coord (files qst) targets objectId_list = Ok lst →
  oid ∈ success qst →
  is_Some (targets !! oid) →
  (oid ∉ missing lst)
  ∧ (oid ∈ ids_to_load targets objectId_list →
     oid ∈ loaded lst ∨ oid ∈ skipped lst).
Proof.
  intros Hq Hl Ho [t Ht].
  unfold perform_lightcurve_queries in Hq.
  destruct client_token as [token|]; [|discriminate].
  apply (query_chunks_sync _ _ _ _ files0) in Hq as [Hin _].
  2:{ split; cbn; [|done]. intros x Hx. by apply elem_of_nil in Hx. }
  destruct (Hin oid Ho) as (lc & df & _ & _ & _ & Hf).
  apply load_target_lightcurves_invariant in Hl
    as [(_ & _ & _ & _ & Hmi) Hperm].
  assert (Hnot : oid ∉ missing lst).
  { intros Hm. destruct (Hmi oid Hm) as [Hnone|Hnone]; [|congruence].
    unfold load_single_lightcurve in Hnone. rewrite Hf in Hnone.
    unfold to_csv in Hnone. by destruct (read_back df) as [df'|[msg|]]. }
  split; [done|]. intros Hid. rewrite <- Hperm in Hid.
  apply elem_of_app in Hid as [Hid|Hid]; [by left|].
  apply elem_of_app in Hid as [Hid|Hid]; [by right|done].
Qed.

(** The theorem at the objects of a broker whose first request fails. *)
Lemma queried_lightcurves_are_found_witness :
  ∃ qst lst,
    perform_lightcurve_queries str_of_value (lightcurves_fail_at 0) read_back_text
      (Some "token") 2 ∅ ["ZTF21aaaaaaa"; "ZTF21abcdefg"] 1 = Ok qst
    ∧ load_target_lightcurves sky_coord_numbers (files qst)
        targets_of_one_object None = Ok lst
    ∧ "ZTF21abcdefg" ∉ missing lst.
Proof.
  destruct (perform_lightcurve_queries str_of_value (lightcurves_fail_at 0) read_back_text
              (Some "token") 2 ∅ ["ZTF21aaaaaaa"; "ZTF21abcdefg"] 1)
    as [qst|e] eqn:Hq; [|vm_compute in Hq; discriminate Hq].
  destruct (load_target_lightcurves sky_coord_numbers (files qst)
              targets_of_one_object None) as [lst|e] eqn:Hl.
  - exists qst, lst. split; [reflexivity|]. split; [exact Hl|].
    apply (queried_lightcurves_are_found _ _ _ _ _ _ _ _ _ _ _ _ _ _ Hq Hl).
    + vm_compute in Hq. injection Hq as <-. cbn.
      apply list_elem_of_singleton. reflexivity.
    + by eexists.
  - vm_compute in Hq. injection Hq as <-. vm_compute in Hl. discriminate Hl.
Defined.

(** * Further properties: the detections of a processed lightcurve *)

Lemma frame_of_rows_column (rows : list (gmap string value))
    (r : gmap string value) (key : string) :
  r ∈ rows → is_Some (r !! key) → key ∈ df_columns (frame_of_rows rows).
Proof.
  intros Hr Hk. cbn. apply elem_of_elements, elem_of_union_list.
  exists (dom r). split; [|by apply elem_of_dom].
  apply list_elem_of_fmap. by exists r.
Qed.

Lemma identified_rows_tag_column py_str oid candidates :
  candidates ≠ [] → "tag" ∈ df_columns (identified_rows py_str oid candidates).
Proof.
  intros Hne. unfold identified_rows. cbn [df_set_scalar df_columns].
  apply elem_of_add_column_mono. cbn [df_concat df_columns].
  set (dets := map (detection_row py_str) (with_candid candidates)).
  set (nons := map non_detection_row (without_candid candidates)).
  destruct (decide ("tag" ∈ df_columns (frame_of_rows dets))) as [Hd|Hd];
    apply elem_of_app; [by left|right].
  apply list_elem_of_filter. split; [done|].
  destruct candidates as [|c candidates]; [done|].
  destruct (truthy (dict_get c "candid")) eqn:Hc.
  - exfalso. apply Hd.
    apply (frame_of_rows_column _ (detection_row py_str c)).
    + apply list_elem_of_fmap. exists c. split; [done|].
      apply list_elem_of_filter. split; [done|left].
    + unfold detection_row. rewrite lookup_insert_eq. by eauto.
  - apply (frame_of_rows_column _ (non_detection_row c)).
    + apply list_elem_of_fmap. exists c. split; [done|].
      apply list_elem_of_filter. split; [done|left].
    + unfold non_detection_row. rewrite lookup_insert_eq. by eauto.
Qed.

Lemma process_lasair_lightcurve_tag_column py_str lc df candidates :
  process_lasair_lightcurve py_str lc = Ok df →
  lc_candidates lc = Some candidates →
  candidates ≠ [] → "tag" ∈ df_columns df.
Proof.
  intros Hp Hc Hne.
  destruct (lc_objectId lc) as [oid|] eqn:Ho;
    [|by unfold process_lasair_lightcurve in Hp; rewrite Ho in Hp].
  rewrite (process_lasair_lightcurve_steps py_str lc oid candidates Ho Hc) in Hp.
  pose proof (identified_rows_tag_column py_str oid candidates Hne) as Hin.
  destruct (df_empty _).
  - cbn in Hp. injection Hp as <-. cbn.
    by do 2 apply elem_of_add_column_mono.
  - destruct (df_getitem _ "jd") as [jd|]; [|discriminate].
    cbn in Hp. destruct (forallb valid_jd jd); [|discriminate].
    cbn in Hp. injection Hp as <-. cbn. by apply elem_of_add_column_mono.
Qed.

Lemma finish_row_detection py_str oid r :
  truthy (dict_get r "candid") = true →
  detection (finish_row oid (detection_row py_str r)).
Proof.
  intros Hr. unfold detection, has_tag, finish_row, detection_row, dict_get in *.
  rewrite !lookup_insert_ne by done. rewrite lookup_insert_eq.
  split; [done|]. by rewrite !lookup_insert_ne.
Qed.

Lemma finish_row_non_detection oid r :
  dict_get (finish_row oid (non_detection_row r)) "tag" = VStr "upperlim".
Proof.
  unfold finish_row, non_detection_row, dict_get.
  rewrite !lookup_insert_ne by done. by rewrite lookup_insert_eq.
Qed.

(** X26: [get_detections] of [aas2rto/modeling/sncosmo.py] on a
    lightcurve from [process_lasair_lightcurve], with its default tags
    and with either value of [use_badqual], keeps the columns and
    exactly the detections: as many rows as the broker's answer has
    candidates with a candidate identifier, each of them tagged valid.
    The non-detections, tagged [upperlim], are dropped. *)
Theorem get_detections_of_processed py_str (lc : lc_data) (df : DataFrame)
    (candidates : list (gmap string value)) (use_badqual : bool) :
  process_lasair_lightcurve py_str lc = Ok df →
  lc_candidates lc = Some candidates →
  df_len (get_detections df use_badqual "valid" "badqual")
  = length (with_candid candidates)
  ∧ Forall detection (df_rows (get_detections df use_badqual "valid" "badqual"))
  ∧ df_columns (get_detections df use_badqual "valid" "badqual") = df_columns df.
Proof.
  intros Hp Hc.
  destruct (process_lasair_lightcurve_shape py_str lc df Hp)
    as (oid & candidates' & Ho & Hc' & Hrows).
  rewrite Hc in Hc'. injection Hc' as <-.
  set (keep := fun r : gmap string value =>
                 if use_badqual then tag_is "valid" r || tag_is "badqual" r
                 else tag_is "valid" r).
  assert (Hdet : ∀ r, truthy (dict_get r "candid") = true →
            keep (finish_row oid (detection_row py_str r)) = true).
  { intros r Hr. destruct (finish_row_detection py_str oid r Hr) as [Ht _].
    unfold keep, tag_is. unfold has_tag in Ht. rewrite Ht.
    by destruct use_badqual. }
  assert (Hnon : ∀ r, keep (finish_row oid (non_detection_row r)) = false).
  { intros r. unfold keep, tag_is. rewrite finish_row_non_detection.
    by destruct use_badqual. }
  assert (Hfilter : filter (fun r => keep r = true) (marked_rows py_str oid candidates)
                    = map (finish_row oid)
                        (map (detection_row py_str) (with_candid candidates))).
  { unfold marked_rows. rewrite map_app, filter_app.
    rewrite (filter_map_all (fun r => keep r = true)).
    2:{ apply Forall_map, Forall_map, Forall_forall. intros r Hr. cbn.
        apply Hdet. by apply list_elem_of_filter in Hr as [Hr _]. }
    rewrite (filter_map_none (fun r => keep r = true)).
    2:{ apply Forall_map, Forall_map, Forall_forall. intros r _. cbn.
        by rewrite Hnon. }
    by rewrite app_nil_r. }
  assert (Hsel : df_rows (get_detections df use_badqual "valid" "badqual")
                 ≡ₚ map (finish_row oid)
                      (map (detection_row py_str) (with_candid candidates))
                 ∧ df_columns (get_detections df use_badqual "valid" "badqual")
                   = df_columns df).
  { unfold get_detections. case_bool_decide as Htag.
    - replace (if use_badqual
               then df_select (fun r => tag_is "valid" r || tag_is "badqual" r) df
               else df_select (tag_is "valid") df)
        with (df_select keep df) by (by unfold keep; destruct use_badqual).
      cbn. split; [|done].
      by rewrite Hrows, merge_sort_Permutation, Hfilter.
    - split; [|done].
      destruct candidates as [|c candidates].
      + by rewrite Hrows.
      + exfalso. apply Htag.
        by apply (process_lasair_lightcurve_tag_column py_str lc df (c :: candidates)). }
  destruct Hsel as [Hperm Hcols]. split; [|split; [|done]].
  - unfold df_len. by rewrite Hperm, !length_map.
  - rewrite Hperm. apply Forall_map, Forall_map, Forall_forall. intros r Hr. cbn.
    apply finish_row_detection. by apply list_elem_of_filter in Hr as [Hr _].
Qed.

(** The theorem at a lightcurve of two detections and a non-detection. *)
Lemma get_detections_of_processed_witness :
  ∃ df, process_lasair_lightcurve str_of_value lc_two_detections = Ok df
        ∧ df_len (get_detections df true "valid" "badqual") = 2%nat.
Proof.
  destruct (process_lasair_lightcurve str_of_value lc_two_detections)
    as [df|e] eqn:Hp.
  - exists df. split; [reflexivity|].
    by destruct (get_detections_of_processed str_of_value lc_two_detections df
                   _ true Hp eq_refl) as [Hlen _].
  - vm_compute in Hp. discriminate Hp.
Defined.
